(** * Panel-reader manga pipeline: the ingestion, classification,
      normalization and aggregation code of [process_manga.py]

    The development follows the two pipelines of the repository:
    [Magi/process_manga.py] (MAGI detector, boxes [[x1,y1,x2,y2]]) and
    [process_manga.py] (Kumiko detector).  Python values are embedded as
    follows.

    - [int] is [Z]; [float] is a rational [Q] that is always the exact
      value of an IEEE-754 binary64 number: every arithmetic result goes
      through [Binary64.RN], the round-to-nearest-even projection.
    - a number stored with [round(v, 3)] is kept as its integer number of
      thousandths ([188] stands for the JSON number [0.188]).
    - a raised exception is [None] in an [option], or a constructor of a
      result type when the kind of exception matters.
    - file names are [string]s compared byte-wise, paths are lists of
      components, directories are finite maps or trees. *)

From Stdlib Require Import ZArith QArith Qabs Lia Lqa String Ascii List Bool.
From Stdlib Require Import Floats.PrimFloat Floats.FloatOps Uint63.
From stdpp Require Import gmap strings list sorting.

(* ===================================================================== *)
(** ** IEEE-754 binary64 arithmetic on exact rationals *)
(* ===================================================================== *)

Module Binary64.
Local Open Scope Z_scope.

(** [num/den] rounded to the nearest integer, ties to the even one
    ([den > 0]). *)
Definition rnd_half_even (num den : Z) : Z :=
  let q := num / den in
  match Z.compare (2 * (num mod den)) den with
  | Lt => q
  | Gt => q + 1
  | Eq => if Z.even q then q else q + 1
  end.

(** [floor (log2 (n/d))] for positive [n] and [d]. *)
Definition ilog2_ratio (n d : Z) : Z :=
  let k := Z.log2 n - Z.log2 d in
  if (if 0 <=? k then d * 2 ^ k <=? n else d <=? n * 2 ^ (- k))
  then k else k - 1.

(** Exponent of the last mantissa bit of the double nearest to [n/d]:
    53 significant bits, gradual underflow below [2^-1022]. *)
Definition ulp_exp (n d : Z) : Z :=
  Z.max (ilog2_ratio (Z.abs n) d - 52) (-1074).

(** Round to nearest binary64, ties to even. *)
Definition RN (x : Q) : Q :=
  let n := Qnum x in
  let d := Zpos (Qden x) in
  if n =? 0 then 0%Q
  else
    let e := ulp_exp n d in
    if 0 <=? e then inject_Z (rnd_half_even n (d * 2 ^ e) * 2 ^ e)
    else Qmake (rnd_half_even (n * 2 ^ (- e)) d) (Z.to_pos (2 ^ (- e))).

(** A rounded magnitude of [2^1024] or more is not a finite double. *)
Definition overflows (x : Q) : bool :=
  Qle_bool (inject_Z (2 ^ 1024)) (Qabs x).

Definition finite (x : Q) : option Q :=
  if overflows x then None else Some x.

(** The rational [a/b] for [b <> 0]. *)
Definition ratio (a b : Z) : Q :=
  Qmake (a * Z.sgn b) (Z.to_pos (Z.abs b)).

(** [a / b] on two Python ints: [ZeroDivisionError] and
    [OverflowError] are [None]. *)
Definition py_truediv (a b : Z) : option Q :=
  if b =? 0 then None else finite (RN (ratio a b)).

(** [float(a)]. *)
Definition float_of_int (a : Z) : option Q := finite (RN (inject_Z a)).

(** [int(a * x)] for an int [a] and a float [x]: the int is converted,
    the product is rounded, [int] truncates towards zero; an infinite
    product makes [int] raise. *)
Definition py_int (x : Q) : Z := Z.quot (Qnum x) (Zpos (Qden x)).

Definition int_of_product (a : Z) (x : Q) : option Z :=
  match float_of_int a with
  | None => None
  | Some fa => option_map py_int (finite (RN (fa * x)))
  end.

(** [x / b] for a float [x] and an int [b]. *)
Definition float_div_int (x : Q) (b : Z) : option Q :=
  if b =? 0 then None
  else match float_of_int b with
       | None => None
       | Some fb => finite (RN (x / fb))
       end.

(** [round(x, 3)], as a number of thousandths: correctly rounded,
    ties to even, on the exact value of the double. *)
Definition py_round3 (x : Q) : Z :=
  rnd_half_even (1000 * Qnum x) (Zpos (Qden x)).

(** The exact value of a hardware double, for comparison with [RN]. *)
Definition Q_of_spec_float (f : SpecFloat.spec_float) : option Q :=
  match f with
  | SpecFloat.S754_zero _ => Some 0%Q
  | SpecFloat.S754_finite s m e =>
      let v := if 0 <=? e then inject_Z (Zpos m * 2 ^ e)
               else Qmake (Zpos m) (Z.to_pos (2 ^ (- e))) in
      Some (if s then Qopp v else v)
  | _ => None
  end.

Definition hw_div (a b : Z) : option Q :=
  Q_of_spec_float
    (Prim2SF (PrimFloat.div (PrimFloat.of_uint63 (Uint63.of_Z a))
                            (PrimFloat.of_uint63 (Uint63.of_Z b)))).

Definition hw_int_mul_div (w a b : Z) : option Q :=
  Q_of_spec_float
    (Prim2SF (PrimFloat.mul (PrimFloat.of_uint63 (Uint63.of_Z w))
       (PrimFloat.div (PrimFloat.of_uint63 (Uint63.of_Z a))
                      (PrimFloat.of_uint63 (Uint63.of_Z b))))).
End Binary64.

(* ===================================================================== *)
(** ** Coordinate normalization *)
(* ===================================================================== *)

(** A stored panel: the four JSON numbers [x], [y], [w], [h], each the
    result of [round(_, 3)], as thousandths. *)
Record panel := mk_panel
  { panel_x : Z; panel_y : Z; panel_w : Z; panel_h : Z }.

Module Normalizer.
Import Binary64.
Local Open Scope Z_scope.

(** MAGI resizes images to max 800px before processing. *)
Definition magi_max_size : Z := 800.

(** Fallback of [combine_jsons_to_final_json] when no image file of the
    page can be opened. *)
Definition fallback_size : Z * Z := (800, 1200).

(** [combine_jsons_to_final_json], the choice of [coord_img_width] and
    [coord_img_height] from the actual image size. *)
Definition coord_img_size (actual_img_width actual_img_height : Z)
  : option (Z * Z) :=
  let longest := Z.max actual_img_width actual_img_height in
  if magi_max_size <? longest then
    scale_factor ← py_truediv magi_max_size longest;
    magi_img_width ← int_of_product actual_img_width scale_factor;
    magi_img_height ← int_of_product actual_img_height scale_factor;
    Some (magi_img_width, magi_img_height)
  else Some (actual_img_width, actual_img_height).

(** The denominators the claim of the specification names. *)
Definition floor_scaled_size (origW origH : Z) : Z * Z :=
  let longest := Z.max origW origH in
  if magi_max_size <? longest
  then (origW * magi_max_size / longest, origH * magi_max_size / longest)
  else (origW, origH).

(** One MAGI box [[x1, y1, x2, y2]] against the denominators. *)
Definition normalize_box (coord_img_width coord_img_height : Z)
    (x1 y1 x2 y2 : Z) : option panel :=
  let w := x2 - x1 in
  let h := y2 - y1 in
  normalized_x ← py_truediv x1 coord_img_width;
  normalized_y ← py_truediv y1 coord_img_height;
  normalized_w ← py_truediv w coord_img_width;
  normalized_h ← py_truediv h coord_img_height;
  Some (mk_panel (py_round3 normalized_x) (py_round3 normalized_y)
                 (py_round3 normalized_w) (py_round3 normalized_h)).

(** The loop over [data['panels']]: an entry that is not a list of
    length 4 is passed over, an exception leaves the loop. *)
Fixpoint normalize_panels (coord_img_width coord_img_height : Z)
    (panels : list (list Z)) : option (list panel) :=
  match panels with
  | [] => Some []
  | panel_data :: rest =>
      match panel_data with
      | [x1; y1; x2; y2] =>
          p ← normalize_box coord_img_width coord_img_height x1 y1 x2 y2;
          ps ← normalize_panels coord_img_width coord_img_height rest;
          Some (p :: ps)
      | _ => normalize_panels coord_img_width coord_img_height rest
      end
  end.

(** The panels of one page from the size of its image file, when one
    was opened, and the detector's boxes. *)
Definition page_panels (image_size : option (Z * Z))
    (panels : list (list Z)) : option (list panel) :=
  let '(actual_img_width, actual_img_height) :=
    default fallback_size image_size in
  '(coord_img_width, coord_img_height) ←
    coord_img_size actual_img_width actual_img_height;
  normalize_panels coord_img_width coord_img_height panels.

(** [min(1, v)] and [max(0, v)] as Python evaluates them. *)
Definition Qltb (a b : Q) : bool := negb (Qle_bool b a).
Definition py_min1 (v : Q) : Q := if Qltb v 1 then v else 1%Q.
Definition py_max0 (v : Q) : Q := if Qltb 0 v then v else 0%Q.
Definition clamp01 (v : Q) : Q := py_max0 (py_min1 v).

(** [add_normalized_panel_to_page] of both pipelines: the list is
    extended in place, here returned; [None] is [ZeroDivisionError]. *)
Definition add_normalized_panel_to_page (page_panels : list panel)
    (x y w h : Q) (img_w img_h : Z) : option (list panel) :=
  normalized_x ← float_div_int x img_w;
  normalized_y ← float_div_int y img_h;
  normalized_w ← float_div_int w img_w;
  normalized_h ← float_div_int h img_h;
  let normalized_x := clamp01 normalized_x in
  let normalized_y := clamp01 normalized_y in
  let normalized_w := clamp01 normalized_w in
  let normalized_h := clamp01 normalized_h in
  Some (page_panels ++
        [mk_panel (py_round3 normalized_x) (py_round3 normalized_y)
                  (py_round3 normalized_w) (py_round3 normalized_h)]).

(** The invariant of a stored panel, in thousandths. *)
Definition panel_in_unit_square (p : panel) : Prop :=
  0 <= panel_x p <= 1000 /\ 0 <= panel_y p <= 1000 /\
  0 <= panel_w p <= 1000 /\ 0 <= panel_h p <= 1000.

Definition panel_inside_page (p : panel) : Prop :=
  panel_x p + panel_w p <= 1001 /\ panel_y p + panel_h p <= 1001.
End Normalizer.

(* ===================================================================== *)
(** ** Strings, paths and the stable sort of Python *)
(* ===================================================================== *)

Module PyStr.
Local Open Scope string_scope.

Definition lower_ascii (c : ascii) : ascii :=
  let n := nat_of_ascii c in
  if (65 <=? n)%nat && (n <=? 90)%nat then ascii_of_nat (n + 32) else c.

Definition upper_ascii (c : ascii) : ascii :=
  let n := nat_of_ascii c in
  if (97 <=? n)%nat && (n <=? 122)%nat then ascii_of_nat (n - 32) else c.

Fixpoint map_string (f : ascii -> ascii) (s : string) : string :=
  match s with
  | EmptyString => EmptyString
  | String c s' => String (f c) (map_string f s')
  end.

(** [s.lower()] and [s.upper()] on the ASCII letters. *)
Definition lower : string -> string := map_string lower_ascii.
Definition upper : string -> string := map_string upper_ascii.

(** [s.endswith(suf)]. *)
Definition endswith (s suf : string) : bool :=
  String.prefix (String.rev suf) (String.rev s).

(** [pat in s]. *)
Definition contains (pat s : string) : bool :=
  match String.index 0 pat s with Some _ => true | None => false end.

(** The name read from its end up to the last dot: the dot-led tail
    and, still reversed, what precedes it. *)
Fixpoint rsplit_dot (rev_name acc : string) : option (string * string) :=
  match rev_name with
  | EmptyString => None
  | String c r =>
      if Ascii.eqb c "."
      then Some (String "." acc, r)
      else rsplit_dot r (String c acc)
  end.

(** [PurePath.suffix]: the tail from the last dot, unless that dot is
    the first or the last character of the name. *)
Definition suffix (name : string) : string :=
  match rsplit_dot (String.rev name) "" with
  | Some (suf, before) =>
      if String.eqb before "" || String.eqb suf "." then "" else suf
  | None => ""
  end.

(** [PurePath.stem]. *)
Definition stem (name : string) : string :=
  match rsplit_dot (String.rev name) "" with
  | Some (suf, before) =>
      if String.eqb before "" || String.eqb suf "." then name
      else String.rev before
  | None => name
  end.

(** [s.replace(pat, "")] for a non-empty [pat]: occurrences are removed
    from left to right, without overlap. *)
Fixpoint remove_all_from (pat : string) (skip : nat) (s : string) : string :=
  match s with
  | EmptyString => EmptyString
  | String c s' =>
      match skip with
      | S k => remove_all_from pat k s'
      | O =>
          if String.prefix pat s
          then remove_all_from pat (String.length pat - 1) s'
          else String c (remove_all_from pat 0 s')
      end
  end.

Definition remove_all (pat s : string) : string := remove_all_from pat 0 s.
End PyStr.

Module PySort.
Section sort.
Context {A K : Type} (key : A -> K) (leb : K -> K -> bool).

(** [x] goes before the first element whose key is not below its
    own, so elements with equal keys keep their order. *)
Fixpoint insert (x : A) (l : list A) : list A :=
  match l with
  | [] => [x]
  | y :: l' => if leb (key x) (key y) then x :: l else y :: insert x l'
  end.

(** [l.sort(key=key)] and [sorted(l, key=key)]. *)
Fixpoint sort (l : list A) : list A :=
  match l with
  | [] => []
  | x :: l' => insert x (sort l')
  end.
End sort.
End PySort.

(** The truth value of a Python list. *)
Definition truthy {A} (l : list A) : bool :=
  match l with [] => false | _ :: _ => true end.

(** A path below a unit: its components, compared as [pathlib] compares
    paths, component by component. *)
Definition path := list string.

Fixpoint path_leb (p q : path) : bool :=
  match p, q with
  | [], _ => true
  | _ :: _, [] => false
  | a :: p', b :: q' =>
      match String.compare a b with
      | Lt => true
      | Gt => false
      | Eq => path_leb p' q'
      end
  end.

Definition path_le (p q : path) : Prop := path_leb p q = true.

Definition path_name (p : path) : string := List.last p EmptyString.

(* ===================================================================== *)
(** ** Directory trees, globbing and the image enumerator *)
(* ===================================================================== *)

(** A directory entry.  A file carries the size [PIL] reads from it when
    it can be opened as an image. *)
#[warnings="-register-all"]
Inductive node :=
| File (name : string) (image_size : option (Z * Z))
| Dir (name : string) (entries : list node).

Module Tree.
Import PyStr.
Local Open Scope string_scope.
Local Open Scope list_scope.

Definition node_name (n : node) : string :=
  match n with File name _ => name | Dir name _ => name end.

Definition is_dir (n : node) : bool :=
  match n with Dir _ _ => true | File _ _ => false end.

Definition is_file (n : node) : bool :=
  match n with File _ _ => true | Dir _ _ => false end.

(** [folder.iterdir()], in the order the directory lists its entries. *)
Definition iterdir (n : node) : list node :=
  match n with Dir _ entries => entries | File _ _ => [] end.

Definition image_extensions : list string :=
  [".jpg"; ".jpeg"; ".png"; ".bmp"; ".gif"; ".webp"].

(** Whether a name matches the pattern [*ext]: [pathlib] on POSIX
    compares the characters as they are, and [*] also stands for
    nothing and for a leading dot. *)
Definition name_matches (name ext : string) : bool := endswith name ext.

(** [d.glob(f"*{ext}")]: the entries of [d] itself. *)
Definition glob (d : node) (ext : string) : list node :=
  List.filter (fun c => name_matches (node_name c) ext) (iterdir d).

(** Every entry below a directory with its path relative to it. *)
Fixpoint descendants (prefix : path) (n : node) : list (path * node) :=
  match n with
  | File name _ => [((prefix ++ [name])%list, n)]
  | Dir name entries =>
      ((prefix ++ [name])%list, n)
        :: flat_map (descendants (prefix ++ [name])%list) entries
  end.

(** The entries below a folder, and the entries of a chapter directory,
    each with its path. *)
Definition entries_below (folder : node) : list (path * node) :=
  flat_map (descendants []) (iterdir folder).

Definition entries_of (chapter_dir : node) : list (path * node) :=
  List.map (fun c => ([node_name c], c)) (iterdir chapter_dir).

(** The paths of the entries whose name matches [*ext]. *)
Definition matching (entries : list (path * node)) (ext : string)
  : list path :=
  List.map fst
    (List.filter (fun pn => name_matches (node_name (snd pn)) ext) entries).

(** [folder.rglob(f"*{ext}")]. *)
Definition rglob (folder : node) (ext : string) : list path :=
  matching (entries_below folder) ext.

(** The collection loop: for each extension the lower-case pattern,
    then the upper-case one; nothing is removed from the list. *)
Definition collect (entries : list (path * node)) : list path :=
  flat_map (fun ext => matching entries ext ++ matching entries (upper ext))
           image_extensions.

(** The collection loop of [process_with_magi] and
    [process_with_kumiko] followed by [image_files.sort()]. *)
Definition image_files_rglob (folder : node) : list path :=
  PySort.sort id path_leb (collect (entries_below folder)).

(** The collection loop of [process_chapter_based_archive] over one
    chapter directory, followed by [image_files.sort()]. *)
Definition image_files_glob (chapter_dir : node) : list path :=
  PySort.sort id path_leb (collect (entries_of chapter_dir)).

(** The twelve suffixes the loop looks for. *)
Definition collected_suffixes : list string :=
  flat_map (fun ext => [ext; upper ext]) image_extensions.

(** What a list of image files is with respect to the entries it was
    collected from: it holds the path of each entry whose name ends with
    one of the twelve suffixes, no path twice, in ascending order. *)
Definition enumerates (entries : list (path * node))
    (image_files : list path) : Prop :=
  (forall p, p ∈ image_files <->
     exists n s, (p, n) ∈ entries /\
                 s ∈ collected_suffixes /\
                 endswith (node_name n) s = true) /\
  NoDup image_files /\
  Sorted path_le image_files.

(** The test both pipelines use for a chapter directory. *)
Definition has_images (item : node) : bool :=
  existsb (fun ext => truthy (glob item ext ++ glob item (upper ext)))
          image_extensions.

(** [item.suffix.lower() in [...]]. *)
Definition has_image_suffix (name : string) : bool :=
  existsb (String.eqb (lower (suffix name))) image_extensions.

(** One step of the counting loop of [is_chapter_based_archive] on the
    pair [(chapter_dirs, image_files_in_root)]. *)
Definition count_item (counts : nat * nat) (item : node) : nat * nat :=
  let '(chapter_dirs, image_files_in_root) := counts in
  if is_dir item then
    if has_images item
    then (S chapter_dirs, image_files_in_root)
    else (chapter_dirs, image_files_in_root)
  else if is_file item && has_image_suffix (node_name item)
  then (chapter_dirs, S image_files_in_root)
  else (chapter_dirs, image_files_in_root).

(** The threshold on the two counts. *)
Definition chapter_threshold (chapter_dirs image_files_in_root : nat)
  : bool :=
  (2 <=? chapter_dirs)%nat
  || ((1 <=? chapter_dirs)%nat && (image_files_in_root <=? 2)%nat).

(** The folder [is_chapter_based_archive] counts in: it moves into
    a single subdirectory without looking at what that subdirectory
    holds. *)
Definition counted_folder (folder_path : node) : node :=
  match List.filter is_dir (iterdir folder_path) with
  | [nested_dir] => nested_dir
  | _ => folder_path
  end.

(** [is_chapter_based_archive] of both pipelines. *)
Definition is_chapter_based_archive (folder_path : node) : bool :=
  if negb (is_dir folder_path) then false
  else
    let nested_dirs := List.filter is_dir (iterdir folder_path) in
    let folder_path :=
      match nested_dirs with
      | [nested_dir] => nested_dir
      | _ => folder_path
      end in
    let '(chapter_dirs, image_files_in_root) :=
      fold_left count_item (iterdir folder_path) (0%nat, 0%nat) in
    chapter_threshold chapter_dirs image_files_in_root.

(** The folder [process_chapter_based_archive] works on: the single
    nested directory only when one of its own subdirectories holds
    images. *)
Definition chapter_root (folder_path : node) : node :=
  match List.filter is_dir (iterdir folder_path) with
  | [nested_dir] =>
      let nested_chapter_dirs := List.filter is_dir (iterdir nested_dir) in
      if existsb has_images nested_chapter_dirs
      then nested_dir else folder_path
  | _ => folder_path
  end.

(** The two counts of the loop, as lengths. *)
Definition counted_chapter_dirs (folder : node) : nat :=
  length (List.filter (fun item => is_dir item && has_images item)
                      (iterdir folder)).

Definition counted_root_images (folder : node) : nat :=
  length (List.filter
            (fun item => is_file item && has_image_suffix (node_name item))
            (iterdir folder)).

(** The classifier as the specification words it.  An image is a file
    whose extension is in the fixed set, whatever its case; the single
    subdirectory is entered only when it has a subdirectory that holds
    an image; [chapterDirs] counts the subdirectories that contain an
    image, [rootImages] the loose images. *)
Definition spec_is_image (item : node) : bool :=
  is_file item && has_image_suffix (node_name item).

Definition spec_holds_image (item : node) : bool :=
  is_dir item && existsb spec_is_image (iterdir item).

Definition spec_folder (folder : node) : node :=
  match List.filter is_dir (iterdir folder) with
  | [only] => if existsb spec_holds_image (iterdir only) then only else folder
  | _ => folder
  end.

Definition spec_classifier (folder : node) : bool :=
  is_dir folder &&
  let folder := spec_folder folder in
  let chapterDirs := length (List.filter spec_holds_image (iterdir folder)) in
  let rootImages := length (List.filter spec_is_image (iterdir folder)) in
  (2 <=? chapterDirs)%nat ||
  ((1 <=? chapterDirs)%nat && (rootImages <=? 2)%nat).
End Tree.

(* ===================================================================== *)
(** ** Exceptions *)
(* ===================================================================== *)

(** The exceptions that leave a function of the pipelines:
    [CalledProcessError] and [FileNotFoundError] of [subprocess.run],
    another exception of [subprocess.run] ([PermissionError] for a tool
    that cannot be executed, [UnicodeDecodeError] for an output that
    [text=True] cannot decode), [FileExistsError] of [mkdir], and the
    [UnboundLocalError] of a [finally] clause that reads a variable the
    [try] never bound. *)
Inductive exn :=
| RaisedCalledProcessError
| RaisedFileNotFoundError
| RaisedOtherError
| RaisedFileExistsError
| RaisedUnboundLocalError.

(** How a call ends: it returns a value or it raises. *)
Inductive result (A : Type) :=
| Return (value : A)
| Raise (e : exn).
Arguments Return {A} value.
Arguments Raise {A} e.

Definition outcome := result bool.

(* ===================================================================== *)
(** ** Archive type detection and extraction *)
(* ===================================================================== *)

Module Extract.
Import PyStr.
Local Open Scope string_scope.
Local Open Scope list_scope.

(** The values of [archive_type]: ['zip'], ['rar'], ['7z'], ['tar'],
    ['gzip']. *)
Inductive archive_type := zip | rar | sevenz | tar | gzip.

(** What [subprocess.run(cmd, capture_output=True, text=True,
    check=True)] does: it returns with the captured standard output, or
    raises [CalledProcessError] (the tool ran and failed),
    [FileNotFoundError] (no such binary), or another exception
    ([PermissionError], [UnicodeDecodeError], ...). *)
Inductive run_result :=
| Completed (stdout : string)
| CalledProcessError
| FileNotFoundError
| OtherError.

(** [detect_file_type], from what running [file] on the archive does.
    [strip()] cannot cut into a match, the patterns neither begin nor
    end with white space.  The handler is for [CalledProcessError] and
    [FileNotFoundError]; another exception leaves the function. *)
Definition detect_file_type (file_cmd : run_result)
  : result (option archive_type) :=
  match file_cmd with
  | Completed output =>
      Return
        (if contains "Zip archive" output then Some zip
         else if contains "RAR archive" output then Some rar
         else if contains "7-zip" output then Some sevenz
         else if contains "tar" (lower output) then Some tar
         else if contains "gzip compressed" output then Some gzip
         else None)
  | CalledProcessError | FileNotFoundError => Return None
  | OtherError => Raise RaisedOtherError
  end.

(** The processes and library calls [extract_archive] may start. *)
Inductive command :=
| ZipExtractAll | TarXzf | Gunzip | Unrar | SevenZip | TarXf.

(** The environment of one extraction.  [zipfile] and [gunzip] are
    called under [except Exception], so that only whether they went
    through matters. *)
Record tools := mk_tools
  { run_file : run_result;
    zip_extractall_ok : bool;
    run_tar_xzf : run_result;
    gunzip_ok : bool;
    run_unrar : run_result;
    run_7z : run_result;
    run_tar_xf : run_result }.

Inductive message :=
| UnsupportedFormat (suffix : string)
| Extracted (what : command)
| FailedToExtract (what : command)
| CommandNotFound (cmd : string) (install_package : string)
| UnsupportedArchiveFormat (suffix : string).

(** What one call of [extract_archive] did: the commands it started,
    what it printed about the result, how it ended. *)
Record extraction := mk_extraction
  { started : list command;
    printed : list message;
    ended : outcome }.

(** A tool behind [try: ... except CalledProcessError: ... except
    FileNotFoundError: ...], as in the RAR and 7Z branches. *)
Definition run_guarded (c : command) (r : run_result)
    (cmd package : string) : extraction :=
  match r with
  | Completed _ => mk_extraction [c] [Extracted c] (Return true)
  | CalledProcessError =>
      mk_extraction [c] [FailedToExtract c] (Return false)
  | FileNotFoundError =>
      mk_extraction [c] [CommandNotFound cmd package] (Return false)
  | OtherError => mk_extraction [c] [] (Raise RaisedOtherError)
  end.

(** A tool behind [try: ... except CalledProcessError: ...] only, as in
    the TAR branch. *)
Definition run_half_guarded (c : command) (r : run_result) : extraction :=
  match r with
  | Completed _ => mk_extraction [c] [Extracted c] (Return true)
  | CalledProcessError =>
      mk_extraction [c] [FailedToExtract c] (Return false)
  | FileNotFoundError =>
      mk_extraction [c] [] (Raise RaisedFileNotFoundError)
  | OtherError => mk_extraction [c] [] (Raise RaisedOtherError)
  end.

Definition in_list (s : string) (l : list string) : bool :=
  existsb (String.eqb s) l.

(** [extract_archive] of both pipelines, on the name of the archive.
    [extract_to] is a directory when the function is called,
    [process_input] has made it, so that
    [extract_to.mkdir(parents=True, exist_ok=True)] does nothing. *)
Definition extract_archive (env : tools) (archive_name : string)
  : extraction :=
  match detect_file_type (run_file env) with
  | Raise e => mk_extraction [] [] (Raise e)
  | Return detected_type =>
  let suffix := lower (suffix archive_name) in
  let archive_type :=
    match detected_type with
    | Some t => Some t
    | None =>
        if in_list suffix [".cbz"; ".zip"] then Some zip
        else if in_list suffix [".rar"] then Some rar
        else if in_list suffix [".gz"; ".gzip"] then Some gzip
        else None
    end in
  match archive_type with
  | None => mk_extraction [] [UnsupportedFormat suffix] (Return false)
  | Some zip =>
      if zip_extractall_ok env
      then mk_extraction [ZipExtractAll] [Extracted ZipExtractAll]
                         (Return true)
      else mk_extraction [ZipExtractAll] [FailedToExtract ZipExtractAll]
                         (Return false)
  | Some gzip =>
      match run_tar_xzf env with
      | Completed _ =>
          mk_extraction [TarXzf] [Extracted TarXzf] (Return true)
      | CalledProcessError =>
          if gunzip_ok env
          then mk_extraction [TarXzf; Gunzip] [Extracted Gunzip]
                             (Return true)
          else mk_extraction [TarXzf; Gunzip] [FailedToExtract Gunzip]
                             (Return false)
      | FileNotFoundError =>
          mk_extraction [TarXzf] [] (Raise RaisedFileNotFoundError)
      | OtherError =>
          mk_extraction [TarXzf] [] (Raise RaisedOtherError)
      end
  | Some _ =>
      if in_list suffix [".rar"] then
        run_guarded Unrar (run_unrar env) "unrar" "unrar"
      else if in_list suffix [".7z"] then
        run_guarded SevenZip (run_7z env) "7z" "p7zip"
      else if in_list suffix [".tar"; ".tar.gz"; ".tgz"; ".tar.bz2";
                              ".tbz2"; ".tar.xz"; ".txz"] then
        run_half_guarded TarXf (run_tar_xf env)
      else
        mk_extraction [] [UnsupportedArchiveFormat suffix] (Return false)
  end
  end.

(** The strategy the specification asks for: the one of the detected
    format when the content is recognised, whatever the extension. *)
Definition strategy_of_type (t : archive_type) : command :=
  match t with
  | zip => ZipExtractAll
  | rar => Unrar
  | sevenz => SevenZip
  | tar => TarXf
  | gzip => TarXzf
  end.
End Extract.

(* ===================================================================== *)
(** ** Documents and the output directory *)
(* ===================================================================== *)

(** One entry of ["pages"]. *)
Record page_record := mk_page
  { page : nat; image : string; panels : list panel }.

(** The chapter document both pipelines write. *)
Record chapter_document := mk_chapter
  { reading_direction : string;
    total_pages : nat;
    pages : list page_record }.

(** One entry of ["chapters"] in the master index. *)
Record chapter_entry := mk_entry
  { chapter_name : string;
    chapter_json_file : string;
    chapter_total_pages : nat }.

(** The master index. *)
Record archive_index := mk_index
  { archive_name : string;
    total_chapters : nat;
    chapters : list chapter_entry;
    index_reading_direction : string }.

(** A page as the Kumiko pipeline stores it: the coordinates are the
    quotients themselves, neither clamped nor rounded; ["image"] is
    there when the detector gave a file name. *)
Record kumiko_page := mk_kumiko_page
  { kumiko_page_num : Z;
    kumiko_image : option string;
    kumiko_panels : list (Q * Q * Q * Q) }.

Inductive json_doc :=
| ChapterJson (d : chapter_document)
| KumikoChapterJson (total : nat) (pages : list kumiko_page)
| IndexJson (i : archive_index).

(** What a file of the output directory holds: the whole serialization
    of a document, or only its first [bytes] bytes, fewer than the
    whole.  A truncated object is not valid JSON. *)
Inductive file_content :=
| Whole (d : json_doc)
| Truncated (d : json_doc) (bytes : nat).

(** How [with open(path, 'w') as f: json.dump(doc, f)] can go: to the
    end, not at all ([open] raises, as it does when the path is that
    of a directory), or [open] empties the file and an exception stops
    the writing after some bytes. *)
Inductive write_fault :=
| NoFault
| OpenRaises
| DumpRaisesAfter (bytes : nat).

(** The output directory [panel_result]: its files by name, and its
    subdirectories by name with the files each of them holds.  The
    pipelines make subdirectories for their temporary result files
    only; [T] is what such a file holds.  A name is that of a file or
    of a subdirectory, not of both. *)
Record output_dir (T : Type) := mk_output
  { out_files : gmap string file_content;
    out_folders : gmap string (gmap string T) }.
Arguments mk_output {T} out_files out_folders.
Arguments out_files {T} o.
Arguments out_folders {T} o.

(** How [shutil.rmtree(temp_json_dir)] under [try: ... except
    Exception] goes: the directory is removed, or the call raises and
    the directory stays with what is left of its files. *)
Inductive rmtree_result (T : Type) :=
| Removed
| RmtreeRaises (remaining : gmap string T).
Arguments Removed {T}.
Arguments RmtreeRaises {T} remaining.

Module Output.
(** The [try: with open(...) ... return True / except Exception:
    return False] at the end of [combine_jsons_to_final_json],
    [combine_jsons_to_json] and [process_chapter_based_archive]. *)
Definition write_json (fs : gmap string file_content) (output_json : string)
    (d : json_doc) (fault : write_fault) : gmap string file_content * bool :=
  match fault with
  | NoFault => (<[output_json := Whole d]> fs, true)
  | OpenRaises => (fs, false)
  | DumpRaisesAfter bytes => (<[output_json := Truncated d bytes]> fs, false)
  end.

(** What a writer that was asked to put the document [d] at
    [output_json] left and returned.  Every other path is as it was.
    A write without a fault returns [True] and leaves the whole of [d];
    when [open] raises the writer returns [False] and the path is as it
    was; when the exception comes later the writer returns [False] and
    the path holds the first bytes of [d], whatever it held before. *)
Definition write_outcome (output_json : string) (d : json_doc)
    (fault : write_fault) (fs : gmap string file_content)
    (written : gmap string file_content * bool) : Prop :=
  (forall k, k <> output_json -> written.1 !! k = fs !! k) /\
  match fault with
  | NoFault =>
      written.2 = true /\ written.1 !! output_json = Some (Whole d)
  | OpenRaises =>
      written.2 = false /\ written.1 !! output_json = fs !! output_json
  | DumpRaisesAfter bytes =>
      written.2 = false /\
      written.1 !! output_json = Some (Truncated d bytes)
  end.

(** The files of a subdirectory; one that does not exist has none. *)
Definition folder_content {T} (out : output_dir T) (name : string)
  : gmap string T :=
  default ∅ (out_folders out !! name).

(** [temp_json_dir.mkdir(exist_ok=True)]: a directory of that name is
    taken with what it holds, a file of that name makes the call raise
    [FileExistsError]. *)
Definition mkdir_exist_ok {T} (name : string) (out : output_dir T)
  : result (output_dir T) :=
  match out_files out !! name with
  | Some _ => Raise RaisedFileExistsError
  | None =>
      Return (mk_output (out_files out)
                (<[name := folder_content out name]> (out_folders out)))
  end.

(** The subdirectory [name] with the files [content]. *)
Definition with_folder {T} (name : string) (content : gmap string T)
    (out : output_dir T) : output_dir T :=
  mk_output (out_files out) (<[name := content]> (out_folders out)).

(** The clean-up [try: shutil.rmtree(temp_json_dir) except Exception:
    print(...)]. *)
Definition rmtree {T} (how : rmtree_result T) (name : string)
    (folders : gmap string (gmap string T)) : gmap string (gmap string T) :=
  match how with
  | Removed => delete name folders
  | RmtreeRaises remaining => <[name := remaining]> folders
  end.

(** [json.load] of a chapter file followed by
    [chapter_data.get("total_pages", 0)]; [None] is an exception. *)
Definition read_total_pages (c : file_content) : option nat :=
  match c with
  | Whole (ChapterJson d) => Some (total_pages d)
  | Whole (KumikoChapterJson total _) => Some total
  | Whole (IndexJson _) => Some 0%nat
  | Truncated _ _ => None
  end.
End Output.

(* ===================================================================== *)
(** ** The MAGI pipeline: detection adapter and aggregator *)
(* ===================================================================== *)

(** What a [panels.json] moved into the temporary directory holds. *)
Inductive panels_json :=
| PanelsDoc (boxes : list (list Z))
| NoPanelsKey
| NotJson.

(** How the detection subprocess of one image ends: with a return code
    and, possibly, a [panels.json] next to the script; by the timeout;
    by another exception inside the [try].  When there is no working
    directory, [os.getcwd()] raises and an exception leaves
    [process_image_with_magi]: for a relative image path it is the
    [FileNotFoundError] of [image_path.absolute()], before the [try];
    for an absolute one the [try] catches the error of [os.getcwd()]
    and the [finally] clause, which reads [original_cwd], raises
    [UnboundLocalError]. *)
Inductive detection :=
| Exited (returncode : Z) (panels_file : option panels_json)
| TimeoutExpired
| OtherException
| GetcwdRaises (relative_path : bool).

Module Magi.
Import PyStr Tree Output.
Local Open Scope string_scope.
Local Open Scope list_scope.

(** [process_image_with_magi]: the temporary directory after the call,
    and the returned pair or the exception. *)
Definition process_image_with_magi (d : detection) (image_name : string)
    (temp : gmap string panels_json)
  : gmap string panels_json * result (bool * option string) :=
  let output_json := (stem image_name ++ "_panels.json")%string in
  match d with
  | Exited returncode panels_file =>
      if (returncode =? 0)%Z then
        match panels_file with
        | Some content => (<[output_json := content]> temp,
                           Return (true, Some output_json))
        | None => (temp, Return (false, None))
        end
      else (temp, Return (false, None))
  | TimeoutExpired => (temp, Return (false, None))
  | OtherException => (temp, Return (false, None))
  | GetcwdRaises relative_path =>
      (temp, Raise (if relative_path then RaisedFileNotFoundError
                    else RaisedUnboundLocalError))
  end.

(** The loop [for image_file in image_files] of [process_with_magi]
    and [process_chapter_based_archive]; an exception out of the
    adapter leaves the loop. *)
Fixpoint process_images (detect : path -> detection)
    (image_files : list path) (temp : gmap string panels_json)
    (json_files : list string)
  : gmap string panels_json * result (list string) :=
  match image_files with
  | [] => (temp, Return json_files)
  | image_file :: rest =>
      match process_image_with_magi (detect image_file)
                                    (path_name image_file) temp with
      | (temp, Raise e) => (temp, Raise e)
      | (temp, Return (success, json_file)) =>
          match success, json_file with
          | true, Some f =>
              if bool_decide (is_Some (temp !! f))
              then process_images detect rest temp (json_files ++ [f])
              else process_images detect rest temp json_files
          | _, _ => process_images detect rest temp json_files
          end
      end
  end.

(** The exception with which a detection leaves the adapter. *)
Definition escapes (d : detection) : option exn :=
  match d with
  | GetcwdRaises relative_path =>
      Some (if relative_path then RaisedFileNotFoundError
            else RaisedUnboundLocalError)
  | _ => None
  end.

(** The exception that stops the loop over the images, when there is
    one: that of the first image whose detection leaves the adapter. *)
Fixpoint first_escape (detect : path -> detection)
    (image_files : list path) : option exn :=
  match image_files with
  | [] => None
  | image_file :: rest =>
      match escapes (detect image_file) with
      | Some e => Some e
      | None => first_escape detect rest
      end
  end.

(** A detection that leaves a result file: return code 0 and a
    [panels.json] to move. *)
Definition succeeded (d : detection) : bool :=
  match d with
  | Exited returncode (Some _) => (returncode =? 0)%Z
  | _ => false
  end.

(** The result file of an image. *)
Definition json_name_of (image_file : path) : string :=
  (stem (path_name image_file) ++ "_panels.json")%string.

(** [folder_path / name], when it exists. *)
Definition find_entry (folder_path : node) (name : string) : option node :=
  List.find (fun c => String.eqb (node_name c) name) (iterdir folder_path).

(** The four places where the image of a page is looked for, per
    extension, in the order of the two nested loops. *)
Definition possible_image_names (json_file : string) : list string :=
  let base := remove_all "_panels" (stem json_file) in
  flat_map (fun ext => [(base ++ ext)%string; (base ++ upper ext)%string])
           [".jpg"; ".jpeg"; ".png"].

(** A candidate name is tried in the temporary directory, then in the
    folder.  The temporary directory holds the result files only, which
    [PIL] does not open as images; in the folder an image file gives
    its size. *)
Definition open_candidate (temp : gmap string panels_json)
    (folder_path : node) (name : string) : option (Z * Z) :=
  match temp !! name, find_entry folder_path name with
  | _, Some (File _ (Some size)) => Some size
  | _, _ => None
  end.

Definition candidate_exists (temp : gmap string panels_json)
    (folder_path : node) (name : string) : bool :=
  bool_decide (is_Some (temp !! name))
  || bool_decide (is_Some (find_entry folder_path name)).

(** The first candidate that opens as an image gives the size. *)
Definition actual_image_size (temp : gmap string panels_json)
    (folder_path : node) (json_file : string) : option (Z * Z) :=
  List.fold_right
    (fun name found =>
       match open_candidate temp folder_path name with
       | Some size => Some size
       | None => found
       end)
    None
    (possible_image_names json_file).

(** The first candidate that exists gives the image name; the default
    is the [.jpg] name. *)
Definition actual_image_name (temp : gmap string panels_json)
    (folder_path : node) (json_file : string) : string :=
  let base := remove_all "_panels" (stem json_file) in
  default (base ++ ".jpg")%string
    (List.find (candidate_exists temp folder_path)
               (possible_image_names json_file)).

(** The body of the loop over the JSON files: the [try] branch, and the
    [except] branch that stores the page with no panels. *)
Definition page_of_json (temp : gmap string panels_json)
    (folder_path : node) (page_num : nat) (json_file : string)
  : page_record :=
  let page_panels :=
    match temp !! json_file with
    | Some (PanelsDoc boxes) =>
        default []
          (Normalizer.page_panels
             (actual_image_size temp folder_path json_file) boxes)
    | Some NoPanelsKey => []
    | Some NotJson | None => []
    end in
  mk_page page_num (actual_image_name temp folder_path json_file)
          page_panels.

(** [enumerate(files, 1)]. *)
Fixpoint enumerate_from {A B} (f : nat -> A -> B) (n : nat) (l : list A)
  : list B :=
  match l with
  | [] => []
  | x :: l' => f n x :: enumerate_from f (S n) l'
  end.

(** The JSON files [combine_jsons_to_final_json] finds, sorted by
    name, and the pages it builds from them. *)
Definition existing_json_files (json_files : list string)
    (temp : gmap string panels_json) : list string :=
  PySort.sort id String.leb
    (List.filter (fun f => bool_decide (is_Some (temp !! f))) json_files).

Definition pages_data (json_files : list string)
    (temp : gmap string panels_json) (folder_path : node)
  : list page_record :=
  enumerate_from (page_of_json temp folder_path) 1
                 (existing_json_files json_files temp).

(** [combine_jsons_to_final_json]. *)
Definition combine_jsons_to_final_json (json_files : list string)
    (output_json : string) (temp : gmap string panels_json)
    (folder_path : node) (fault : write_fault)
    (fs : gmap string file_content) : gmap string file_content * bool :=
  if truthy (existing_json_files json_files temp) then
    let pages_data := pages_data json_files temp folder_path in
    if truthy pages_data then
      write_json fs output_json
        (ChapterJson (mk_chapter "rtl" (length pages_data) pages_data))
        fault
    else (fs, false)
  else (fs, false).

(** [process_with_magi].  The temporary directory is made in the
    output directory, or taken as it is; it stays behind on the early
    returns and when an exception goes through, and is removed after
    the aggregation. *)
Definition process_with_magi (detect : path -> detection)
    (faults : string -> write_fault)
    (cleanup : string -> rmtree_result panels_json)
    (folder_path : node) (out : output_dir panels_json)
  : output_dir panels_json * outcome :=
  let folder_name := node_name folder_path in
  let output_json := (folder_name ++ ".json")%string in
  let temp_json_dir := (folder_name ++ "_temp")%string in
  match mkdir_exist_ok temp_json_dir out with
  | Raise e => (out, Raise e)
  | Return out =>
      let image_files := image_files_rglob folder_path in
      if truthy image_files then
        let '(temp, json_files) :=
          process_images detect image_files
                         (folder_content out temp_json_dir) [] in
        let out := with_folder temp_json_dir temp out in
        match json_files with
        | Raise e => (out, Raise e)
        | Return json_files =>
            if truthy json_files then
              let '(fs, success) :=
                combine_jsons_to_final_json json_files output_json temp
                  folder_path (faults output_json) (out_files out) in
              (mk_output fs (rmtree (cleanup temp_json_dir) temp_json_dir
                                    (out_folders out)),
               Return success)
            else (out, Return false)
        end
      else (out, Return false)
  end.

(** The images whose detection left a result file, in the order of the
    enumeration, and the pages the aggregator builds for them. *)
Definition survivors (detect : path -> detection) (image_files : list path)
  : list path :=
  List.filter (fun image_file => succeeded (detect image_file)) image_files.

Definition pages_of_images (detect : path -> detection)
    (image_files : list path) (temp : gmap string panels_json)
    (folder_path : node) : list page_record :=
  match process_images detect image_files temp [] with
  | (temp, Return json_files) => pages_data json_files temp folder_path
  | (_, Raise _) => []
  end.

(** The document of a unit whose temporary directory held [temp] when
    the unit started. *)
Definition document_of (detect : path -> detection)
    (image_files : list path) (temp : gmap string panels_json)
    (folder_path : node) : json_doc :=
  ChapterJson
    (mk_chapter "rtl" (length (survivors detect image_files))
                (pages_of_images detect image_files temp folder_path)).

(** The chapter directories of [process_chapter_based_archive], sorted
    by name. *)
Definition chapter_dirs_of (folder_path : node) : list node :=
  PySort.sort node_name String.leb
    (List.filter (fun item => is_dir item && has_images item)
                 (iterdir (chapter_root folder_path))).

Definition chapter_json_name (folder_name : string) (chapter_dir : node)
  : string :=
  (folder_name ++ "_" ++ node_name chapter_dir ++ ".json")%string.

(** The detection of the images of one chapter. *)
Definition chapter_detect (detect : path -> detection) (chapter_dir : node)
  : path -> detection :=
  fun image_file => detect (node_name chapter_dir :: image_file).

(** The temporary directory of a chapter. *)
Definition chapter_temp_name (folder_name : string) (chapter_dir : node)
  : string :=
  (folder_name ++ "_" ++ node_name chapter_dir ++ "_temp")%string.

(** One turn of the loop over the chapters, on the output directory and
    the counter [successful_chapters]. *)
Definition process_chapter (detect : path -> detection)
    (faults : string -> write_fault)
    (cleanup : string -> rmtree_result panels_json) (folder_name : string)
    (out : output_dir panels_json) (successful_chapters : nat)
    (chapter_dir : node)
  : output_dir panels_json * result nat :=
  let chapter_json := chapter_json_name folder_name chapter_dir in
  let temp_json_dir := chapter_temp_name folder_name chapter_dir in
  match mkdir_exist_ok temp_json_dir out with
  | Raise e => (out, Raise e)
  | Return out =>
      let image_files := image_files_glob chapter_dir in
      if truthy image_files then
        let '(temp, json_files) :=
          process_images (chapter_detect detect chapter_dir) image_files
                         (folder_content out temp_json_dir) [] in
        let out := with_folder temp_json_dir temp out in
        match json_files with
        | Raise e => (out, Raise e)
        | Return json_files =>
            if truthy json_files then
              let '(fs, success) :=
                combine_jsons_to_final_json json_files chapter_json temp
                  chapter_dir (faults chapter_json) (out_files out) in
              (mk_output fs (rmtree (cleanup temp_json_dir) temp_json_dir
                                    (out_folders out)),
               Return (if success then S successful_chapters
                       else successful_chapters))
            else (out, Return successful_chapters)
        end
      else (out, Return successful_chapters)
  end.

(** The loop [for chapter_dir in chapter_dirs]; an exception leaves
    it. *)
Fixpoint process_chapters (detect : path -> detection)
    (faults : string -> write_fault)
    (cleanup : string -> rmtree_result panels_json) (folder_name : string)
    (chapter_dirs : list node) (out : output_dir panels_json)
    (successful_chapters : nat)
  : output_dir panels_json * result nat :=
  match chapter_dirs with
  | [] => (out, Return successful_chapters)
  | chapter_dir :: rest =>
      match process_chapter detect faults cleanup folder_name out
                            successful_chapters chapter_dir with
      | (out, Return successful_chapters) =>
          process_chapters detect faults cleanup folder_name rest out
                           successful_chapters
      | (out, Raise e) => (out, Raise e)
      end
  end.

(** Whether the loop writes the whole document of a chapter: some image
    survived and the writing went to its end. *)
Definition no_fault (fault : write_fault) : bool :=
  match fault with NoFault => true | _ => false end.

Definition chapter_written (detect : path -> detection)
    (faults : string -> write_fault) (folder_name : string)
    (chapter_dir : node) : bool :=
  truthy (survivors (chapter_detect detect chapter_dir)
                    (image_files_glob chapter_dir))
  && no_fault (faults (chapter_json_name folder_name chapter_dir)).

(** The chapters whose document the loop writes to its end. *)
Definition written_chapters (detect : path -> detection)
    (faults : string -> write_fault) (folder_name : string)
    (chapter_dirs : list node) : list node :=
  List.filter (chapter_written detect faults folder_name) chapter_dirs.

(** The loop that fills [master_index["chapters"]]: a chapter file that
    cannot be read is passed over with a warning. *)
Definition index_entries (folder_name : string) (chapter_dirs : list node)
    (fs : gmap string file_content) : list chapter_entry :=
  flat_map
    (fun chapter_dir =>
       let chapter_json := chapter_json_name folder_name chapter_dir in
       match fs !! chapter_json with
       | Some content =>
           match read_total_pages content with
           | Some n => [mk_entry (node_name chapter_dir) chapter_json n]
           | None => []
           end
       | None => []
       end)
    chapter_dirs.

(** The end of [process_chapter_based_archive]: the master index is
    built and written. *)
Definition write_master_index (folder_name : string)
    (chapter_dirs : list node) (successful_chapters : nat)
    (fault : write_fault) (fs : gmap string file_content)
  : gmap string file_content * bool :=
  write_json fs (folder_name ++ ".json")%string
    (IndexJson (mk_index folder_name successful_chapters
                  (index_entries folder_name chapter_dirs fs) "rtl"))
    fault.

(** [process_chapter_based_archive] of the MAGI pipeline. *)
Definition process_chapter_based_archive (detect : path -> detection)
    (faults : string -> write_fault)
    (cleanup : string -> rmtree_result panels_json)
    (folder_path : node) (out : output_dir panels_json)
  : output_dir panels_json * outcome :=
  let folder_name := node_name folder_path in
  let chapter_dirs := chapter_dirs_of folder_path in
  if truthy chapter_dirs then
    match process_chapters detect faults cleanup folder_name chapter_dirs
                           out 0%nat with
    | (out, Raise e) => (out, Raise e)
    | (out, Return successful_chapters) =>
        if (successful_chapters =? 0)%nat then (out, Return false)
        else
          let '(fs, success) :=
            write_master_index folder_name chapter_dirs successful_chapters
              (faults (folder_name ++ ".json")%string) (out_files out) in
          (mk_output fs (out_folders out), Return success)
    end
  else (out, Return false).
End Magi.

(* ===================================================================== *)
(** ** The Kumiko pipeline: aggregator *)
(* ===================================================================== *)

(** One entry of ["panels"] in the detector's JSON. *)
Inductive kumiko_panel :=
| PanelList (coords : list Z)
| PanelDict (x y w h : Q)
| PanelOther.

(** A page object of the detector's JSON, by the keys the code reads. *)
Record kumiko_page_data := mk_kumiko_page_data
  { key_filename : option string;
    key_image : option string;
    key_page : option Z;
    key_size : option (list Z);
    key_panels : option (list kumiko_panel) }.

(** The shapes of a per-image JSON file the aggregator tells apart. *)
Inductive kumiko_json :=
| PagesArray (items : list kumiko_page_data)
| PagesObject (items : list kumiko_page_data)
| SinglePage (item : kumiko_page_data)
| Unreadable.

Module Kumiko.
Import PyStr Tree Output Binary64.
Local Open Scope list_scope.

(** The guard ['panels' in page_data and page_data['panels']]. *)
Definition has_panels (page_data : kumiko_page_data) : bool :=
  match key_panels page_data with
  | Some l => truthy l
  | None => false
  end.

(** The image size [preprocess_page_data] works with: the ["size"]
    entry when it has two items.  No image file lies next to the JSON
    files of the temporary directory, so [image_path] is [None]. *)
Definition page_size (page_data : kumiko_page_data) : option (Z * Z) :=
  match key_size page_data with
  | Some (img_width :: img_height :: _) => Some (img_width, img_height)
  | _ => None
  end.

Definition usable_size (size : option (Z * Z)) : option (Z * Z) :=
  match size with
  | Some (img_width, img_height) =>
      if negb (img_width =? 0)%Z && negb (img_height =? 0)%Z
         && (0 <? img_width)%Z && (0 <? img_height)%Z
      then size else None
  | None => None
  end.

Definition above_one (v : Q) : bool := negb (Qle_bool v 1).

(** One panel of [preprocess_page_data]: [Some None] is a panel that is
    passed over, [None] an exception. *)
Definition convert_panel (size : option (Z * Z)) (p : kumiko_panel)
  : option (option (Q * Q * Q * Q)) :=
  match p with
  | PanelList (c0 :: c1 :: c2 :: c3 :: _) =>
      raw_x ← float_of_int c0; raw_y ← float_of_int c1;
      raw_w ← float_of_int c2; raw_h ← float_of_int c3;
      match usable_size size with
      | Some (img_width, img_height) =>
          norm_x ← float_div_int raw_x img_width;
          norm_y ← float_div_int raw_y img_height;
          norm_w ← float_div_int raw_w img_width;
          norm_h ← float_div_int raw_h img_height;
          Some (Some (norm_x, norm_y, norm_w, norm_h))
      | None =>
          if above_one raw_x || above_one raw_y
             || above_one raw_w || above_one raw_h
          then Some None
          else Some (Some (raw_x, raw_y, raw_w, raw_h))
      end
  | PanelList _ => Some None
  | PanelDict x y w h =>
      match usable_size size with
      | Some (img_width, img_height) =>
          if above_one x || above_one y || above_one w || above_one h
          then
            norm_x ← float_div_int x img_width;
            norm_y ← float_div_int y img_height;
            norm_w ← float_div_int w img_width;
            norm_h ← float_div_int h img_height;
            Some (Some (norm_x, norm_y, norm_w, norm_h))
          else Some (Some (x, y, w, h))
      | None => Some (Some (x, y, w, h))
      end
  | PanelOther => Some None
  end.

Fixpoint convert_panels (size : option (Z * Z)) (l : list kumiko_panel)
  : option (list (Q * Q * Q * Q)) :=
  match l with
  | [] => Some []
  | p :: rest =>
      c ← convert_panel size p;
      cs ← convert_panels size rest;
      Some (match c with Some q => q :: cs | None => cs end)
  end.

(** [preprocess_page_data]; [None] is the [except] branch. *)
Definition preprocess_page_data (page_data : kumiko_page_data)
    (page_num : Z) : option kumiko_page :=
  let image :=
    match key_filename page_data with
    | Some f => Some f
    | None => key_image page_data
    end in
  let page := default page_num (key_page page_data) in
  converted_panels ←
    convert_panels (page_size page_data) (default [] (key_panels page_data));
  Some (mk_kumiko_page page image converted_panels).

(** The pages one JSON file adds to [pages_data]. *)
Definition pages_of_items (numbering : nat -> Z)
    (items : list kumiko_page_data) : list kumiko_page :=
  flat_map
    (fun '(i, page_data) =>
       if has_panels page_data then
         match preprocess_page_data page_data (numbering i) with
         | Some processed_data => [processed_data]
         | None => []
         end
       else [])
    (combine (seq 0 (length items)) items).

Definition pages_of_json (page_num : Z) (data : kumiko_json)
  : list kumiko_page :=
  match data with
  | PagesArray items => pages_of_items (fun _ => page_num) items
  | PagesObject items => pages_of_items (fun i => Z.of_nat i + 1)%Z items
  | SinglePage item => pages_of_items (fun _ => page_num) [item]
  | Unreadable => []
  end.

Fixpoint collect_pages (temp : gmap string kumiko_json) (page_num : Z)
    (json_files : list string) : list kumiko_page :=
  match json_files with
  | [] => []
  | json_file :: rest =>
      pages_of_json page_num (default Unreadable (temp !! json_file))
        ++ collect_pages temp (page_num + 1)%Z rest
  end.

Definition Zleb (a b : Z) : bool := (a <=? b)%Z.

(** [combine_jsons_to_json]. *)
Definition combine_jsons_to_json (json_files : list string)
    (output_json : string) (temp : gmap string kumiko_json)
    (fault : write_fault) (fs : gmap string file_content)
  : gmap string file_content * bool :=
  let pages_data :=
    collect_pages temp 1 (PySort.sort id String.leb json_files) in
  if truthy pages_data then
    let pages_data := PySort.sort kumiko_page_num Zleb pages_data in
    write_json fs output_json
      (KumikoChapterJson (length pages_data) pages_data) fault
  else (fs, false).

(** The index of [process_chapter_based_archive] in this pipeline: one
    [try] around the whole loop, so a chapter file that cannot be read
    leaves no index at all. *)
Fixpoint chapters_data (folder_name : string) (chapter_dirs : list node)
    (fs : gmap string file_content) : option (list chapter_entry) :=
  match chapter_dirs with
  | [] => Some []
  | chapter_dir :: rest =>
      let chapter_json := Magi.chapter_json_name folder_name chapter_dir in
      match fs !! chapter_json with
      | Some content =>
          n ← read_total_pages content;
          entries ← chapters_data folder_name rest fs;
          Some (mk_entry (node_name chapter_dir) chapter_json n :: entries)
      | None => chapters_data folder_name rest fs
      end
  end.

Definition write_master_index (folder_name : string)
    (chapter_dirs : list node) (successful_chapters : nat)
    (fault : write_fault) (fs : gmap string file_content)
  : gmap string file_content * bool :=
  match chapters_data folder_name chapter_dirs fs with
  | Some entries =>
      write_json fs (folder_name ++ ".json")%string
        (IndexJson (mk_index folder_name successful_chapters entries "rtl"))
        fault
  | None => (fs, false)
  end.
End Kumiko.

(* ===================================================================== *)
(** ** The entry point: archives, folders and the routing *)
(* ===================================================================== *)

Module Input.
Import PyStr Tree Extract.
Local Open Scope string_scope.
Local Open Scope list_scope.

(** [is_archive] of both pipelines. *)
Definition is_archive (name : string) : bool :=
  in_list (lower (suffix name))
    [".cbz"; ".zip"; ".rar"; ".7z"; ".tar"; ".tar.gz"; ".tgz"; ".tar.bz2";
     ".tbz2"; ".tar.xz"; ".txz"].

(** A name without a dot. *)
Fixpoint dotless (s : string) : bool :=
  match s with
  | "" => true
  | String c s' => negb (Ascii.eqb c ".") && dotless s'
  end.

Section process_input.
(** The two processors of a pipeline: [process_chapter_based_archive]
    and [process_with_magi] or [process_with_kumiko]. *)
Context {T : Type}
        (process_chapter_based_archive process_flat :
           node -> output_dir T -> output_dir T * outcome).

(** The routing both branches of [process_input] end with. *)
Definition route (folder : node) (out : output_dir T)
  : output_dir T * outcome :=
  if is_chapter_based_archive folder
  then process_chapter_based_archive folder out
  else process_flat folder out.

(** [process_input].  [input_path] is [None] when the path does not
    exist; [blocked] says that a file, not a directory, lies at
    [pages_dir / input_path.stem], which makes
    [extract_folder.mkdir(exist_ok=True)] raise; [extracted] is what
    that folder holds once the extraction has returned [True]. *)
Definition process_input (env : tools) (blocked : bool)
    (extracted : list node) (input_path : option node)
    (out : output_dir T) : output_dir T * outcome :=
  match input_path with
  | None => (out, Return false)
  | Some input =>
      if is_archive (node_name input) then
        if blocked then (out, Raise RaisedFileExistsError)
        else
          let extract_folder := Dir (stem (node_name input)) extracted in
          match ended (extract_archive env (node_name input)) with
          | Return true => route extract_folder out
          | Return false => (out, Return false)
          | Raise e => (out, Raise e)
          end
      else if is_dir input then route input out
      else (out, Return false)
  end.
End process_input.

(** The name of the unit [process_input] works on: the stem of an
    archive, the name of a folder. *)
Definition unit_name (input : node) : string :=
  if is_archive (node_name input) then stem (node_name input)
  else node_name input.
End Input.

(** [process_input] of the MAGI pipeline. *)
Definition magi_process_input (env : Extract.tools) (blocked : bool)
    (extracted : list node) (detect : path -> detection)
    (faults : string -> write_fault)
    (cleanup : string -> rmtree_result panels_json)
  : option node -> output_dir panels_json
    -> output_dir panels_json * outcome :=
  Input.process_input
    (Magi.process_chapter_based_archive detect faults cleanup)
    (Magi.process_with_magi detect faults cleanup)
    env blocked extracted.


(** A Kumiko panel [[x, y, w, h]] in pixels that lies on a page of
    [img_width] by [img_height] pixels, and a stored panel whose four
    coordinates are in [[0,1]]. *)
Definition box_on_page (img_width img_height : Z) (p : kumiko_panel)
  : Prop :=
  exists x y w h,
    p = PanelList [x; y; w; h] /\
    (0 <= x <= img_width)%Z /\ (0 <= y <= img_height)%Z /\
    (0 <= w <= img_width)%Z /\ (0 <= h <= img_height)%Z.

Definition in_unit_square (q : Q * Q * Q * Q) : Prop :=
  let '(x, y, w, h) := q in
  (0 <= x <= 1)%Q /\ (0 <= y <= 1)%Q /\ (0 <= w <= 1)%Q /\ (0 <= h <= 1)%Q.

(** A result file that holds an array with one page object, the object
    having no ["page"] key and panels that convert without an
    exception. *)
Definition single_page_file (temp : gmap string kumiko_json)
    (json_file : string) (item : kumiko_page_data) : Prop :=
  temp !! json_file = Some (PagesArray [item]) /\
  key_page item = None /\
  is_Some (Kumiko.convert_panels (Kumiko.page_size item)
                                 (default [] (key_panels item))).

(* ===================================================================== *)
(** ** Validation of an output file *)
(* ===================================================================== *)

Module Validate.
Local Open Scope string_scope.
Local Open Scope list_scope.

(** What [json.load] gives [validate_json_file]: nothing (the file is
    missing or is not valid JSON, an exception), a dictionary with its
    keys, or another JSON value. *)
Inductive loaded :=
| LoadRaises
| LoadedDict (keys : list string)
| LoadedOther.

(** [field in data]. *)
Definition has_key (keys : list string) (field : string) : bool :=
  existsb (String.eqb field) keys.

(** [validate_json_file]. *)
Definition validate_json_file (data : loaded) : bool :=
  match data with
  | LoadRaises => false
  | LoadedOther => false
  | LoadedDict keys =>
      if has_key keys "archive_name" && has_key keys "chapters" then
        forallb (has_key keys)
                ["archive_name"; "total_chapters"; "chapters";
                 "reading_direction"]
      else
        forallb (has_key keys) ["reading_direction"; "total_pages"; "pages"]
  end.

(** The keys of the dictionaries the writers dump: [json_data] and
    [output_data] of the aggregators, [master_index] and [master_data]
    of the chapter processors. *)
Definition keys_of (d : json_doc) : list string :=
  match d with
  | ChapterJson _ | KumikoChapterJson _ _ =>
      ["reading_direction"; "total_pages"; "pages"]
  | IndexJson _ =>
      ["archive_name"; "total_chapters"; "chapters"; "reading_direction"]
  end.

(** [json.load] of a file of the output directory. *)
Definition load (c : option file_content) : loaded :=
  match c with
  | Some (Whole d) => LoadedDict (keys_of d)
  | Some (Truncated _ _) | None => LoadRaises
  end.
End Validate.

(* ===================================================================== *)
(** ** The Kumiko pipeline: detection adapter and processors *)
(* ===================================================================== *)

(** How one run of the detector ends, and what it left at the path
    given with [-o]: with a return code, by the timeout, or by another
    exception inside the [try].  When [os.getcwd()] raises, the [try]
    catches it and the [finally] clause, which reads [original_cwd],
    raises [UnboundLocalError]: nothing was run. *)
Inductive kumiko_run :=
| KExited (returncode : Z) (output : option kumiko_json)
| KTimeoutExpired (output : option kumiko_json)
| KOtherException (output : option kumiko_json)
| KGetcwdRaises.

Module KumikoRun.
Import PyStr Tree Output.
Local Open Scope list_scope.
Local Open Scope string_scope.

(** What a run leaves in the temporary directory. *)
Definition left_by (output : option kumiko_json) (output_file : string)
    (temp : gmap string kumiko_json) : gmap string kumiko_json :=
  match output with
  | Some content => <[output_file := content]> temp
  | None => temp
  end.

(** [try_kumiko_with_flags]: the temporary directory after the run, and
    the returned pair or the exception. *)
Definition try_kumiko_with_flags (r : kumiko_run) (output_file : string)
    (temp : gmap string kumiko_json)
  : gmap string kumiko_json * result (bool * option string) :=
  match r with
  | KExited returncode output =>
      let temp := left_by output output_file temp in
      if (returncode =? 0)%Z then
        if bool_decide (is_Some (temp !! output_file))
        then (temp, Return (true, Some output_file))
        else (temp, Return (false, None))
      else (temp, Return (false, None))
  | KTimeoutExpired output =>
      (left_by output output_file temp, Return (false, None))
  | KOtherException output =>
      (left_by output output_file temp, Return (false, None))
  | KGetcwdRaises => (temp, Raise RaisedUnboundLocalError)
  end.

(** The second run of [process_image_with_kumiko], without a flag. *)
Definition fallback_without_flags (without_flags : kumiko_run)
    (output_json : string) (temp : gmap string kumiko_json)
  : gmap string kumiko_json * result (bool * option string) :=
  match try_kumiko_with_flags without_flags output_json temp with
  | (temp, Raise e) => (temp, Raise e)
  | (temp, Return (success, file)) =>
      (temp, Return (success, if success then file else None))
  end.

(** [process_image_with_kumiko]: the run with [--rtl], then, when it
    gave nothing, the run without a flag. *)
Definition process_image_with_kumiko (with_rtl without_flags : kumiko_run)
    (image_name : string) (temp : gmap string kumiko_json)
  : gmap string kumiko_json * result (bool * option string) :=
  let output_json := stem image_name ++ ".json" in
  match try_kumiko_with_flags with_rtl output_json temp with
  | (temp, Raise e) => (temp, Raise e)
  | (temp, Return (success, json_file)) =>
      match success, json_file with
      | true, Some f =>
          if bool_decide (is_Some (temp !! f))
          then (temp, Return (true, Some f))
          else fallback_without_flags without_flags output_json temp
      | _, _ => fallback_without_flags without_flags output_json temp
      end
  end.

(** The loop [for image_file in image_files] of [process_with_kumiko]
    and [process_chapter_based_archive]; [detect image_file rtl] is the
    run on an image with or without [--rtl]. *)
Fixpoint process_images (detect : path -> bool -> kumiko_run)
    (image_files : list path) (temp : gmap string kumiko_json)
    (json_files : list string)
  : gmap string kumiko_json * result (list string) :=
  match image_files with
  | [] => (temp, Return json_files)
  | image_file :: rest =>
      match process_image_with_kumiko (detect image_file true)
                                      (detect image_file false)
                                      (path_name image_file) temp with
      | (temp, Raise e) => (temp, Raise e)
      | (temp, Return (success, json_file)) =>
          match success, json_file with
          | true, Some f =>
              if bool_decide (is_Some (temp !! f))
              then process_images detect rest temp (json_files ++ [f])%list
              else process_images detect rest temp json_files
          | _, _ => process_images detect rest temp json_files
          end
      end
  end.

(** [process_with_kumiko].  The temporary directory is made in the
    output directory, or taken as it is; it stays behind on the early
    returns and when an exception goes through, and is removed after
    the aggregation. *)
Definition process_with_kumiko (detect : path -> bool -> kumiko_run)
    (faults : string -> write_fault)
    (cleanup : string -> rmtree_result kumiko_json)
    (folder_path : node) (out : output_dir kumiko_json)
  : output_dir kumiko_json * outcome :=
  let folder_name := node_name folder_path in
  let output_json := folder_name ++ ".json" in
  let temp_json_dir := folder_name ++ "_temp" in
  match mkdir_exist_ok temp_json_dir out with
  | Raise e => (out, Raise e)
  | Return out =>
      let image_files := image_files_rglob folder_path in
      if truthy image_files then
        let '(temp, json_files) :=
          process_images detect image_files
                         (folder_content out temp_json_dir) [] in
        let out := with_folder temp_json_dir temp out in
        match json_files with
        | Raise e => (out, Raise e)
        | Return json_files =>
            if truthy json_files then
              let '(fs, success) :=
                Kumiko.combine_jsons_to_json json_files output_json temp
                  (faults output_json) (out_files out) in
              (mk_output fs (rmtree (cleanup temp_json_dir) temp_json_dir
                                    (out_folders out)),
               Return success)
            else (out, Return false)
        end
      else (out, Return false)
  end.

(** One turn of the loop over the chapters. *)
Definition process_chapter (detect : path -> bool -> kumiko_run)
    (faults : string -> write_fault)
    (cleanup : string -> rmtree_result kumiko_json) (folder_name : string)
    (out : output_dir kumiko_json) (successful_chapters : nat)
    (chapter_dir : node)
  : output_dir kumiko_json * result nat :=
  let chapter_json := Magi.chapter_json_name folder_name chapter_dir in
  let temp_json_dir := Magi.chapter_temp_name folder_name chapter_dir in
  match mkdir_exist_ok temp_json_dir out with
  | Raise e => (out, Raise e)
  | Return out =>
      let image_files := image_files_glob chapter_dir in
      if truthy image_files then
        let '(temp, json_files) :=
          process_images
            (fun image_file => detect (node_name chapter_dir :: image_file))
            image_files (folder_content out temp_json_dir) [] in
        let out := with_folder temp_json_dir temp out in
        match json_files with
        | Raise e => (out, Raise e)
        | Return json_files =>
            if truthy json_files then
              let '(fs, success) :=
                Kumiko.combine_jsons_to_json json_files chapter_json temp
                  (faults chapter_json) (out_files out) in
              (mk_output fs (rmtree (cleanup temp_json_dir) temp_json_dir
                                    (out_folders out)),
               Return (if success then S successful_chapters
                       else successful_chapters))
            else (out, Return successful_chapters)
        end
      else (out, Return successful_chapters)
  end.

(** The loop [for chapter_dir in chapter_dirs]; an exception leaves
    it. *)
Fixpoint process_chapters (detect : path -> bool -> kumiko_run)
    (faults : string -> write_fault)
    (cleanup : string -> rmtree_result kumiko_json) (folder_name : string)
    (chapter_dirs : list node) (out : output_dir kumiko_json)
    (successful_chapters : nat)
  : output_dir kumiko_json * result nat :=
  match chapter_dirs with
  | [] => (out, Return successful_chapters)
  | chapter_dir :: rest =>
      match process_chapter detect faults cleanup folder_name out
                            successful_chapters chapter_dir with
      | (out, Return successful_chapters) =>
          process_chapters detect faults cleanup folder_name rest out
                           successful_chapters
      | (out, Raise e) => (out, Raise e)
      end
  end.

(** [process_chapter_based_archive] of the Kumiko pipeline. *)
Definition process_chapter_based_archive
    (detect : path -> bool -> kumiko_run) (faults : string -> write_fault)
    (cleanup : string -> rmtree_result kumiko_json)
    (folder_path : node) (out : output_dir kumiko_json)
  : output_dir kumiko_json * outcome :=
  let folder_name := node_name folder_path in
  let chapter_dirs := Magi.chapter_dirs_of folder_path in
  if truthy chapter_dirs then
    match process_chapters detect faults cleanup folder_name chapter_dirs
                           out 0%nat with
    | (out, Raise e) => (out, Raise e)
    | (out, Return successful_chapters) =>
        if (successful_chapters =? 0)%nat then (out, Return false)
        else
          let '(fs, success) :=
            Kumiko.write_master_index folder_name chapter_dirs
              successful_chapters (faults (folder_name ++ ".json"))
              (out_files out) in
          (mk_output fs (out_folders out), Return success)
    end
  else (out, Return false).
End KumikoRun.

(** [process_input] of the Kumiko pipeline. *)
Definition kumiko_process_input (env : Extract.tools) (blocked : bool)
    (extracted : list node) (detect : path -> bool -> kumiko_run)
    (faults : string -> write_fault)
    (cleanup : string -> rmtree_result kumiko_json)
  : option node -> output_dir kumiko_json
    -> output_dir kumiko_json * outcome :=
  Input.process_input
    (KumikoRun.process_chapter_based_archive detect faults cleanup)
    (KumikoRun.process_with_kumiko detect faults cleanup)
    env blocked extracted.


(* ===================================================================== *)
(** * Properties *)
(* ===================================================================== *)

(** ** Rounding *)

Section rounding_facts.
Import Binary64.
Local Open Scope Z_scope.


Lemma rnd_half_even_error num den :
  0 < den -> - den <= 2 * (den * rnd_half_even num den - num) <= den.
Proof.
  intros Hden. unfold rnd_half_even.
  pose proof (Z.div_mod num den ltac:(lia)) as Hdm.
  pose proof (Z.mod_pos_bound num den Hden) as Hr.
  destruct (Z.compare_spec (2 * (num mod den)) den) as [He|Hl|Hg];
    [destruct (Z.even (num / den))|..]; nia.
Qed.

Lemma rnd_half_even_between num den lo hi :
  0 < den -> lo * den <= num <= hi * den ->
  lo <= rnd_half_even num den <= hi.
Proof.
  intros Hden [Hlo Hhi]. unfold rnd_half_even.
  pose proof (Z.div_mod num den ltac:(lia)) as Hdm.
  pose proof (Z.mod_pos_bound num den Hden) as Hr.
  assert (lo <= num / den) by (apply Z.div_le_lower_bound; lia).
  assert (num / den <= hi) by (apply Z.div_le_upper_bound; lia).
  destruct (Z.compare_spec (2 * (num mod den)) den) as [He|Hl|Hg];
    [destruct (Z.even (num / den))|..]; nia.
Qed.

Lemma ilog2_ratio_le_0 n d : 0 < n <= d -> ilog2_ratio n d <= 0.
Proof.
  intros [Hn Hd]. unfold ilog2_ratio.
  pose proof (Z.log2_le_mono n d Hd).
  destruct (if 0 <=? _ then _ else _); lia.
Qed.

Lemma ulp_exp_unit n d : 0 < n <= d -> -1074 <= ulp_exp n d <= -52.
Proof.
  intros H. unfold ulp_exp. rewrite Z.abs_eq by lia.
  pose proof (ilog2_ratio_le_0 n d H). lia.
Qed.

(** On [[0,1]] the rounding stays in [[0,1]] and moves a value by at
    most [2^-53]. *)
Lemma RN_unit_interval x :
  (0 <= x <= 1)%Q ->
  (0 <= RN x <= 1)%Q /\ (RN x <= x + (1 # 2 ^ 53))%Q.
Proof.
  destruct x as [n d]. unfold Qle; simpl. intros [H0 H1].
  assert (Hnd : 0 <= n <= Z.pos d) by lia. clear H0 H1.
  unfold RN; simpl.
  destruct (Z.eqb_spec n 0) as [->|Hn].
  { unfold Qle, Qplus; simpl. lia. }
  pose proof (ulp_exp_unit n (Zpos d) ltac:(lia)) as He.
  destruct (Z.leb_spec 0 (ulp_exp n (Z.pos d))) as [?|_]; [lia|].
  set (e := ulp_exp n (Z.pos d)) in *.
  assert (Hp : 0 < 2 ^ (- e)) by (apply Z.pow_pos_nonneg; lia).
  assert (Hp52 : 2 ^ 52 * 2 ^ (- e - 52) = 2 ^ (- e)).
  { rewrite <- Z.pow_add_r by lia. f_equal. lia. }
  assert (Hp' : 0 < 2 ^ (- e - 52)) by (apply Z.pow_pos_nonneg; lia).
  pose proof (rnd_half_even_error (n * 2 ^ (- e)) (Zpos d) ltac:(lia)) as Herr.
  assert (Hbt : 0 <= rnd_half_even (n * 2 ^ (- e)) (Zpos d) <= 2 ^ (- e)).
  { apply rnd_half_even_between; [lia|]. split; [nia|].
    rewrite (Z.mul_comm (2 ^ (- e))). apply Z.mul_le_mono_nonneg_r; lia. }
  set (m := rnd_half_even (n * 2 ^ (- e)) (Zpos d)) in *.
  unfold Qle, Qplus; simpl. rewrite !Z2Pos.id by lia.
  rewrite Pos2Z.inj_mul.
  repeat split; try nia.
Qed.

Lemma py_round3_unit x : (0 <= x <= 1)%Q -> 0 <= py_round3 x <= 1000.
Proof.
  destruct x as [n d]. unfold Qle; simpl. intros [H0 H1].
  unfold py_round3; simpl. apply rnd_half_even_between; lia.
Qed.

Lemma py_round3_upper x :
  (inject_Z (py_round3 x) <= 1000 * x + (1 # 2))%Q.
Proof.
  destruct x as [n d]. unfold py_round3; simpl.
  pose proof (rnd_half_even_error (1000 * n) (Z.pos d) ltac:(lia)) as H.
  unfold Qle, Qplus, Qmult, inject_Z; simpl. lia.
Qed.

Lemma py_round3_lower x :
  (1000 * x - (1 # 2) <= inject_Z (py_round3 x))%Q.
Proof.
  destruct x as [n d]. unfold py_round3; simpl.
  pose proof (rnd_half_even_error (1000 * n) (Z.pos d) ltac:(lia)) as H.
  unfold Qle, Qminus, Qplus, Qopp, Qmult, inject_Z; simpl. lia.
Qed.

Lemma ratio_unit a b : 0 <= a <= b -> 0 < b -> (0 <= ratio a b <= 1)%Q.
Proof.
  intros Ha Hb. unfold ratio, Qle; simpl.
  rewrite Z.sgn_pos, Z.abs_eq, Z2Pos.id by lia. lia.
Qed.

Lemma ratio_add a1 a2 b :
  0 < b -> (ratio a1 b + ratio a2 b == ratio (a1 + a2) b)%Q.
Proof.
  intros Hb. unfold ratio, Qeq, Qplus; simpl.
  rewrite Z.sgn_pos by lia. rewrite Pos2Z.inj_mul. lia.
Qed.

Lemma finite_unit x : (0 <= x <= 1)%Q -> finite x = Some x.
Proof.
  intros [H0 H1]. unfold finite, overflows.
  destruct (Qle_bool _ _) eqn:E; [|reflexivity].
  apply Qle_bool_iff in E. rewrite Qabs_pos in E by assumption.
  assert (1 < inject_Z (2 ^ 1024))%Q by reflexivity. lra.
Qed.

Lemma py_truediv_unit a b :
  0 <= a <= b -> 0 < b ->
  exists q, py_truediv a b = Some q /\ (0 <= q <= 1)%Q /\
            (q <= ratio a b + (1 # 2 ^ 53))%Q.
Proof.
  intros Ha Hb. unfold py_truediv.
  destruct (Z.eqb_spec b 0); [lia|].
  destruct (RN_unit_interval (ratio a b) (ratio_unit a b Ha Hb)) as [Hu He].
  exists (RN (ratio a b)). rewrite finite_unit by assumption. auto.
Qed.

(** Two rounded fractions of one length whose exact values add up to
    at most the whole length add up to at most 1.001 once stored. *)
Lemma round3_pair_sum q1 q2 r1 r2 :
  (q1 <= r1 + (1 # 2 ^ 53))%Q -> (q2 <= r2 + (1 # 2 ^ 53))%Q ->
  (r1 + r2 <= 1)%Q ->
  py_round3 q1 + py_round3 q2 <= 1001.
Proof.
  intros H1 H2 Hr.
  pose proof (py_round3_upper q1) as U1.
  pose proof (py_round3_upper q2) as U2.
  assert (Hlt : (inject_Z (py_round3 q1 + py_round3 q2) < inject_Z 1002)%Q).
  { rewrite inject_Z_plus.
    assert ((1 # 2 ^ 53) <= 1 # 4000)%Q by (unfold Qle; simpl; lia).
    assert (inject_Z 1002 == 1002)%Q as -> by reflexivity. lra. }
  rewrite <- Zlt_Qlt in Hlt. lia.
Qed.
(** [ilog2_ratio n d] is the integer part of the binary logarithm of
    [n/d]. *)
Lemma ilog2_ratio_spec n d :
  0 < n -> 0 < d ->
  let k := ilog2_ratio n d in
  (if 0 <=? k then d * 2 ^ k <= n else d <= n * 2 ^ (- k)) /\
  (if 0 <=? k + 1 then n < d * 2 ^ (k + 1) else n * 2 ^ (- (k + 1)) < d).
Proof.
  intros Hn Hd. unfold ilog2_ratio.
  destruct (Z.log2_spec n Hn) as [Ha1 Ha2].
  destruct (Z.log2_spec d Hd) as [Hb1 Hb2].
  pose proof (Z.log2_nonneg n) as Ha0. pose proof (Z.log2_nonneg d) as Hb0.
  set (a := Z.log2 n) in *. set (b := Z.log2 d) in *.
  rewrite <- Z.add_1_r in Ha2, Hb2.
  assert (Hpow : forall u v, 0 <= u -> 0 <= v -> 2 ^ (u + v) = 2 ^ u * 2 ^ v)
    by (intros; apply Z.pow_add_r; lia).
  assert (Hpos : forall u, 0 <= u -> 0 < 2 ^ u)
    by (intros; apply Z.pow_pos_nonneg; lia).
  destruct (Z.leb_spec 0 (a - b)) as [Hk|Hk].
  - (* a >= b *)
    assert (Ea : 2 ^ a = 2 ^ b * 2 ^ (a - b))
      by (rewrite <- Hpow by lia; f_equal; lia).
    assert (Ea1 : 2 ^ (a - b + 1) = 2 * 2 ^ (a - b))
      by (rewrite Hpow by lia; lia).
    pose proof (Hpos (a - b) Hk). pose proof (Hpos b Hb0).
    rewrite Hpow in Ha2, Hb2 by lia. change (2 ^ 1) with 2 in *.
    destruct (Z.leb_spec (d * 2 ^ (a - b)) n) as [Ht|Ht].
    + rewrite (proj2 (Z.leb_le 0 (a - b))) by lia.
      rewrite (proj2 (Z.leb_le 0 (a - b + 1))) by lia.
      split; [lia|]. rewrite Ea1. nia.
    + destruct (Z.leb_spec 0 (a - b - 1)) as [Hk1|Hk1].
      * rewrite (proj2 (Z.leb_le 0 (a - b - 1 + 1))) by lia.
        replace (a - b - 1 + 1) with (a - b) by lia. split; [|lia].
        assert (E1 : 2 ^ (a - b) = 2 * 2 ^ (a - b - 1)).
        { replace (a - b) with (a - b - 1 + 1) at 1 by lia.
          rewrite Hpow by lia. lia. }
        pose proof (Hpos (a - b - 1) Hk1). nia.
      * assert (a - b = 0) as E0 by lia. rewrite E0 in *. simpl in *.
        change (2 ^ 0) with 1 in *. lia.
  - (* a < b *)
    assert (Eb : 2 ^ b = 2 ^ a * 2 ^ (- (a - b)))
      by (rewrite <- Hpow by lia; f_equal; lia).
    pose proof (Hpos (- (a - b)) ltac:(lia)). pose proof (Hpos a Ha0).
    rewrite Hpow in Ha2, Hb2 by lia. change (2 ^ 1) with 2 in *.
    destruct (Z.leb_spec d (n * 2 ^ (- (a - b)))) as [Ht|Ht].
    + rewrite (proj2 (Z.leb_gt 0 (a - b))) by lia.
      split; [lia|].
      destruct (Z.leb_spec 0 (a - b + 1)) as [Hk1|Hk1].
      * assert (a - b + 1 = 0) as E0 by lia. rewrite E0. simpl.
        assert (- (a - b) = 1) as E1 by lia. rewrite E1 in *.
        change (2 ^ 1) with 2 in *. nia.
      * assert (E1 : 2 ^ (- (a - b)) = 2 * 2 ^ (- (a - b + 1))).
        { replace (- (a - b)) with (- (a - b + 1) + 1) at 1 by lia.
          rewrite Hpow by lia. lia. }
        pose proof (Hpos (- (a - b + 1)) ltac:(lia)). nia.
    + rewrite (proj2 (Z.leb_gt 0 (a - b - 1))) by lia.
      rewrite (proj2 (Z.leb_gt 0 (a - b - 1 + 1))) by lia.
      replace (a - b - 1 + 1) with (a - b) by lia. split; [|lia].
      assert (E1 : 2 ^ (- (a - b - 1)) = 2 * 2 ^ (- (a - b))).
      { replace (- (a - b - 1)) with (- (a - b) + 1) by lia.
        rewrite Hpow by lia. lia. }
      nia.
Qed.

Lemma ilog2_ratio_normal n d :
  0 < n -> 0 < d -> d <= n * 2 ^ 1022 -> -1022 <= ilog2_ratio n d.
Proof.
  intros Hn Hd Hx.
  destruct (ilog2_ratio_spec n d Hn Hd) as [_ Hup]. cbv zeta in Hup.
  destruct (Z_lt_le_dec (ilog2_ratio n d) (-1022)) as [Hlt|]; [|assumption].
  exfalso. set (k := ilog2_ratio n d) in *.
  rewrite (proj2 (Z.leb_gt 0 (k + 1))) in Hup by lia.
  assert (2 ^ 1022 <= 2 ^ (- (k + 1))) by (apply Z.pow_le_mono_r; lia).
  nia.
Qed.

(** The mantissa of a normal double has 53 bits: rounding moves a
    value by at most [2^-53] of itself. *)
Lemma RN_mantissa_error n d :
  0 < n -> 0 < d -> d <= n * 2 ^ 1022 ->
  let e := ulp_exp n d in
  if 0 <=? e
  then - n <= 2 ^ 53 * (d * (rnd_half_even n (d * 2 ^ e) * 2 ^ e) - n) <= n
  else - (n * 2 ^ (- e))
       <= 2 ^ 53 * (d * rnd_half_even (n * 2 ^ (- e)) d - n * 2 ^ (- e))
       <= n * 2 ^ (- e).
Proof.
  intros Hn Hd Hx. cbv zeta. unfold ulp_exp. rewrite Z.abs_eq by lia.
  pose proof (ilog2_ratio_normal n d Hn Hd Hx) as Hk.
  destruct (ilog2_ratio_spec n d Hn Hd) as [Hlow _]. cbv zeta in Hlow.
  set (k := ilog2_ratio n d) in *.
  rewrite Z.max_l by lia.
  assert (Hpow : forall u v, 0 <= u -> 0 <= v -> 2 ^ (u + v) = 2 ^ u * 2 ^ v)
    by (intros; apply Z.pow_add_r; lia).
  assert (Hpos : forall u, 0 <= u -> 0 < 2 ^ u)
    by (intros; apply Z.pow_pos_nonneg; lia).
  assert (E53 : 2 ^ 53 = 2 * 2 ^ 52) by reflexivity.
  rewrite E53. set (P := 2 ^ 52) in *.
  assert (HP : 0 < P) by reflexivity.
  destruct (Z.leb_spec 0 (k - 52)) as [He|He].
  - rewrite (proj2 (Z.leb_le 0 k)) in Hlow by lia.
    assert (Ek : 2 ^ k = 2 ^ (k - 52) * P).
    { unfold P. rewrite <- Hpow by lia. f_equal. lia. }
    pose proof (Hpos (k - 52) He) as Hq.
    set (Q := 2 ^ (k - 52)) in *.
    pose proof (rnd_half_even_error n (d * Q) ltac:(nia)) as Herr.
    set (m := rnd_half_even n (d * Q)) in *.
    rewrite Ek in Hlow. nia.
  - pose proof (Hpos (- (k - 52)) ltac:(lia)) as Hq.
    pose proof (rnd_half_even_error (n * 2 ^ (- (k - 52))) d Hd) as Herr.
    set (m := rnd_half_even (n * 2 ^ (- (k - 52))) d) in *.
    assert (Hkey : d * P <= n * 2 ^ (- (k - 52))).
    { destruct (Z.leb_spec 0 k) as [Hk0|Hk0].
      - assert (E : P = 2 ^ k * 2 ^ (- (k - 52))).
        { unfold P. rewrite <- Hpow by lia. f_equal. lia. }
        pose proof (Hpos k Hk0). rewrite E. nia.
      - assert (E : 2 ^ (- (k - 52)) = 2 ^ (- k) * P).
        { unfold P. rewrite <- Hpow by lia. f_equal. lia. }
        rewrite E. nia. }
    set (Q := 2 ^ (- (k - 52))) in *. nia.
Qed.

Lemma RN_relative_error x :
  ((1 # 2 ^ 1022) <= x)%Q ->
  (x * (1 - (1 # 2 ^ 53)) <= RN x <= x * (1 + (1 # 2 ^ 53)))%Q.
Proof.
  destruct x as [n d]. unfold Qle at 1. simpl Qnum. simpl Qden.
  rewrite Pos2Z.inj_pow. intros Hx.
  assert (Hn : 0 < n).
  { assert (0 < 2 ^ 1022) by (apply Z.pow_pos_nonneg; lia). nia. }
  assert (Hx' : Z.pos d <= n * 2 ^ 1022) by lia. clear Hx.
  rename Hx' into Hx.
  pose proof (RN_mantissa_error n (Zpos d) Hn ltac:(lia) Hx) as H.
  cbv zeta in H. unfold RN. simpl Qnum. simpl Qden.
  destruct (Z.eqb_spec n 0); [lia|].
  destruct (Z.leb_spec 0 (ulp_exp n (Z.pos d))) as [He|He].
  - set (v := rnd_half_even n (Z.pos d * 2 ^ ulp_exp n (Z.pos d))
              * 2 ^ ulp_exp n (Z.pos d)) in *.
    change (2 ^ 53) with 9007199254740992 in H.
    unfold Qle, Qmult, Qminus, Qplus, Qopp, inject_Z. simpl. lia.
  - assert (Hq : 0 < 2 ^ (- ulp_exp n (Z.pos d)))
      by (apply Z.pow_pos_nonneg; lia).
    set (Q := 2 ^ (- ulp_exp n (Z.pos d))) in *.
    set (m := rnd_half_even (n * Q) (Z.pos d)) in *.
    change (2 ^ 53) with 9007199254740992 in H.
    unfold Qle, Qmult, Qminus, Qplus, Qopp. simpl.
    rewrite !Z2Pos.id by lia. nia.
Qed.

Lemma rnd_half_even_unit_den n : rnd_half_even n 1 = n.
Proof. pose proof (rnd_half_even_error n 1 ltac:(lia)). lia. Qed.

(** An int below [2^53] converts to a double without rounding. *)
Lemma RN_small_int a : 0 < a < 2 ^ 53 -> (RN (inject_Z a) == inject_Z a)%Q.
Proof.
  intros Ha. unfold RN, inject_Z. simpl Qnum. simpl Qden.
  destruct (Z.eqb_spec a 0); [lia|].
  assert (He : ulp_exp a 1 <= 0).
  { unfold ulp_exp. rewrite Z.abs_eq by lia.
    destruct (ilog2_ratio_spec a 1 ltac:(lia) ltac:(lia)) as [Hlow _].
    cbv zeta in Hlow. set (k := ilog2_ratio a 1) in *.
    destruct (Z.leb_spec 0 k); [|lia].
    assert (k < 53); [|lia].
    apply (Z.pow_lt_mono_r_iff 2); lia. }
  destruct (Z.leb_spec 0 (ulp_exp a 1)) as [H0|H0].
  - assert (ulp_exp a 1 = 0) as -> by lia. simpl.
    rewrite rnd_half_even_unit_den. unfold Qeq; simpl. lia.
  - rewrite rnd_half_even_unit_den.
    assert (0 < 2 ^ (- ulp_exp a 1)) by (apply Z.pow_pos_nonneg; lia).
    unfold Qeq; simpl. rewrite Z2Pos.id by lia. lia.
Qed.

Lemma finite_bounded x :
  (0 <= x <= inject_Z (2 ^ 53))%Q -> finite x = Some x.
Proof.
  intros [H0 H1]. unfold finite, overflows.
  destruct (Qle_bool _ _) eqn:E; [|reflexivity].
  apply Qle_bool_iff in E. rewrite Qabs_pos in E by assumption.
  assert (inject_Z (2 ^ 53) < inject_Z (2 ^ 1024))%Q by reflexivity. lra.
Qed.

Lemma float_of_int_exact a :
  0 < a < 2 ^ 53 ->
  exists fa, float_of_int a = Some fa /\ (fa == inject_Z a)%Q.
Proof.
  intros Ha. exists (RN (inject_Z a)).
  pose proof (RN_small_int a Ha) as E. split; [|exact E].
  unfold float_of_int. apply finite_bounded. rewrite E.
  change 0%Q with (inject_Z 0). rewrite <- !Zle_Qle. lia.
Qed.

Lemma py_int_between r lo hi :
  (0 <= r)%Q -> (inject_Z lo <= r)%Q -> (r < inject_Z (hi + 1))%Q ->
  lo <= py_int r <= hi.
Proof.
  destruct r as [n d]. unfold Qle, Qlt, py_int, inject_Z. simpl.
  intros H0 Hlo Hhi.
  rewrite Z.quot_div_nonneg by lia.
  split.
  - apply Z.div_le_lower_bound; lia.
  - assert (n / Z.pos d < hi + 1); [|lia].
    apply Z.div_lt_upper_bound; lia.
Qed.

Lemma normal_of_small x : ((1 # 2 ^ 31) <= x)%Q -> ((1 # 2 ^ 1022) <= x)%Q.
Proof.
  apply Qle_trans. apply Qle_bool_iff. vm_compute. reflexivity.
Qed.

(** [int(w * (800 / m))] for a side [w] of an image whose longer side
    [m] exceeds 800: the exact quotient [floor (w * 800 / m)] or one
    less. *)
Lemma int_of_product_near_floor w m :
  0 < w <= m -> 800 < m < 2 ^ 31 ->
  exists s c,
    py_truediv 800 m = Some s /\ int_of_product w s = Some c /\
    w * 800 / m - 1 <= c <= w * 800 / m.
Proof.
  intros Hw Hm.
  assert (H31 : 2 ^ 31 = 2147483648) by reflexivity.
  assert (H53 : 2 ^ 31 < 2 ^ 53) by reflexivity.
  set (u := ratio 800 m).
  assert (Eu : u = 800 # Z.to_pos m).
  { unfold u, ratio. rewrite Z.sgn_pos, Z.abs_eq by lia. reflexivity. }
  destruct (RN_unit_interval u (ratio_unit 800 m ltac:(lia) ltac:(lia)))
    as [Hs01 _].
  set (q := w * 800 / m).
  assert (Hq : q * m <= w * 800 < (q + 1) * m).
  { unfold q. pose proof (Z.div_mod (w * 800) m ltac:(lia)).
    pose proof (Z.mod_pos_bound (w * 800) m ltac:(lia)). nia. }
  assert (Hq800 : 0 <= q <= 800) by nia.
  set (t := (w * 800 # Z.to_pos m)).
  set (mi := (1 # Z.to_pos m)).
  assert (Ft : (inject_Z w * u == t)%Q).
  { rewrite Eu. unfold t, Qeq, Qmult, inject_Z. simpl.
    rewrite !Z2Pos.id by lia. lia. }
  assert (Fu : ((800 # 2 ^ 31) <= u)%Q).
  { rewrite Eu. unfold Qle. simpl. rewrite !Z2Pos.id by lia. lia. }
  assert (Fq : (inject_Z q <= t)%Q).
  { unfold t, Qle, inject_Z. simpl. rewrite !Z2Pos.id by lia. lia. }
  assert (Fq1 : (t <= inject_Z q + 1 - mi)%Q).
  { unfold t, mi, Qle, Qminus, Qplus, Qopp, inject_Z. simpl.
    rewrite !Pos2Z.inj_mul, !Z2Pos.id by lia. nia. }
  assert (Fm : ((1 # 2 ^ 31) <= mi)%Q).
  { unfold mi, Qle. simpl. rewrite !Z2Pos.id by lia. lia. }
  assert (Fq0 : (0 <= inject_Z q <= 800)%Q).
  { change 0%Q with (inject_Z 0). change 800%Q with (inject_Z 800).
    rewrite <- !Zle_Qle. lia. }
  assert (FW : (1 <= inject_Z w)%Q).
  { change 1%Q with (inject_Z 1). rewrite <- Zle_Qle. lia. }
  (* the quotient *)
  destruct (RN_relative_error u) as [Hsl Hsu].
  { apply normal_of_small.
    apply Qle_trans with (2 := Fu). apply Qle_bool_iff. reflexivity. }
  set (s := RN u) in *.
  (* the converted int *)
  destruct (float_of_int_exact w ltac:(lia)) as (fa & Efa & Hfa).
  (* the product *)
  assert (Hp : (t * (1 - (1 # 2 ^ 53)) <= fa * s <= t * (1 + (1 # 2 ^ 53)))%Q).
  { rewrite Hfa, <- Ft, <- !Qmult_assoc.
    split; apply Qmult_le_l; try assumption; lra. }
  set (p := (fa * s)%Q) in *.
  destruct (RN_relative_error p) as [Hrl Hru].
  { apply normal_of_small.
    assert ((800 # 2 ^ 31) <= t)%Q by (rewrite <- Ft; nra).
    change (2 ^ 53)%positive with 9007199254740992%positive in *.
    change (2 ^ 31)%positive with 2147483648%positive in *. lra. }
  set (r := RN p) in *.
  change (2 ^ 53)%positive with 9007199254740992%positive in *.
  change (2 ^ 31)%positive with 2147483648%positive in *.
  assert (Hr0 : (0 <= r)%Q) by lra.
  assert (Hrq : (inject_Z (q - 1) <= r)%Q).
  { unfold Z.sub. rewrite inject_Z_plus, inject_Z_opp.
    change (inject_Z 1) with 1%Q. lra. }
  assert (Hrq1 : (r < inject_Z (q + 1))%Q).
  { rewrite inject_Z_plus. change (inject_Z 1) with 1%Q. lra. }
  exists s, (py_int r). split; [|split].
  - unfold py_truediv. destruct (Z.eqb_spec m 0); [lia|].
    apply finite_unit. exact Hs01.
  - unfold int_of_product. rewrite Efa. fold p. fold r.
    rewrite finite_bounded; [reflexivity|].
    split; [assumption|].
    change (inject_Z (2 ^ 53)) with (9007199254740992 # 1)%Q.
    rewrite inject_Z_plus in Hrq1. change (inject_Z 1) with 1%Q in Hrq1. lra.
  - apply py_int_between; assumption.
Qed.
End rounding_facts.

(** The model of binary64 agrees with the hardware doubles on the
    quotients and products used below. *)
Example RN_agrees_with_hardware :
  Binary64.py_truediv 800 1078 = Binary64.hw_div 800 1078 /\
  Binary64.py_truediv 800 2400 = Binary64.hw_div 800 2400 /\
  Binary64.py_truediv 100 533 = Binary64.hw_div 100 533 /\
  Binary64.py_truediv 800 799 = Binary64.hw_div 800 799 /\
  option_map Qred
    (Binary64.finite
       (Binary64.RN (1078 * Binary64.RN (Binary64.ratio 800 1078))))
  = option_map Qred (Binary64.hw_int_mul_div 1078 800 1078).
Proof. vm_compute. repeat split; reflexivity. Qed.

(** ** Coordinate normalization *)

Section normalizer_facts.
Import Binary64 Normalizer.
Local Open Scope Z_scope.

(** An image that MAGI does not resize is normalized against its own
    size. *)
Lemma coord_img_size_not_resized w h :
  Z.max w h <= 800 -> coord_img_size w h = Some (w, h).
Proof.
  intros H. unfold coord_img_size, magi_max_size.
  destruct (Z.ltb_spec 800 (Z.max w h)); [lia | reflexivity].
Qed.

Lemma floor_scaled_size_not_resized w h :
  Z.max w h <= 800 -> floor_scaled_size w h = (w, h).
Proof.
  intros H. unfold floor_scaled_size, magi_max_size.
  destruct (Z.ltb_spec 800 (Z.max w h)); [lia | reflexivity].
Qed.

(** The worked example of the specification: a 1600x2400 page. *)
Example coord_img_size_1600_2400 :
  coord_img_size 1600 2400 = Some (533, 800) /\
  floor_scaled_size 1600 2400 = (533, 800) /\
  page_panels (Some (1600, 2400)) [[100; 100; 300; 500]]
  = Some [mk_panel 188 125 375 500].
Proof. vm_compute. repeat split; reflexivity. Qed.

Lemma clamp01_unit v : (0 <= clamp01 v <= 1)%Q.
Proof.
  unfold clamp01, py_max0, py_min1, Qltb.
  destruct (Qle_bool 1 v) eqn:E1; simpl.
  - change (Qle_bool 1 0) with false. simpl.
    split; [discriminate|apply Qle_refl].
  - destruct (Qle_bool v 0) eqn:E0; simpl.
    + split; [apply Qle_refl | discriminate].
    + split.
      * destruct (Qlt_le_dec v 0) as [Hlt|Hle]; [|exact Hle].
        apply Qlt_le_weak, Qle_bool_iff in Hlt. congruence.
      * destruct (Qlt_le_dec 1 v) as [Hlt|Hle]; [|exact Hle].
        apply Qlt_le_weak, Qle_bool_iff in Hlt. congruence.
Qed.

Lemma unit_square_of_rounded a b c d :
  (0 <= a <= 1)%Q -> (0 <= b <= 1)%Q -> (0 <= c <= 1)%Q -> (0 <= d <= 1)%Q ->
  panel_in_unit_square
    (mk_panel (py_round3 a) (py_round3 b) (py_round3 c) (py_round3 d)).
Proof.
  intros. unfold panel_in_unit_square; simpl.
  auto using py_round3_unit.
Qed.
(** X1: for an image size with positive sides, the longer one above
    800 and below [2^31] pixels, the two denominators are computed
    without an exception and each is the floor [floor_scaled_size]
    gives, or one less, never more: the rounding errors of the quotient
    and of the product are too small to carry the product to the next
    integer.  The size is the one read from the image file of the page
    or, when no file is found, the fallback 800x1200. *)
Lemma coord_img_size_near_floor w h :
  0 < w -> 0 < h -> 800 < Z.max w h < 2 ^ 31 ->
  exists cw ch,
    coord_img_size w h = Some (cw, ch) /\
    fst (floor_scaled_size w h) - 1 <= cw <= fst (floor_scaled_size w h) /\
    snd (floor_scaled_size w h) - 1 <= ch <= snd (floor_scaled_size w h).
Proof.
  intros Hw Hh Hm.
  destruct (int_of_product_near_floor w (Z.max w h) ltac:(lia) Hm)
    as (s & cw & Es & Ew & Bw).
  destruct (int_of_product_near_floor h (Z.max w h) ltac:(lia) Hm)
    as (s' & ch & Es' & Eh & Bh).
  assert (s' = s) as -> by congruence.
  exists cw, ch. unfold coord_img_size, floor_scaled_size, magi_max_size.
  destruct (Z.ltb_spec 800 (Z.max w h)); [|lia].
  rewrite Es. simpl. rewrite Ew. simpl. rewrite Eh. simpl. auto.
Qed.
End normalizer_facts.

Section normalizer_claims.
Import Binary64 Normalizer.
Local Open Scope Z_scope.

(** C1 (code defect): for a 760x1078 page, longer than 800 pixels, the
    specification names the denominators
    [(floor (760*800/1078), floor (1078*800/1078)) = (564, 800)];
    [combine_jsons_to_final_json] computes [int(1078 * (800/1078))] in
    double precision, where the product is [799.9999999999999], and
    normalizes the vertical coordinates by 799. *)
Theorem magi_size_truncates_below_800 :
  coord_img_size 760 1078 = Some (564, 799) /\
  floor_scaled_size 760 1078 = (564, 800) /\
  page_panels (Some (760, 1078)) [[0; 0; 564; 800]]
  = Some [mk_panel 0 0 1000 1001].
Proof. vm_compute. repeat split; reflexivity. Qed.

(** A box that lies inside the rectangle of the denominators,
    [0 <= x1 <= x2 <= W] and [0 <= y1 <= y2 <= H], is stored by the
    MAGI aggregator with [x], [y], [w], [h] in [[0,1]], [x+w <= 1.001]
    and [y+h <= 1.001], each coordinate being the quotient rounded to
    three decimals.  Nothing is clamped there. *)
Lemma box_inside_denominators (W H x1 y1 x2 y2 : Z) :
  0 < W -> 0 < H -> 0 <= x1 <= x2 -> x2 <= W -> 0 <= y1 <= y2 -> y2 <= H ->
  exists qx qy qw qh,
    py_truediv x1 W = Some qx /\ py_truediv y1 H = Some qy /\
    py_truediv (x2 - x1) W = Some qw /\
    py_truediv (y2 - y1) H = Some qh /\
    let p := mk_panel (py_round3 qx) (py_round3 qy)
                      (py_round3 qw) (py_round3 qh) in
    normalize_box W H x1 y1 x2 y2 = Some p /\
    panel_in_unit_square p /\ panel_inside_page p.
Proof.
  intros HW HH Hx Hx2 Hy Hy2.
  destruct (py_truediv_unit x1 W) as (qx & Ex & Ux & Bx); [lia..|].
  destruct (py_truediv_unit y1 H) as (qy & Ey & Uy & By); [lia..|].
  destruct (py_truediv_unit (x2 - x1) W) as (qw & Ew & Uw & Bw); [lia..|].
  destruct (py_truediv_unit (y2 - y1) H) as (qh & Eh & Uh & Bh); [lia..|].
  exists qx, qy, qw, qh. repeat (split; [assumption|]).
  unfold normalize_box. rewrite Ex, Ey, Ew, Eh. simpl.
  split; [reflexivity|]. split.
  - apply unit_square_of_rounded; assumption.
  - split; simpl.
    + apply (round3_pair_sum qx qw (ratio x1 W) (ratio (x2 - x1) W));
        try assumption.
      rewrite ratio_add by lia.
      apply (ratio_unit (x1 + (x2 - x1)) W); lia.
    + apply (round3_pair_sum qy qh (ratio y1 H) (ratio (y2 - y1) H));
        try assumption.
      rewrite ratio_add by lia.
      apply (ratio_unit (y1 + (y2 - y1)) H); lia.
Qed.

(** [add_normalized_panel_to_page] appends one panel, whose coordinates
    are the quotients clamped to [[0,1]] and then rounded to three
    decimals: each of them is in [[0,1]]. *)
Lemma add_normalized_panel_to_page_clamps
    (page_panels page_panels' : list panel)
    (x y w h : Q) (img_w img_h : Z) :
  add_normalized_panel_to_page page_panels x y w h img_w img_h
  = Some page_panels' ->
  exists nx ny nw nh,
    float_div_int x img_w = Some nx /\ float_div_int y img_h = Some ny /\
    float_div_int w img_w = Some nw /\ float_div_int h img_h = Some nh /\
    let p := mk_panel (py_round3 (clamp01 nx)) (py_round3 (clamp01 ny))
                      (py_round3 (clamp01 nw)) (py_round3 (clamp01 nh)) in
    page_panels' = page_panels ++ [p] /\ panel_in_unit_square p.
Proof.
  unfold add_normalized_panel_to_page.
  destruct (float_div_int x img_w) as [nx|]; [|discriminate].
  destruct (float_div_int y img_h) as [ny|]; [|discriminate].
  destruct (float_div_int w img_w) as [nw|]; [|discriminate].
  destruct (float_div_int h img_h) as [nh|]; [|discriminate].
  simpl. intros [= <-]. exists nx, ny, nw, nh.
  repeat (split; [reflexivity|]).
  apply unit_square_of_rounded; apply clamp01_unit.
Qed.

(** The clamped coordinates of [add_normalized_panel_to_page] need not
    add up to at most 1.001: the clamp is per coordinate. *)
Example add_normalized_panel_to_page_sum :
  add_normalized_panel_to_page [] 900 900 900 900 1000 1000
  = Some [mk_panel 900 900 900 900].
Proof. vm_compute. reflexivity. Qed.
End normalizer_claims.

(** ** Structure classifier *)

Section classifier_facts.
Import PyStr Tree.
Local Open Scope string_scope.
Local Open Scope list_scope.

Lemma is_file_not_dir item : is_file item = negb (is_dir item).
Proof. destruct item; reflexivity. Qed.

Lemma count_items items : forall chapter_dirs image_files_in_root,
  fold_left count_item items (chapter_dirs, image_files_in_root)
  = ((chapter_dirs
      + length (List.filter (fun item => is_dir item && has_images item)
                            items))%nat,
     (image_files_in_root
      + length (List.filter
                  (fun item => is_file item
                               && has_image_suffix (node_name item))
                  items))%nat).
Proof.
  induction items as [|item items IH]; intros c r; simpl.
  - f_equal; lia.
  - rewrite is_file_not_dir.
    destruct (is_dir item); simpl.
    + destruct (has_images item); simpl; rewrite IH; f_equal; lia.
    + destruct (has_image_suffix (node_name item)); simpl;
        rewrite IH; f_equal; lia.
Qed.

(** The classifier is the threshold of the specification on the two
    counts of the folder it counts in. *)
Lemma is_chapter_based_archive_threshold folder_path :
  is_dir folder_path = true ->
  is_chapter_based_archive folder_path
  = chapter_threshold (counted_chapter_dirs (counted_folder folder_path))
                      (counted_root_images (counted_folder folder_path)).
Proof.
  intros Hd. unfold is_chapter_based_archive. rewrite Hd. simpl.
  fold (counted_folder folder_path). rewrite count_items. reflexivity.
Qed.

(** C3 (code defect): a volume that wraps one chapter directory
    holding the pages, [vol/ch1/{01.jpg,02.jpg}].  Its only
    subdirectory has no subdirectory with images, so the classifier of
    the specification stays in [vol], counts one chapter directory and
    no loose image, and answers chapter-based;
    [process_chapter_based_archive] stays in [vol] as well.
    [is_chapter_based_archive] moves into [ch1] unconditionally, finds
    no chapter directory there and answers flat. *)
Theorem single_chapter_volume_classified_flat :
  let vol := Dir "vol" [Dir "ch1" [File "01.jpg" None; File "02.jpg" None]] in
  is_chapter_based_archive vol = false /\
  spec_classifier vol = true /\
  spec_folder vol = vol /\
  chapter_root vol = vol /\
  counted_folder vol = Dir "ch1" [File "01.jpg" None; File "02.jpg" None].
Proof. vm_compute. repeat split; reflexivity. Qed.

(** The two examples of the specification. *)
Example three_chapters_no_loose_image :
  is_chapter_based_archive
    (Dir "vol" [Dir "ch1" [File "01.jpg" None];
                Dir "ch2" [File "01.png" None];
                Dir "ch3" [File "01.JPG" None]]) = true.
Proof. reflexivity. Qed.

Example one_chapter_five_loose_images :
  is_chapter_based_archive
    (Dir "vol" [Dir "extras" [File "01.jpg" None];
                File "1.jpg" None; File "2.jpg" None; File "3.jpg" None;
                File "4.jpg" None; File "5.jpg" None]) = false.
Proof. reflexivity. Qed.
End classifier_facts.

(** ** Archive type detection and extraction *)

Section extraction_facts.
Import PyStr Extract.
Local Open Scope string_scope.
Local Open Scope list_scope.

(** Content recognised as zip or gzip is extracted as such whatever the
    name of the archive is. *)
Lemma zip_content_dispatched env archive_name :
  detect_file_type (run_file env) = Return (Some zip) ->
  started (extract_archive env archive_name) = [ZipExtractAll].
Proof.
  intros H. unfold extract_archive. rewrite H.
  destruct (zip_extractall_ok env); reflexivity.
Qed.

Lemma gzip_content_dispatched env archive_name :
  detect_file_type (run_file env) = Return (Some gzip) ->
  exists rest, started (extract_archive env archive_name) = TarXzf :: rest.
Proof.
  intros H. unfold extract_archive. rewrite H.
  destruct (run_tar_xzf env); try destruct (gunzip_ok env); eauto.
Qed.

(** C7 (code defect): content recognised as RAR is not extracted by
    the format found.  In an archive named [vol.cbz] nothing is started
    and the extraction fails as unsupported; in one named [vol.7z] the
    7z tool is started on the RAR content; [unrar] runs only when the
    extension is [.rar]. *)
Theorem rar_content_dispatched_by_extension env :
  detect_file_type (run_file env) = Return (Some rar) ->
  extract_archive env "vol.cbz"
  = mk_extraction [] [UnsupportedArchiveFormat ".cbz"] (Return false) /\
  started (extract_archive env "vol.7z") = [SevenZip] /\
  started (extract_archive env "vol.rar") = [strategy_of_type rar].
Proof.
  intros H. unfold extract_archive. rewrite H.
  repeat split; simpl; [destruct (run_7z env) | destruct (run_unrar env)];
    reflexivity.
Qed.

Lemma rar_content_dispatched_by_extension_witness :
  extract_archive
    (mk_tools (Completed "vol.cbz: RAR archive data, v5")
              true CalledProcessError false
              (Completed "") (Completed "") (Completed ""))
    "vol.cbz"
  = mk_extraction [] [UnsupportedArchiveFormat ".cbz"] (Return false) /\
  started (extract_archive
             (mk_tools (Completed "vol.cbz: RAR archive data, v5")
                       true CalledProcessError false
                       (Completed "") (Completed "") (Completed ""))
             "vol.7z") = [SevenZip] /\
  started (extract_archive
             (mk_tools (Completed "vol.cbz: RAR archive data, v5")
                       true CalledProcessError false
                       (Completed "") (Completed "") (Completed ""))
             "vol.rar") = [strategy_of_type rar].
Proof.
  apply (rar_content_dispatched_by_extension
           (mk_tools (Completed "vol.cbz: RAR archive data, v5")
                     true CalledProcessError false
                     (Completed "") (Completed "") (Completed ""))).
  reflexivity.
Defined.

(** The RAR and 7Z strategies handle both kinds of failure and tell
    them apart by what they print. *)
Lemma rar_failures_handled env :
  detect_file_type (run_file env) = Return (Some rar) ->
  (run_unrar env = FileNotFoundError ->
   extract_archive env "vol.rar"
   = mk_extraction [Unrar] [CommandNotFound "unrar" "unrar"] (Return false)) /\
  (run_unrar env = CalledProcessError ->
   extract_archive env "vol.rar"
   = mk_extraction [Unrar] [FailedToExtract Unrar] (Return false)).
Proof.
  intros H. unfold extract_archive. rewrite H. simpl.
  split; intros ->; reflexivity.
Qed.

Lemma sevenz_failures_handled env :
  detect_file_type (run_file env) = Return (Some sevenz) ->
  (run_7z env = FileNotFoundError ->
   extract_archive env "vol.7z"
   = mk_extraction [SevenZip] [CommandNotFound "7z" "p7zip"] (Return false)) /\
  (run_7z env = CalledProcessError ->
   extract_archive env "vol.7z"
   = mk_extraction [SevenZip] [FailedToExtract SevenZip] (Return false)).
Proof.
  intros H. unfold extract_archive. rewrite H. simpl.
  split; intros ->; reflexivity.
Qed.

(** C8 (code defect): the TAR strategy handles the tool that ran and
    failed, and returns [False]; it has no handler for the missing
    binary, and the [FileNotFoundError] of a missing [tar] leaves
    [extract_archive], where the RAR and 7Z strategies print how to
    install the tool and return [False]. *)
Theorem missing_tar_binary_propagates env :
  detect_file_type (run_file env) = Return (Some tar) ->
  run_tar_xf env = FileNotFoundError ->
  extract_archive env "vol.tar"
  = mk_extraction [TarXf] [] (Raise RaisedFileNotFoundError).
Proof.
  intros H Hrun. unfold extract_archive. rewrite H. simpl.
  rewrite Hrun. reflexivity.
Qed.

Lemma missing_tar_binary_propagates_witness :
  extract_archive
    (mk_tools (Completed "vol.tar: POSIX tar archive (GNU)")
              true CalledProcessError false
              (Completed "") (Completed "") FileNotFoundError)
    "vol.tar"
  = mk_extraction [TarXf] [] (Raise RaisedFileNotFoundError).
Proof.
  apply (missing_tar_binary_propagates
           (mk_tools (Completed "vol.tar: POSIX tar archive (GNU)")
                     true CalledProcessError false
                     (Completed "") (Completed "") FileNotFoundError));
    reflexivity.
Defined.

(** The tool that ran and failed is handled by the TAR strategy. *)
Lemma tar_failure_handled env :
  detect_file_type (run_file env) = Return (Some tar) ->
  run_tar_xf env = CalledProcessError ->
  extract_archive env "vol.tar"
  = mk_extraction [TarXf] [FailedToExtract TarXf] (Return false).
Proof.
  intros H Hrun. unfold extract_archive. rewrite H. simpl.
  rewrite Hrun. reflexivity.
Qed.

End extraction_facts.

(** ** Sorting, and the order of names and paths *)

Section sort_facts.
Context {A K : Type} (key : A -> K) (leb : K -> K -> bool).

Let key_le (a b : A) : Prop := leb (key a) (key b) = true.

Lemma insert_length x l :
  length (PySort.insert key leb x l) = S (length l).
Proof.
  induction l as [|y l IH]; simpl; [reflexivity|].
  destruct (leb (key x) (key y)); simpl; congruence.
Qed.

Lemma sort_length l : length (PySort.sort key leb l) = length l.
Proof.
  induction l as [|x l IH]; simpl; [reflexivity|].
  rewrite insert_length. congruence.
Qed.

Lemma insert_perm x l : PySort.insert key leb x l ≡ₚ x :: l.
Proof.
  induction l as [|y l IH]; simpl; [reflexivity|].
  destruct (leb (key x) (key y)); [reflexivity|].
  rewrite IH. apply perm_swap.
Qed.

Lemma sort_perm l : PySort.sort key leb l ≡ₚ l.
Proof.
  induction l as [|x l IH]; simpl; [reflexivity|].
  rewrite insert_perm. by f_equiv.
Qed.

Hypothesis leb_total : forall a b, leb a b = true \/ leb b a = true.

Lemma insert_sorted x l :
  Sorted key_le l -> Sorted key_le (PySort.insert key leb x l).
Proof.
  induction 1 as [|y l Hs IH Hd]; simpl.
  - repeat constructor.
  - destruct (leb (key x) (key y)) eqn:E.
    + constructor; [by constructor|]. constructor. exact E.
    + constructor; [exact IH|].
      assert (Hyx : key_le y x).
      { destruct (leb_total (key x) (key y)); [congruence | assumption]. }
      destruct Hd as [|z l' Hyz]; simpl.
      * by constructor.
      * destruct (leb (key x) (key z)); by constructor.
Qed.

Lemma sort_sorted l : Sorted key_le (PySort.sort key leb l).
Proof.
  induction l as [|x l IH]; simpl; [constructor|].
  by apply insert_sorted.
Qed.

(** A sorted list is left as it is. *)
Lemma sort_of_sorted l :
  (forall a b c, key_le a b -> key_le b c -> key_le a c) ->
  Sorted key_le l -> PySort.sort key leb l = l.
Proof.
  intros Htrans Hs. induction Hs as [|x l Hs IH Hd]; simpl; [reflexivity|].
  rewrite IH. destruct Hd as [|y l' Hxy]; simpl; [reflexivity|].
  unfold key_le in Hxy. by rewrite Hxy.
Qed.
End sort_facts.

Section order_facts.
Local Open Scope string_scope.

Lemma ascii_compare_lt_trans a b c :
  Ascii.compare a b = Lt -> Ascii.compare b c = Lt -> Ascii.compare a c = Lt.
Proof.
  unfold Ascii.compare. rewrite !N.compare_lt_iff. lia.
Qed.

Lemma string_compare_refl s : String.compare s s = Eq.
Proof.
  induction s as [|a s IH]; simpl; [reflexivity|].
  unfold Ascii.compare. by rewrite N.compare_refl.
Qed.

Lemma string_compare_lt_trans s1 : forall s2 s3,
  String.compare s1 s2 = Lt -> String.compare s2 s3 = Lt ->
  String.compare s1 s3 = Lt.
Proof.
  induction s1 as [|a s1 IH]; intros [|b s2] [|c s3]; simpl; try done.
  destruct (Ascii.compare a b) eqn:Eab; try done;
    destruct (Ascii.compare b c) eqn:Ebc; try done; intros H1 H2.
  - apply Ascii.compare_eq_iff in Eab, Ebc. subst.
    unfold Ascii.compare. rewrite N.compare_refl. eauto.
  - apply Ascii.compare_eq_iff in Eab. subst. by rewrite Ebc.
  - apply Ascii.compare_eq_iff in Ebc. subst. by rewrite Eab.
  - by rewrite (ascii_compare_lt_trans a b c).
Qed.

Lemma string_leb_trans s1 s2 s3 :
  String.leb s1 s2 = true -> String.leb s2 s3 = true ->
  String.leb s1 s3 = true.
Proof.
  unfold String.leb.
  destruct (String.compare s1 s2) eqn:E12; try done;
    destruct (String.compare s2 s3) eqn:E23; try done; intros _ _.
  - apply String.compare_eq_iff in E12, E23. subst.
    by rewrite string_compare_refl.
  - apply String.compare_eq_iff in E12. subst. by rewrite E23.
  - apply String.compare_eq_iff in E23. subst. by rewrite E12.
  - by rewrite (string_compare_lt_trans s1 s2 s3).
Qed.

Lemma path_leb_total p : forall q, path_leb p q = true \/ path_leb q p = true.
Proof.
  induction p as [|a p IH]; intros [|b q]; simpl; auto.
  rewrite (String.compare_antisym b a).
  destruct (String.compare a b); simpl; auto.
Qed.

Lemma path_leb_antisym p : forall q,
  path_leb p q = true -> path_leb q p = true -> p = q.
Proof.
  induction p as [|a p IH]; intros [|b q]; simpl; try done.
  rewrite (String.compare_antisym b a).
  destruct (String.compare a b) eqn:E; simpl; try done.
  apply String.compare_eq_iff in E. subst. intros. f_equal. eauto.
Qed.

Lemma path_leb_trans p : forall q r,
  path_leb p q = true -> path_leb q r = true -> path_leb p r = true.
Proof.
  induction p as [|a p IH]; intros [|b q] [|c r]; simpl; try done.
  destruct (String.compare a b) eqn:Eab; try done;
    destruct (String.compare b c) eqn:Ebc; try done; intros H1 H2.
  - apply String.compare_eq_iff in Eab, Ebc. subst.
    rewrite string_compare_refl. eauto.
  - apply String.compare_eq_iff in Eab. subst. by rewrite Ebc.
  - apply String.compare_eq_iff in Ebc. subst. by rewrite Eab.
  - by rewrite (string_compare_lt_trans a b c).
Qed.



#[local] Instance path_le_trans : Transitive path_le.
Proof. intros p q r. apply path_leb_trans. Qed.

#[local] Instance path_le_antisym : AntiSymm eq path_le.
Proof. intros p q. apply path_leb_antisym. Qed.

(** Sorting is independent of the order in which the paths were listed. *)
Lemma sort_paths_perm (l1 l2 : list path) :
  l1 ≡ₚ l2 -> PySort.sort id path_leb l1 = PySort.sort id path_leb l2.
Proof.
  intros Hp. apply (Sorted_unique path_le).
  - apply (sort_sorted id path_leb), path_leb_total.
  - apply (sort_sorted id path_leb), path_leb_total.
  - by rewrite !sort_perm.
Qed.
End order_facts.

(** ** Image enumeration *)

Section enumeration_facts.
Import PyStr Tree.
Local Open Scope list_scope.

Lemma prefix_of_same a : forall b t,
  String.prefix a t = true -> String.prefix b t = true ->
  String.prefix a b = true \/ String.prefix b a = true.
Proof.
  induction a as [|x a IH]; intros [|y b] [|z t]; simpl; auto; try done.
  destruct (ascii_dec x z) as [->|]; [|done].
  destruct (ascii_dec y z) as [->|]; [|done].
  destruct (ascii_dec z z); [|done]. apply IH.
Qed.

Lemma prefix_length a : forall b,
  String.prefix a b = true -> String.length b <= String.length a -> a = b.
Proof.
  induction a as [|x a IH]; intros [|y b]; simpl; try done; try lia.
  destruct (ascii_dec x y) as [->|]; [|done].
  intros. f_equal. apply IH; [done|lia].
Qed.

(** No name ends with two of the twelve suffixes. *)
Lemma suffixes_exclusive name s1 s2 :
  s1 ∈ collected_suffixes -> s2 ∈ collected_suffixes ->
  endswith name s1 = true -> endswith name s2 = true -> s1 = s2.
Proof.
  intros H1 H2 E1 E2. unfold endswith in *.
  assert (Hall : forallb (fun a => forallb (fun b =>
            implb (String.prefix (String.rev a) (String.rev b))
                  (String.eqb a b)) collected_suffixes)
            collected_suffixes = true) by (vm_compute; reflexivity).
  rewrite forallb_forall in Hall.
  destruct (prefix_of_same _ _ _ E1 E2) as [H|H].
  - specialize (Hall s1 (proj1 (list_elem_of_In _ _) H1)).
    rewrite forallb_forall in Hall.
    specialize (Hall s2 (proj1 (list_elem_of_In _ _) H2)).
    rewrite H in Hall. by apply String.eqb_eq in Hall.
  - specialize (Hall s2 (proj1 (list_elem_of_In _ _) H2)).
    rewrite forallb_forall in Hall.
    specialize (Hall s1 (proj1 (list_elem_of_In _ _) H1)).
    rewrite H in Hall. by apply String.eqb_eq in Hall.
Qed.

Lemma collect_suffixes entries :
  collect entries = flat_map (matching entries) collected_suffixes.
Proof.
  unfold collect, collected_suffixes.
  induction image_extensions as [|ext l IH]; simpl; [done|].
  by rewrite IH, <- app_assoc.
Qed.

Lemma elem_of_matching entries ext p :
  p ∈ matching entries ext <->
  exists n, (p, n) ∈ entries /\ endswith (node_name n) ext = true.
Proof.
  unfold matching. rewrite list_elem_of_In, in_map_iff. split.
  - intros ([p' n] & <- & [Hin Hm]%filter_In). exists n.
    split; [by apply list_elem_of_In|done].
  - intros (n & Hin & Hm). exists (p, n). split; [done|].
    apply filter_In. split; [by apply list_elem_of_In|done].
Qed.

Lemma matching_NoDup entries ext :
  NoDup (List.map fst entries) -> NoDup (matching entries ext).
Proof.
  unfold matching. induction entries as [|[p n] l IH]; simpl; [done|].
  intros [Hp Hl]%NoDup_cons.
  destruct (name_matches (node_name n) ext); simpl; [|by apply IH].
  apply NoDup_cons. split; [|by apply IH].
  intros Hin. apply Hp.
  apply list_elem_of_In, in_map_iff in Hin
    as ([p' n'] & Heq & [Hin _]%filter_In).
  simpl in Heq. subst. apply list_elem_of_In, in_map_iff. by exists (p, n').
Qed.

Lemma NoDup_fst_functional {A B} (l : list (A * B)) x y1 y2 :
  NoDup (List.map fst l) -> (x, y1) ∈ l -> (x, y2) ∈ l -> y1 = y2.
Proof.
  induction l as [|[a b] l IH]; simpl; [by intros _ ?%elem_of_nil|].
  intros [Ha Hl]%NoDup_cons H1 H2.
  assert (Hfst : forall y, (x, y) ∈ l -> x ∈ List.map fst l).
  { intros y Hy. apply list_elem_of_In, in_map_iff. exists (x, y).
    split; [done|]. by apply list_elem_of_In. }
  apply elem_of_cons in H1 as [E1|H1];
    apply elem_of_cons in H2 as [E2|H2].
  - congruence.
  - destruct Ha. injection E1 as <- _. eauto.
  - destruct Ha. injection E2 as <- _. eauto.
  - by apply IH.
Qed.

Lemma flat_map_matching_NoDup entries suffixes :
  NoDup (List.map fst entries) -> NoDup suffixes ->
  (forall s, s ∈ suffixes -> s ∈ collected_suffixes) ->
  NoDup (flat_map (matching entries) suffixes).
Proof.
  intros He. induction suffixes as [|s l IH]; simpl; [constructor|].
  intros [Hs Hl]%NoDup_cons Hsub. apply NoDup_app. repeat split.
  - by apply matching_NoDup.
  - intros p [n1 [Hin1 Hm1]]%elem_of_matching Hin.
    apply list_elem_of_In, in_flat_map in Hin as (s' & Hs' & Hp).
    apply list_elem_of_In, elem_of_matching in Hp as (n2 & Hin2 & Hm2).
    assert (n1 = n2) as <-.
    { eapply (NoDup_fst_functional entries); eauto. }
    apply Hs. apply list_elem_of_In in Hs'.
    rewrite (suffixes_exclusive (node_name n1) s s'); auto.
    + apply Hsub. by left.
    + apply Hsub. by right.
  - apply IH; [done|]. intros. apply Hsub. by right.
Qed.

Lemma matching_perm entries entries' ext :
  entries' ≡ₚ entries -> matching entries' ext ≡ₚ matching entries ext.
Proof.
  unfold matching. induction 1 as [|x l l' _ IH|x y l|l l' l'' _ IH1 _ IH2];
    simpl.
  - done.
  - destruct (name_matches _ _); simpl; by rewrite IH.
  - destruct (name_matches (node_name x.2) ext),
             (name_matches (node_name y.2) ext); simpl;
      (done || apply perm_swap).
  - by rewrite IH1.
Qed.

Lemma collect_perm entries entries' :
  entries' ≡ₚ entries -> collect entries' ≡ₚ collect entries.
Proof.
  intros Hp. unfold collect.
  induction image_extensions as [|ext l IH]; simpl; [done|].
  by rewrite IH, !(matching_perm entries entries').
Qed.

(** What the sorted collection holds, for entries with distinct paths:
    each entry whose name ends with one of the twelve suffixes, once,
    in ascending order; the order in which the directories list their
    entries does not matter. *)
Lemma sorted_collection entries :
  NoDup (List.map fst entries) ->
  let image_files := PySort.sort id path_leb (collect entries) in
  (forall p, p ∈ image_files <->
     exists n s, (p, n) ∈ entries /\ s ∈ collected_suffixes /\
                 endswith (node_name n) s = true) /\
  NoDup image_files /\
  Sorted path_le image_files /\
  (forall entries', entries' ≡ₚ entries ->
     PySort.sort id path_leb (collect entries') = image_files).
Proof.
  intros Hnd image_files. subst image_files. repeat split.
  - rewrite sort_perm, collect_suffixes.
    rewrite list_elem_of_In, in_flat_map.
    intros (s & Hs & Hp). apply list_elem_of_In, elem_of_matching in Hp
      as (n & Hin & Hm).
    exists n, s. repeat split; [done | by apply list_elem_of_In | done].
  - intros (n & s & Hin & Hs & Hm).
    rewrite sort_perm, collect_suffixes.
    rewrite list_elem_of_In, in_flat_map. exists s.
    split; [by apply list_elem_of_In|].
    apply list_elem_of_In, elem_of_matching. eauto.
  - rewrite sort_perm, collect_suffixes.
    apply flat_map_matching_NoDup; [done| |done].
    apply (bool_decide_unpack (NoDup collected_suffixes)). by vm_compute.
  - apply (sort_sorted id path_leb), path_leb_total.
  - intros entries' Hp. by apply sort_paths_perm, collect_perm.
Qed.
End enumeration_facts.

Section enumeration_claims.
Import PyStr Tree.
Local Open Scope string_scope.
Local Open Scope list_scope.

(** Both enumerations collect the entries whose name ends with one of
    [.jpg .jpeg .png .bmp .gif .webp] written all in lower case or all
    in upper case.  Nothing removes duplicates: with names matched as
    they are written, an entry matches at most one of the twelve
    patterns, so that no path is collected twice when the paths of the
    entries are distinct.  The list is sorted ascending in the order of
    paths, and it is the same whatever the order in which the
    directories list their entries. *)
Lemma image_enumeration (folder_path chapter_dir : node) :
  NoDup (List.map fst (entries_below folder_path)) ->
  NoDup (List.map fst (entries_of chapter_dir)) ->
  enumerates (entries_below folder_path) (image_files_rglob folder_path) /\
  enumerates (entries_of chapter_dir) (image_files_glob chapter_dir) /\
  (forall folder_path',
      entries_below folder_path' ≡ₚ entries_below folder_path ->
      image_files_rglob folder_path' = image_files_rglob folder_path) /\
  (forall chapter_dir',
      entries_of chapter_dir' ≡ₚ entries_of chapter_dir ->
      image_files_glob chapter_dir' = image_files_glob chapter_dir).
Proof.
  intros Hf Hc.
  destruct (sorted_collection _ Hf) as (Hf1 & Hf2 & Hf3 & Hf4).
  destruct (sorted_collection _ Hc) as (Hc1 & Hc2 & Hc3 & Hc4).
  unfold enumerates, image_files_rglob, image_files_glob.
  split; [|split; [|split]].
  - split; [exact Hf1 | split; [exact Hf2 | exact Hf3]].
  - split; [exact Hc1 | split; [exact Hc2 | exact Hc3]].
  - intros folder_path'. apply Hf4.
  - intros chapter_dir'. apply Hc4.
Qed.

Example image_enumeration_of_a_folder :
  enumerates
    (entries_below (Dir "vol" [File "02.jpg" None; File "01.JPG" None;
                               Dir "sub" [File "03.png" None]]))
    [["01.JPG"]; ["02.jpg"]; ["sub"; "03.png"]] /\
  enumerates
    (entries_of (Dir "ch1" [File "b.webp" None; File "a.gif" None]))
    [["a.gif"]; ["b.webp"]].
Proof.
  pose proof (image_enumeration
    (Dir "vol" [File "02.jpg" None; File "01.JPG" None;
                Dir "sub" [File "03.png" None]])
    (Dir "ch1" [File "b.webp" None; File "a.gif" None])) as H.
  destruct H as (H1 & H2 & _).
  - apply (bool_decide_unpack (NoDup _)). vm_compute. exact I.
  - apply (bool_decide_unpack (NoDup _)). vm_compute. exact I.
  - split; [exact H1 | exact H2].
Qed.

(** C6 (code defect): a folder with the pages [01.Jpg] and [02.jpg].
    The enumerations look for each extension in lower case and in
    upper case, [*.jpg] and [*.JPG]; neither pattern matches [01.Jpg],
    and the page is left out of the unit, whether it is searched
    recursively or as a chapter.  The loose-image test of the
    classifier, [item.suffix.lower()], takes the same file for an
    image. *)
Theorem mixed_case_extension_not_collected :
  image_files_rglob (Dir "vol" [File "01.Jpg" None; File "02.jpg" None])
  = [["02.jpg"]] /\
  image_files_glob (Dir "vol" [File "01.Jpg" None; File "02.jpg" None])
  = [["02.jpg"]] /\
  has_image_suffix "01.Jpg" = true.
Proof. vm_compute. repeat split; reflexivity. Qed.
End enumeration_claims.

(** ** Detection adapter and aggregator *)

Section magi_facts.
Import PyStr Tree Output Magi.
Local Open Scope list_scope.

Lemma truthy_length {A} (l : list A) : truthy l = negb (length l =? 0)%nat.
Proof. by destruct l. Qed.

Lemma enumerate_from_length {A B} (f : nat -> A -> B) l : forall n,
  length (enumerate_from f n l) = length l.
Proof. induction l as [|x l IH]; intros n; simpl; [done|]. by rewrite IH. Qed.

Lemma enumerate_from_pages (f : nat -> string -> page_record) l :
  (forall n x, page (f n x) = n) ->
  forall n, List.map page (enumerate_from f n l) = seq n (length l).
Proof.
  intros Hf. induction l as [|x l IH]; intros n; simpl; [done|].
  by rewrite Hf, IH.
Qed.


(** The temporary directory in the output directory. *)
Lemma with_folder_twice {T} name (c c' : gmap string T) out :
  with_folder name c (with_folder name c' out) = with_folder name c out.
Proof. unfold with_folder. simpl. by rewrite insert_insert_eq. Qed.

Lemma folder_content_with_folder {T} name (c : gmap string T) out :
  folder_content (with_folder name c out) name = c.
Proof.
  unfold folder_content, with_folder. simpl. by rewrite lookup_insert_eq.
Qed.

Lemma mkdir_exist_ok_spec {T} name (out : output_dir T) :
  mkdir_exist_ok name out
  = match out_files out !! name with
    | Some _ => Raise RaisedFileExistsError
    | None => Return (with_folder name (folder_content out name) out)
    end.
Proof. reflexivity. Qed.

Lemma process_image_with_magi_spec d image_name temp :
  process_image_with_magi d image_name temp
  = match escapes d with
    | Some e => (temp, Raise e)
    | None =>
        if succeeded d
        then match d with
             | Exited _ (Some content) =>
                 (<[(stem image_name ++ "_panels.json")%string := content]>
                    temp,
                  Return (true, Some (stem image_name ++ "_panels.json")%string))
             | _ => (temp, Return (false, None))
             end
        else (temp, Return (false, None))
    end.
Proof.
  destruct d as [rc [c|]| | |r]; simpl; try done.
  by destruct (rc =? 0)%Z.
Qed.

Lemma survivors_cons detect p rest :
  survivors detect (p :: rest)
  = if succeeded (detect p) then p :: survivors detect rest
    else survivors detect rest.
Proof. reflexivity. Qed.

(** An exception out of the adapter stops the loop over the images. *)
Lemma process_images_raises detect image_files e : forall temp json_files,
  first_escape detect image_files = Some e ->
  (process_images detect image_files temp json_files).2 = Raise e.
Proof.
  induction image_files as [|p rest IH]; intros temp jf; simpl; [done|].
  rewrite process_image_with_magi_spec.
  destruct (escapes (detect p)) as [e'|] eqn:He; [by intros [= ->]|].
  intros Hr.
  destruct (succeeded (detect p)) eqn:Hs; [|by apply IH].
  destruct (detect p) as [rc [c|]| | |r]; try done.
  destruct (bool_decide _); by apply IH.
Qed.

(** Without such an exception the loop appends the result file of each
    surviving image, in order; every file it lists is in the temporary
    directory. *)
Lemma process_images_spec detect image_files : forall temp json_files,
  first_escape detect image_files = None ->
  (forall f, f ∈ json_files -> is_Some (temp !! f)) ->
  exists temp',
    process_images detect image_files temp json_files
    = (temp',
       Return (json_files
                 ++ List.map json_name_of (survivors detect image_files))) /\
    (forall f,
       f ∈ json_files ++ List.map json_name_of (survivors detect image_files) ->
       is_Some (temp' !! f)).
Proof.
  induction image_files as [|p rest IH]; intros temp jf Hesc Hin.
  - exists temp. simpl. by rewrite app_nil_r.
  - cbn [process_images first_escape] in *.
    rewrite process_image_with_magi_spec, survivors_cons.
    destruct (escapes (detect p)) as [e'|] eqn:He; [done|].
    destruct (succeeded (detect p)) eqn:Hs.
    + destruct (detect p) as [rc [c|]| | |r]; try done.
      fold (json_name_of p).
      rewrite bool_decide_true by (rewrite lookup_insert_eq; eauto).
      destruct (IH (<[json_name_of p := c]> temp) (jf ++ [json_name_of p])
                  Hesc) as (temp' & E & Hall).
      { intros f [Hf | ->%list_elem_of_singleton]%elem_of_app.
        - destruct (decide (json_name_of p = f)) as [->|Hne].
          + rewrite lookup_insert_eq; eauto.
          + rewrite lookup_insert_ne by done. auto.
        - rewrite lookup_insert_eq; eauto. }
      exists temp'. rewrite E. simpl. rewrite <- app_assoc in *. simpl in *.
      done.
    + destruct (IH temp jf Hesc Hin) as (temp' & E & Hall).
      exists temp'. by rewrite E.
Qed.

Lemma filter_all {A} (f : A -> bool) l :
  (forall x, x ∈ l -> f x = true) -> List.filter f l = l.
Proof.
  induction l as [|x l IH]; intros H; simpl; [done|].
  rewrite H by left. f_equal. apply IH. intros. apply H. by right.
Qed.



Lemma enumerate_from_Forall {A B} (P : B -> Prop) (f : nat -> A -> B) l :
  (forall n x, x ∈ l -> P (f n x)) ->
  forall n, Forall P (enumerate_from f n l).
Proof.
  induction l as [|x l IH]; intros H n; simpl; constructor.
  - apply H. by left.
  - apply IH. intros. apply H. by right.
Qed.

(** The pages of a unit: one for each listing of a result file, the
    files taken in the order of their names. *)
Lemma pages_of_images_eq detect image_files temp folder_path :
  first_escape detect image_files = None ->
  pages_of_images detect image_files temp folder_path
  = enumerate_from
      (page_of_json (process_images detect image_files temp []).1 folder_path)
      1 (PySort.sort id String.leb
           (List.map json_name_of (survivors detect image_files))).
Proof.
  intros Hesc. unfold pages_of_images.
  destruct (process_images_spec detect image_files temp [] Hesc)
    as (temp' & E & Hall); [by intros f ?%elem_of_nil|].
  rewrite E. simpl in *.
  unfold pages_data, existing_json_files.
  by rewrite filter_all by (intros f Hf; apply bool_decide_eq_true; auto).
Qed.

(** The aggregator ends with one page for each surviving image, numbered
    from 1 without a gap. *)
Lemma pages_of_images_spec detect image_files temp folder_path :
  first_escape detect image_files = None ->
  length (pages_of_images detect image_files temp folder_path)
  = length (survivors detect image_files) /\
  List.map page (pages_of_images detect image_files temp folder_path)
  = seq 1 (length (survivors detect image_files)).
Proof.
  intros Hesc. rewrite pages_of_images_eq by done.
  rewrite enumerate_from_length, enumerate_from_pages by done.
  by rewrite sort_length, length_map.
Qed.

(** The part the two callers of the aggregator share. *)
Lemma combine_after_images detect image_files output_json folder_path
    fault temp fs :
  first_escape detect image_files = None ->
  exists temp',
    process_images detect image_files temp []
    = (temp', Return (List.map json_name_of (survivors detect image_files))) /\
    (if truthy (List.map json_name_of (survivors detect image_files))
     then combine_jsons_to_final_json
            (List.map json_name_of (survivors detect image_files))
            output_json temp' folder_path fault fs
     else (fs, false))
    = if truthy (survivors detect image_files)
      then write_json fs output_json
             (document_of detect image_files temp folder_path) fault
      else (fs, false).
Proof.
  intros Hesc.
  pose proof (pages_of_images_spec detect image_files temp folder_path Hesc)
    as [Hl _].
  unfold document_of. unfold pages_of_images in *.
  destruct (process_images_spec detect image_files temp [] Hesc)
    as (temp' & E & Hall); [by intros f ?%elem_of_nil|].
  rewrite E in *. simpl in *. exists temp'. split; [done|].
  rewrite !truthy_length, length_map.
  destruct (length (survivors detect image_files) =? 0)%nat eqn:E0; [done|].
  simpl. unfold combine_jsons_to_final_json.
  rewrite !truthy_length. rewrite Hl.
  unfold existing_json_files.
  rewrite filter_all by (intros f Hf; apply bool_decide_eq_true; auto).
  rewrite sort_length, length_map, E0. simpl. done.
Qed.

(** [process_with_magi] in closed form. *)
Lemma process_with_magi_spec detect faults cleanup folder_path out :
  let output_json := (node_name folder_path ++ ".json")%string in
  let temp_json_dir := (node_name folder_path ++ "_temp")%string in
  let image_files := image_files_rglob folder_path in
  let temp := folder_content out temp_json_dir in
  let kept :=
    with_folder temp_json_dir
                (process_images detect image_files temp []).1 out in
  process_with_magi detect faults cleanup folder_path out
  = match out_files out !! temp_json_dir with
    | Some _ => (out, Raise RaisedFileExistsError)
    | None =>
        match first_escape detect image_files with
        | Some e => (kept, Raise e)
        | None =>
            if truthy (survivors detect image_files) then
              let '(fs, success) :=
                write_json (out_files out) output_json
                  (document_of detect image_files temp folder_path)
                  (faults output_json) in
              (mk_output fs (rmtree (cleanup temp_json_dir) temp_json_dir
                                    (out_folders kept)),
               Return success)
            else (kept, Return false)
        end
    end.
Proof.
  intros output_json temp_json_dir image_files temp kept.
  unfold process_with_magi. rewrite mkdir_exist_ok_spec.
  fold output_json temp_json_dir image_files temp.
  destruct (out_files out !! temp_json_dir); [done|].
  rewrite folder_content_with_folder.
  destruct (truthy image_files) eqn:Ei.
  2:{ subst kept. destruct image_files; [done|done]. }
  destruct (first_escape detect image_files) as [e|] eqn:Hesc.
  - pose proof (process_images_raises detect image_files e temp [] Hesc) as Hr.
    subst kept.
    destruct (process_images detect image_files temp []) as [temp' r].
    simpl in *. subst r. by rewrite with_folder_twice.
  - destruct (combine_after_images detect image_files output_json folder_path
                (faults output_json) temp (out_files out) Hesc)
      as (temp' & E & Hc).
    subst kept. rewrite E. cbn [fst snd]. rewrite with_folder_twice.
    cbn [out_files with_folder] in *.
    rewrite truthy_length, length_map, <- truthy_length in *.
    destruct (truthy (survivors detect image_files)); [|done].
    rewrite Hc. by destruct (write_json _ _ _ _).
Qed.

(** One turn of the loop over the chapters in closed form. *)
Lemma process_chapter_spec detect faults cleanup folder_name out n
    chapter_dir :
  let chapter_json := chapter_json_name folder_name chapter_dir in
  let temp_json_dir := chapter_temp_name folder_name chapter_dir in
  let image_files := image_files_glob chapter_dir in
  let detect' := chapter_detect detect chapter_dir in
  let temp := folder_content out temp_json_dir in
  let kept :=
    with_folder temp_json_dir
                (process_images detect' image_files temp []).1 out in
  process_chapter detect faults cleanup folder_name out n chapter_dir
  = match out_files out !! temp_json_dir with
    | Some _ => (out, Raise RaisedFileExistsError)
    | None =>
        match first_escape detect' image_files with
        | Some e => (kept, Raise e)
        | None =>
            if truthy (survivors detect' image_files) then
              let '(fs, success) :=
                write_json (out_files out) chapter_json
                  (document_of detect' image_files temp chapter_dir)
                  (faults chapter_json) in
              (mk_output fs (rmtree (cleanup temp_json_dir) temp_json_dir
                                    (out_folders kept)),
               Return (if success then S n else n))
            else (kept, Return n)
        end
    end.
Proof.
  intros chapter_json temp_json_dir image_files detect' temp kept.
  unfold process_chapter. rewrite mkdir_exist_ok_spec.
  fold chapter_json temp_json_dir image_files detect' temp.
  destruct (out_files out !! temp_json_dir); [done|].
  rewrite folder_content_with_folder.
  destruct (truthy image_files) eqn:Ei.
  2:{ subst kept. destruct image_files; [done|done]. }
  destruct (first_escape detect' image_files) as [e|] eqn:Hesc.
  - pose proof (process_images_raises detect' image_files e temp [] Hesc)
      as Hr.
    subst kept.
    destruct (process_images detect' image_files temp []) as [temp' r].
    simpl in *. subst r. by rewrite with_folder_twice.
  - destruct (combine_after_images detect' image_files chapter_json
                chapter_dir (faults chapter_json) temp (out_files out) Hesc)
      as (temp' & E & Hc).
    subst kept. rewrite E. cbn [fst snd]. rewrite with_folder_twice.
    cbn [out_files with_folder] in *.
    rewrite truthy_length, length_map, <- truthy_length in *.
    destruct (truthy (survivors detect' image_files)); [|done].
    rewrite Hc. by destruct (write_json _ _ _ _).
Qed.
End magi_facts.

Section aggregator_facts.
Import PyStr Tree Output Magi.
Local Open Scope string_scope.
Local Open Scope list_scope.

End aggregator_facts.

Section aggregator_claims.
Import PyStr Tree Output Magi.
Local Open Scope string_scope.
Local Open Scope list_scope.

(** C2 (code defect): an 800x800 page stored as [01.webp].  The
    enumeration takes it, MAGI does not resize it and reports the
    full-page box [[0,0,800,800]]; the aggregator looks for the image
    under [.jpg], [.jpeg] and [.png] only, falls back to 800x1200,
    takes 533x800 as denominators and, having no clamp, writes
    [w = 1.501] into the document.  [add_normalized_panel_to_page],
    which clamps, stores 1 for the same box and denominators. *)
Theorem unclamped_panel_in_written_document :
  process_with_magi
    (fun _ => Exited 0 (Some (PanelsDoc [[0; 0; 800; 800]%Z])))
    (fun _ => NoFault) (fun _ => Removed)
    (Dir "vol" [File "01.webp" (Some (800, 800)%Z)]) (mk_output ∅ ∅)
  = (mk_output
       {[ "vol.json" :=
            Whole (ChapterJson
                     (mk_chapter "rtl" 1
                        [mk_page 1 "01.jpg" [mk_panel 0 0 1501 1000]])) ]}
       ∅,
     Return true) /\
  ~ Normalizer.panel_in_unit_square (mk_panel 0 0 1501 1000) /\
  ~ Normalizer.panel_inside_page (mk_panel 0 0 1501 1000) /\
  Normalizer.add_normalized_panel_to_page [] 0 0 800 800 533 800
  = Some [mk_panel 0 0 1000 1000].
Proof.
  split; [by vm_compute|].
  unfold Normalizer.panel_in_unit_square, Normalizer.panel_inside_page.
  simpl. split; [lia|]. split; [lia|]. by vm_compute.
Qed.

(** C4 (code defect): a unit of five pages [1.jpg], [2.jpg], [3.jpg],
    [4.jpg], [10.jpg].  The enumeration puts them in the order
    [1, 10, 2, 3, 4]; the third one, [2.jpg], times out.  The timeout is
    a skip and the document has four pages numbered 1 to 4, but the
    aggregator sorts the result files [1_panels.json] and
    [10_panels.json] by name, and page 1 is [10.jpg], page 2 is [1.jpg]:
    the survivors are not numbered in the order of the enumeration. *)
Theorem pages_follow_result_file_names :
  let unit_dir :=
    Dir "ch" [File "1.jpg" (Some (600, 800)%Z);
              File "2.jpg" (Some (600, 800)%Z);
              File "3.jpg" (Some (600, 800)%Z);
              File "4.jpg" (Some (600, 800)%Z);
              File "10.jpg" (Some (600, 800)%Z)] in
  let detect := fun image_file : path =>
    if decide (image_file = ["2.jpg"]) then TimeoutExpired
    else Exited 0 (Some (PanelsDoc [])) in
  image_files_rglob unit_dir
  = [["1.jpg"]; ["10.jpg"]; ["2.jpg"]; ["3.jpg"]; ["4.jpg"]] /\
  survivors detect (image_files_rglob unit_dir)
  = [["1.jpg"]; ["10.jpg"]; ["3.jpg"]; ["4.jpg"]] /\
  process_with_magi detect (fun _ => NoFault) (fun _ => Removed) unit_dir
                    (mk_output ∅ ∅)
  = (mk_output
       {[ "ch.json" :=
            Whole (ChapterJson
                     (mk_chapter "rtl" 4
                        [mk_page 1 "10.jpg" []; mk_page 2 "1.jpg" [];
                         mk_page 3 "3.jpg" []; mk_page 4 "4.jpg" []])) ]}
       ∅,
     Return true).
Proof. by vm_compute. Qed.


Local Abbreviation mixed_unit :=
  (fun p : path =>
     match p with
     | ["01.jpg"] => Exited 0 (Some (PanelsDoc [[0; 0; 300; 400]%Z]))
     | ["02.jpg"] => TimeoutExpired
     | _ => Exited 0 (Some (PanelsDoc []))
     end).


(** The mixed unit of the witness: the page of [01.jpg] has its panel,
    [02.jpg] has no entry, and the page of [03.jpg] is there with an
    empty list. *)
Example mixed_unit_document :
  process_with_magi mixed_unit (fun _ => NoFault) (fun _ => Removed)
    (Dir "vol" [File "01.jpg" (Some (600, 800)%Z);
                File "02.jpg" (Some (600, 800)%Z);
                File "03.jpg" (Some (600, 800)%Z)])
    (mk_output ∅ ∅)
  = (mk_output
       {[ "vol.json" :=
            Whole (ChapterJson
                     (mk_chapter "rtl" 2
                        [mk_page 1 "01.jpg" [mk_panel 0 0 500 500];
                         mk_page 2 "03.jpg" []])) ]}
       ∅,
     Return true).
Proof. by vm_compute. Qed.

(** The aggregator of the Kumiko pipeline stores the quotients as they
    are: a box [[100,100,900,400]] on a 533x800 page keeps
    [x = 0.18761726078799248], not [0.188], and a width above 1. *)
Example kumiko_stores_quotients :
  exists x y w h,
    Kumiko.preprocess_page_data
      (mk_kumiko_page_data (Some "01.jpg") None None (Some [533; 800]%Z)
                           (Some [PanelList [100; 100; 900; 400]%Z])) 1
    = Some (mk_kumiko_page 1 (Some "01.jpg") [(x, y, w, h)]) /\
    (x == 6759624206184609 # 36028797018963968)%Q /\ (1 < w)%Q.
Proof.
  eexists _, _, _, _. split; [by vm_compute|]. split; reflexivity.
Qed.

End aggregator_claims.
(** ** Chapter index and document writes *)

Section index_facts.
Import PyStr Tree Output Magi.
Local Open Scope list_scope.

Lemma string_length_app (a b : string) :
  String.length (a ++ b)%string = (String.length a + String.length b)%nat.
Proof. induction a as [|c a IH]; simpl; [done|]. by rewrite IH. Qed.

Lemma string_app_inv_tail (a b c : string) :
  (a ++ c = b ++ c)%string -> a = b.
Proof.
  revert b. induction a as [|x a IH]; intros [|y b] H.
  - done.
  - apply (f_equal String.length) in H.
    rewrite !string_length_app in H. simpl in H. lia.
  - apply (f_equal String.length) in H.
    rewrite !string_length_app in H. simpl in H. lia.
  - change (String x (a ++ c) = String y (b ++ c))%string in H.
    injection H as -> H. f_equal. by apply IH.
Qed.

Lemma chapter_json_name_inj folder_name c1 c2 :
  chapter_json_name folder_name c1 = chapter_json_name folder_name c2 ->
  node_name c1 = node_name c2.
Proof.
  unfold chapter_json_name. intros H.
  apply (inj (String.app folder_name)) in H.
  apply (inj (String.app "_")) in H.
  by apply string_app_inv_tail in H.
Qed.

Lemma chapter_json_name_not_master folder_name c :
  chapter_json_name folder_name c <> (folder_name ++ ".json")%string.
Proof.
  unfold chapter_json_name. intros H.
  apply (inj (String.app folder_name)) in H. discriminate.
Qed.

Lemma write_json_frame fs output_json d fault k :
  k <> output_json ->
  (write_json fs output_json d fault).1 !! k = fs !! k.
Proof.
  intros Hk. destruct fault; simpl; try done; by rewrite lookup_insert_ne.
Qed.

Lemma write_json_true fs output_json d fault fs' :
  write_json fs output_json d fault = (fs', true) ->
  fault = NoFault /\ fs' = <[output_json := Whole d]> fs.
Proof. destruct fault; simpl; intros [= <-]; done. Qed.

Lemma rmtree_frame {T} (how : rmtree_result T) name folders k :
  k <> name -> rmtree how name folders !! k = folders !! k.
Proof.
  intros Hk. destruct how; simpl.
  - by apply lookup_delete_ne.
  - by apply lookup_insert_ne.
Qed.

Section loop.
Context (detect : path -> detection) (faults : string -> write_fault)
        (cleanup : string -> rmtree_result panels_json)
        (folder_name : string).

Local Abbreviation json := (chapter_json_name folder_name).
Local Abbreviation temp_dir := (chapter_temp_name folder_name).
Local Abbreviation step := (process_chapter detect faults cleanup folder_name).
Local Abbreviation loop :=
  (process_chapters detect faults cleanup folder_name).
Local Abbreviation written := (chapter_written detect faults folder_name).

(** One turn of the loop changes the file of its chapter and the
    temporary directory of its chapter, nothing else; when it returns,
    the counter has gone up exactly if the chapter was written. *)
Lemma process_chapter_effect out n c :
  (forall k, k <> json c ->
             out_files (step out n c).1 !! k = out_files out !! k) /\
  (forall k, k <> temp_dir c ->
             out_folders (step out n c).1 !! k = out_folders out !! k) /\
  (forall n', (step out n c).2 = Return n' ->
              n' = if written c then S n else n).
Proof.
  rewrite process_chapter_spec. unfold chapter_written.
  destruct (out_files out !! temp_dir c); [by repeat split|].
  destruct (first_escape _ _).
  { repeat split; try done.
    intros k Hk. simpl. by rewrite lookup_insert_ne. }
  destruct (truthy (survivors _ _)).
  - pose proof (write_json_frame (out_files out) (json c)
      (document_of (chapter_detect detect c) (image_files_glob c)
                   (folder_content out (temp_dir c)) c)
      (faults (json c))) as Hw.
    destruct (write_json _ _ _ _) as [fs ok] eqn:Ew. simpl in *.
    repeat split.
    + exact Hw.
    + intros k Hk. rewrite rmtree_frame by done.
      by rewrite lookup_insert_ne.
    + intros n' [= <-]. destruct (faults (json c)); simpl in *;
        by injection Ew as <- <-.
  - repeat split; try done.
    + intros k Hk. simpl. by rewrite lookup_insert_ne.
    + by intros n' [= <-].
Qed.

(** The loop leaves every file that is not a chapter file, and every
    subdirectory that is not the temporary directory of a chapter, as
    it was. *)
Lemma process_chapters_frame chapter_dirs : forall out n,
  (forall k, k ∉ List.map json chapter_dirs ->
             out_files (loop chapter_dirs out n).1 !! k = out_files out !! k) /\
  (forall k, k ∉ List.map temp_dir chapter_dirs ->
             out_folders (loop chapter_dirs out n).1 !! k
             = out_folders out !! k).
Proof.
  induction chapter_dirs as [|c l IH]; intros out n; [done|].
  cbn [process_chapters List.map].
  destruct (process_chapter_effect out n c) as (Hf & Hd & _).
  destruct (step out n c) as [out1 [n1|e]]; simpl in *.
  - destruct (IH out1 n1) as [IHf IHd]. split; intros k Hk.
    + rewrite IHf by (intros ?; apply Hk; by right).
      apply Hf. intros ->. apply Hk. by left.
    + rewrite IHd by (intros ?; apply Hk; by right).
      apply Hd. intros ->. apply Hk. by left.
  - split; intros k Hk.
    + apply Hf. intros ->. apply Hk. by left.
    + apply Hd. intros ->. apply Hk. by left.
Qed.

(** When the loop returns, its counter has gone up by the number of
    chapters written to their end. *)
Lemma process_chapters_count chapter_dirs : forall out n n',
  (loop chapter_dirs out n).2 = Return n' ->
  n' = (n + length (written_chapters detect faults folder_name
                                     chapter_dirs))%nat.
Proof.
  unfold written_chapters.
  induction chapter_dirs as [|c l IH]; intros out n n'.
  - simpl. intros [= <-]. lia.
  - cbn [process_chapters List.filter].
    destruct (process_chapter_effect out n c) as (_ & _ & Hn).
    destruct (step out n c) as [out1 [n1|e]]; simpl in *; [|done].
    intros H%IH. rewrite (Hn n1 eq_refl) in H.
    destruct (written c); simpl; lia.
Qed.
(** What the index loop reads at the path of a chapter. *)
Lemma index_entries_cons c chapter_dirs (fs : gmap string file_content) :
  index_entries folder_name (c :: chapter_dirs) fs
  = match fs !! json c ≫= read_total_pages with
    | Some pages => [mk_entry (node_name c) (json c) pages]
    | None => []
    end ++ index_entries folder_name chapter_dirs fs.
Proof.
  unfold index_entries. cbn [flat_map]. f_equal.
  by destruct (fs !! json c).
Qed.

(** After its turn, the file of a chapter that was written holds a
    document with one page per surviving image; where nothing readable
    lay at the path of a chapter that was not written, nothing readable
    lies there afterwards. *)
Lemma process_chapter_file out n c n' :
  (step out n c).2 = Return n' ->
  (written c = false ->
   out_files out !! json c ≫= read_total_pages = None) ->
  out_files (step out n c).1 !! json c ≫= read_total_pages
  = if written c
    then Some (length (survivors (chapter_detect detect c)
                                 (image_files_glob c)))
    else None.
Proof.
  rewrite process_chapter_spec. unfold chapter_written.
  destruct (out_files out !! temp_dir c); [done|].
  destruct (first_escape _ _); [done|].
  destruct (truthy (survivors _ _)); simpl.
  - destruct (faults (json c)); simpl; intros _ Hold.
    + by rewrite lookup_insert_eq.
    + by apply Hold.
    + by rewrite lookup_insert_eq.
  - intros _ Hold. by apply Hold.
Qed.

(** In a run whose loop returns, and that finds nothing readable at the
    path of a chapter it does not write, the entries of the index are
    the chapters written in this run, in their order, each with the
    number of its pages: as many entries as the counter says. *)
Lemma index_entries_of_run chapter_dirs : forall out n out' n',
  NoDup (List.map node_name chapter_dirs) ->
  (forall c, c ∈ chapter_dirs -> written c = false ->
             out_files out !! json c ≫= read_total_pages = None) ->
  loop chapter_dirs out n = (out', Return n') ->
  index_entries folder_name chapter_dirs (out_files out')
  = List.map
      (fun c => mk_entry (node_name c) (json c)
                  (length (survivors (chapter_detect detect c)
                                     (image_files_glob c))))
      (written_chapters detect faults folder_name chapter_dirs).
Proof.
  unfold written_chapters.
  induction chapter_dirs as [|c l IH]; intros out n out' n' Hnd Hold Hrun;
    [done|].
  apply NoDup_cons in Hnd as [Hc Hl].
  assert (Hjson : forall c', c' ∈ l -> json c' <> json c).
  { intros c' Hin Heq. apply Hc. apply chapter_json_name_inj in Heq.
    rewrite <- Heq. by apply list_elem_of_In, in_map, list_elem_of_In. }
  cbn [process_chapters] in Hrun.
  destruct (process_chapter_effect out n c) as (Hf & _ & _).
  pose proof (process_chapter_file out n c) as Hfile.
  destruct (step out n c) as [out1 [n1|e]]; cbn [fst snd] in *; [|done].
  destruct (process_chapters_frame l out1 n1) as [Hrest _].
  rewrite Hrun in Hrest. cbn [fst] in Hrest.
  rewrite index_entries_cons. rewrite Hrest.
  2:{ intros Hin. apply list_elem_of_In, in_map_iff in Hin
        as (c' & Heq & Hin). apply list_elem_of_In in Hin.
      by apply (Hjson c'). }
  rewrite (Hfile n1 eq_refl) by (apply Hold; by left).
  rewrite (IH out1 n1 out' n' Hl); [|
    intros c' Hin Hw; rewrite Hf by (by apply Hjson);
    apply Hold; [by right|done] | done].
  cbn [List.filter]. by destruct (written c).
Qed.
End loop.
End index_facts.

Section index_claims.
Import PyStr Tree Output Magi.
Local Open Scope string_scope.
Local Open Scope list_scope.

Lemma NoDup_chapter_json_names folder_name (chapter_dirs : list node) :
  NoDup (List.map node_name chapter_dirs) ->
  NoDup (List.map (chapter_json_name folder_name) chapter_dirs).
Proof.
  induction chapter_dirs as [|c l IH]; simpl; [done|].
  intros [Hc Hl]%NoDup_cons. apply NoDup_cons. split; [|by apply IH].
  intros Hin. apply Hc.
  apply list_elem_of_In, in_map_iff in Hin as (c' & Heq & Hin).
  apply chapter_json_name_inj in Heq. rewrite <- Heq.
  by apply list_elem_of_In, in_map.
Qed.

(** The index of the Kumiko pipeline, when it is written, has the
    entries of the MAGI one. *)
Lemma kumiko_chapters_data_entries folder_name (chapter_dirs : list node)
    (fs : gmap string file_content) entries :
  Kumiko.chapters_data folder_name chapter_dirs fs = Some entries ->
  entries = index_entries folder_name chapter_dirs fs.
Proof.
  revert entries. induction chapter_dirs as [|c l IH]; simpl; intros entries.
  - by intros [= <-].
  - destruct (fs !! chapter_json_name folder_name c) as [content|];
      [|apply IH].
    destruct (read_total_pages content) as [n|]; simpl; [|done].
    destruct (Kumiko.chapters_data folder_name l fs) as [rest|]; simpl;
      [|done].
    intros [= <-]. by rewrite (IH rest).
Qed.

(** The index of a run that finds nothing readable at the path of a
    chapter it does not write, as in a new output directory: one entry
    per chapter written in this run, and [total_chapters] their
    number. *)
Lemma index_of_written_chapters (detect : path -> detection)
    (faults : string -> write_fault)
    (cleanup : string -> rmtree_result panels_json)
    (folder_path : node) (out : output_dir panels_json) :
  let folder_name := node_name folder_path in
  let chapter_dirs := chapter_dirs_of folder_path in
  let written := written_chapters detect faults folder_name chapter_dirs in
  let run :=
    process_chapter_based_archive detect faults cleanup folder_path out in
  NoDup (List.map node_name chapter_dirs) ->
  (forall c, c ∈ chapter_dirs ->
     chapter_written detect faults folder_name c = false ->
     out_files out !! chapter_json_name folder_name c ≫= read_total_pages
     = None) ->
  run.2 = Return true ->
  out_files run.1 !! (folder_name ++ ".json")%string
  = Some (Whole (IndexJson
       (mk_index folder_name (length written)
          (List.map
             (fun c => mk_entry (node_name c)
                         (chapter_json_name folder_name c)
                         (length (survivors (chapter_detect detect c)
                                            (image_files_glob c))))
             written)
          "rtl"))).
Proof.
  intros folder_name chapter_dirs written run Hnd Hold. subst run.
  unfold process_chapter_based_archive.
  fold folder_name chapter_dirs.
  destruct (truthy chapter_dirs); [|done].
  pose proof (process_chapters_count detect faults cleanup folder_name
                chapter_dirs out 0) as Hn.
  pose proof (index_entries_of_run detect faults cleanup folder_name
                chapter_dirs out 0) as He.
  destruct (process_chapters _ _ _ _ _ _ _) as [out' [n|e]];
    cbn [fst snd] in *; [|done].
  specialize (Hn n eq_refl). specialize (He out' n Hnd Hold eq_refl).
  destruct (n =? 0)%nat; [done|].
  unfold write_master_index. rewrite He. fold written in Hn |- *.
  destruct (write_json _ _ _ _) as [fs ok] eqn:Ew. cbn [fst snd].
  intros [= ->]. apply write_json_true in Ew as [_ ->].
  cbn [out_files]. rewrite lookup_insert_eq. by rewrite Hn.
Qed.

Local Abbreviation kumiko_page_of name :=
  (PagesArray
     [mk_kumiko_page_data (Some name) None None (Some [600; 800]%Z)
                          (Some [PanelList [0; 0; 300; 400]%Z])]).

(** C9 (code defect): a second run over [vol] in an output directory
    where a first run left [vol_ch2.json] with three pages.  In this run
    every image of [ch2] times out and no document is written for it:
    the only chapter written is [ch1].  The index is built from the
    chapter files that exist, not from the chapters written: it lists
    [ch2] as well, with the three pages of the old file, while its
    [total_chapters], the counter of this run, is 1 for two entries.
    Both pipelines do so. *)
Theorem stale_chapter_file_enters_index :
  let old :=
    Whole (ChapterJson
             (mk_chapter "rtl" 3
                [mk_page 1 "01.jpg" []; mk_page 2 "02.jpg" [];
                 mk_page 3 "03.jpg" []])) in
  let detect := fun image_file : path =>
    match image_file with
    | "ch2" :: _ => TimeoutExpired
    | _ => Exited 0 (Some (PanelsDoc []))
    end in
  let kumiko_detect := fun (image_file : path) (rtl : bool) =>
    match image_file with
    | "ch2" :: _ => KTimeoutExpired None
    | _ => KExited 0 (Some (kumiko_page_of (path_name image_file)))
    end in
  let ch1 := Dir "ch1" [File "01.jpg" None; File "02.jpg" None] in
  let vol := Dir "vol" [ch1; Dir "ch2" [File "01.jpg" None]] in
  let stale_index :=
    Whole (IndexJson
             (mk_index "vol" 1
                [mk_entry "ch1" "vol_ch1.json" 2;
                 mk_entry "ch2" "vol_ch2.json" 3]
                "rtl")) in
  let magi_run :=
    process_chapter_based_archive detect (fun _ => NoFault)
      (fun _ => Removed) vol (mk_output {[ "vol_ch2.json" := old ]} ∅) in
  let kumiko_run :=
    KumikoRun.process_chapter_based_archive kumiko_detect (fun _ => NoFault)
      (fun _ => Removed) vol (mk_output {[ "vol_ch2.json" := old ]} ∅) in
  written_chapters detect (fun _ => NoFault) "vol" (chapter_dirs_of vol)
  = [ch1] /\
  magi_run.2 = Return true /\
  out_files magi_run.1 !! "vol_ch2.json" = Some old /\
  out_files magi_run.1 !! "vol.json" = Some stale_index /\
  kumiko_run.2 = Return true /\
  out_files kumiko_run.1 !! "vol_ch2.json" = Some old /\
  out_files kumiko_run.1 !! "vol.json" = Some stale_index.
Proof. vm_compute. repeat split; reflexivity. Qed.

Lemma write_json_outcome (fs : gmap string file_content) output_json d fault :
  write_outcome output_json d fault fs (write_json fs output_json d fault).
Proof.
  unfold write_outcome. destruct fault; simpl.
  - split; [intros k Hk; by rewrite lookup_insert_ne|].
    by rewrite lookup_insert_eq.
  - done.
  - split; [intros k Hk; by rewrite lookup_insert_ne|].
    by rewrite lookup_insert_eq.
Qed.

(** C10 (amended): each of the four writers, when it has a document to
    write, leaves and returns what [write_outcome] says of that
    document: a write that runs to its end leaves the whole document at
    the output path and the writer returns [True]; a write that raises
    is caught and the writer returns [False], the path being as it was
    when [open] raised and holding the first bytes of the new document,
    what it held before being lost, when the exception came later.  No
    other path changes.  A writer that has nothing to write returns
    [False] and changes nothing. *)
Theorem document_write_outcomes
    (json_files : list string) (output_json : string)
    (temp : gmap string panels_json) (folder_path : node)
    (kumiko_files : list string) (kumiko_temp : gmap string kumiko_json)
    (folder_name : string) (chapter_dirs : list node)
    (successful_chapters : nat)
    (fault : write_fault) (fs : gmap string file_content) :
  let pages := pages_data json_files temp folder_path in
  let collected :=
    Kumiko.collect_pages kumiko_temp 1
                         (PySort.sort id String.leb kumiko_files) in
  let kumiko_pages := PySort.sort kumiko_page_num Kumiko.Zleb collected in
  let master_json := (folder_name ++ ".json")%string in
  (if truthy pages
   then write_outcome output_json
          (ChapterJson (mk_chapter "rtl" (length pages) pages)) fault fs
          (combine_jsons_to_final_json json_files output_json temp
                                       folder_path fault fs)
   else combine_jsons_to_final_json json_files output_json temp
                                    folder_path fault fs = (fs, false)) /\
  (if truthy collected
   then write_outcome output_json
          (KumikoChapterJson (length kumiko_pages) kumiko_pages) fault fs
          (Kumiko.combine_jsons_to_json kumiko_files output_json kumiko_temp
                                        fault fs)
   else Kumiko.combine_jsons_to_json kumiko_files output_json kumiko_temp
                                     fault fs = (fs, false)) /\
  write_outcome master_json
    (IndexJson (mk_index folder_name successful_chapters
                  (index_entries folder_name chapter_dirs fs) "rtl"))
    fault fs
    (write_master_index folder_name chapter_dirs successful_chapters
                        fault fs) /\
  match Kumiko.chapters_data folder_name chapter_dirs fs with
  | Some entries =>
      write_outcome master_json
        (IndexJson (mk_index folder_name successful_chapters entries "rtl"))
        fault fs
        (Kumiko.write_master_index folder_name chapter_dirs
                                   successful_chapters fault fs)
  | None =>
      Kumiko.write_master_index folder_name chapter_dirs
                                successful_chapters fault fs = (fs, false)
  end.
Proof.
  intros pages collected kumiko_pages master_json.
  split; [|split; [|split]].
  - unfold combine_jsons_to_final_json. fold pages.
    assert (Ht : truthy (existing_json_files json_files temp) = truthy pages).
    { subst pages. unfold pages_data.
      by rewrite !truthy_length, enumerate_from_length. }
    rewrite Ht. destruct (truthy pages); [|done].
    apply write_json_outcome.
  - unfold Kumiko.combine_jsons_to_json. fold collected.
    destruct (truthy collected); [|done]. apply write_json_outcome.
  - apply write_json_outcome.
  - unfold Kumiko.write_master_index.
    destruct (Kumiko.chapters_data _ _ _); [|done].
    apply write_json_outcome.
Qed.

(** C10 (counterexample): [vol.json] holds the document of an earlier
    run; the new document is being written when the writing raises
    after 10 bytes.  The aggregator returns [False] and [vol.json] is
    left with the first 10 bytes of the new document: neither the old
    document nor the new one. *)
Lemma failed_write_leaves_truncated_file :
  let old :=
    ChapterJson
      (mk_chapter "rtl" 1 [mk_page 1 "01.jpg" [mk_panel 0 0 500 500]]) in
  let new := ChapterJson (mk_chapter "rtl" 1 [mk_page 1 "01.jpg" []]) in
  combine_jsons_to_final_json ["01_panels.json"] "vol.json"
    {[ "01_panels.json" := PanelsDoc [] ]}
    (Dir "vol" [File "01.jpg" None])
    (DumpRaisesAfter 10)
    {[ "vol.json" := Whole old ]}
  = ({[ "vol.json" := Truncated new 10 ]}, false) /\
  Truncated new 10 <> Whole old /\ Truncated new 10 <> Whole new.
Proof. split; [by vm_compute | split; discriminate]. Qed.
End index_claims.
(** ** Names and suffixes *)

Section name_facts.
Import PyStr Input.
Local Open Scope string_scope.

Lemma string_app_cons c (s t : string) : String c s ++ t = String c (s ++ t).
Proof. reflexivity. Qed.

Lemma string_app_nil_r (s : string) : s ++ "" = s.
Proof.
  induction s as [|c s IH]; [reflexivity|].
  by rewrite string_app_cons, IH.
Qed.

Lemma string_app_assoc (a b c : string) : (a ++ b) ++ c = a ++ (b ++ c).
Proof.
  induction a as [|x a IH]; [reflexivity|].
  by rewrite !string_app_cons, IH.
Qed.

Lemma rev_app_app (a : string) : forall b c,
  String.rev_app (a ++ b) c = String.rev_app b (String.rev_app a c).
Proof.
  induction a as [|x a IH]; intros b c; [reflexivity|].
  rewrite string_app_cons. simpl. apply IH.
Qed.

Lemma rev_app_rev_app (a : string) : forall b c,
  String.rev_app (String.rev_app a b) c = String.rev_app b (a ++ c).
Proof.
  induction a as [|x a IH]; intros b c; [reflexivity|].
  simpl. rewrite IH. reflexivity.
Qed.

Lemma rev_involutive (a : string) : String.rev (String.rev a) = a.
Proof.
  unfold String.rev. rewrite rev_app_rev_app. simpl. apply string_app_nil_r.
Qed.

Lemma rev_empty (a : string) : String.rev a = "" -> a = "".
Proof.
  intros H. rewrite <- (rev_involutive a), H. reflexivity.
Qed.

Lemma rsplit_dot_rev_app (e : string) : forall rest acc,
  dotless e = true ->
  rsplit_dot (String.rev_app e rest) acc = rsplit_dot rest (e ++ acc).
Proof.
  induction e as [|c e IH]; intros rest acc He; [reflexivity|].
  simpl in He. apply andb_true_iff in He as [Hc He].
  simpl. rewrite IH by assumption. simpl.
  apply negb_true_iff in Hc. rewrite Hc. by rewrite string_app_cons.
Qed.

Lemma rsplit_dot_ext (s e : string) :
  dotless e = true ->
  rsplit_dot (String.rev (s ++ "." ++ e)) ""
  = Some ("." ++ e, String.rev s).
Proof.
  intros He. unfold String.rev. rewrite rev_app_app.
  change ("." ++ e) with (String "." e). simpl String.rev_app at 1.
  rewrite rsplit_dot_rev_app by assumption. simpl.
  by rewrite string_app_nil_r.
Qed.

(** [PurePath.suffix] and [PurePath.stem] split a name at its last
    dot. *)
Lemma suffix_ext (s e : string) :
  dotless e = true -> s <> "" -> e <> "" ->
  suffix (s ++ "." ++ e) = "." ++ e /\ stem (s ++ "." ++ e) = s.
Proof.
  intros He Hs He'. unfold suffix, stem. rewrite rsplit_dot_ext by assumption.
  assert (String.eqb (String.rev s) "" = false) as ->.
  { apply String.eqb_neq. intros H. by apply Hs, rev_empty. }
  assert (String.eqb ("." ++ e) "." = false) as ->.
  { apply String.eqb_neq. destruct e; [done|]. discriminate. }
  simpl. by rewrite rev_involutive.
Qed.
End name_facts.

(** ** Archives at the entry point *)

Section input_facts.
Import PyStr Tree Extract Input.
Local Open Scope string_scope.
Local Open Scope list_scope.

Lemma lower_ascii_dot c : lower_ascii c = "."%char -> c = "."%char.
Proof.
  destruct c as [[] [] [] [] [] [] [] []]; vm_compute; congruence.
Qed.

Lemma dotless_lower e : dotless e = true -> dotless (lower e) = true.
Proof.
  induction e as [|c e IH]; [done|]. simpl.
  intros [Hc He]%andb_true_iff. apply andb_true_iff.
  split; [|by apply IH].
  apply negb_true_iff, Ascii.eqb_neq.
  intros H%lower_ascii_dot. subst c. discriminate.
Qed.

Lemma rsplit_dot_shape r : forall acc suf before,
  dotless acc = true ->
  rsplit_dot r acc = Some (suf, before) ->
  exists e, suf = String "." e /\ dotless e = true.
Proof.
  induction r as [|c r IH]; intros acc suf before Hacc; simpl; [done|].
  destruct (Ascii.eqb c ".") eqn:Hc.
  - intros [= <- <-]. eauto.
  - apply IH. simpl. by rewrite Hc, Hacc.
Qed.

(** A suffix is empty or a dot followed by a part without a dot. *)
Lemma suffix_shape name :
  suffix name = "" \/ exists e, suffix name = String "." e /\ dotless e = true.
Proof.
  unfold suffix.
  destruct (rsplit_dot (String.rev name) "") as [[suf before]|] eqn:E;
    [|by left].
  destruct (_ || _); [by left|]. right.
  by apply (rsplit_dot_shape (String.rev name) "" suf before).
Qed.

Lemma lower_suffix_shape name :
  lower (suffix name) = ""
  \/ exists e, lower (suffix name) = String "." e /\ dotless e = true.
Proof.
  destruct (suffix_shape name) as [->|(e & -> & He)]; [by left|right].
  exists (lower e). split; [reflexivity|]. by apply dotless_lower.
Qed.

Lemma in_list_cons s x l :
  in_list s (x :: l) = String.eqb s x || in_list s l.
Proof. reflexivity. Qed.

Lemma is_archive_single_suffix name :
  is_archive name
  = in_list (lower (suffix name))
      [".cbz"; ".zip"; ".rar"; ".7z"; ".tar"; ".tgz"; ".tbz2"; ".txz"].
Proof.
  unfold is_archive.
  destruct (lower_suffix_shape name) as [->|(e & -> & He)]; [reflexivity|].
  rewrite !in_list_cons.
  assert (Hno : forall s, dotless s = false ->
                          String.eqb (String "." e) (String "." s) = false).
  { intros s Hs. apply String.eqb_neq. intros [= ->]. congruence. }
  rewrite (Hno "tar.gz"), (Hno "tar.bz2"), (Hno "tar.xz") by reflexivity.
  by rewrite !orb_false_r, ?orb_false_l.
Qed.
End input_facts.

Section input_properties.
Import PyStr Tree Extract Input.
Local Open Scope list_scope.
Local Open Scope string_scope.

Context {T : Type}
        (process_chapter_based_archive process_flat :
           node -> output_dir T -> output_dir T * outcome).

Local Abbreviation process_input' :=
  (process_input process_chapter_based_archive process_flat).

Local Ltac in_list_cases H :=
  unfold in_list in H; simpl in H;
  repeat match type of H with
         | context [String.eqb ?a ?b] =>
             let E := fresh "E" in
             destruct (String.eqb_spec a b) as [E|E];
             [try rewrite E in *|]; simpl in H
         end.

(** X2: [is_archive] looks at the last suffix only, so that its entries
    [.tar.gz], [.tar.bz2] and [.tar.xz] never match: a file with such a
    name, whatever precedes the double extension, is not an archive, and
    [process_input] turns it down without extracting anything. *)
Theorem compressed_tarball_not_an_archive
    (env : tools) (blocked : bool) (extracted : list node)
    (stem ext : string) (size : option (Z * Z)) (out : output_dir T) :
  in_list ext [".tar.gz"; ".tar.bz2"; ".tar.xz"] = true ->
  is_archive (stem ++ ext) = false /\
  process_input' env blocked extracted (Some (File (stem ++ ext) size)) out
  = (out, Return false).
Proof.
  intros Hext.
  assert (Ha : is_archive (stem ++ ext) = false).
  { unfold is_archive. in_list_cases Hext; try discriminate.
    - change ".tar.gz" with (".tar" ++ "." ++ "gz").
      rewrite <- string_app_assoc.
      destruct (suffix_ext (stem ++ ".tar") "gz") as [-> _]; try done.
      by destruct stem.
    - change ".tar.bz2" with (".tar" ++ "." ++ "bz2").
      rewrite <- string_app_assoc.
      destruct (suffix_ext (stem ++ ".tar") "bz2") as [-> _]; try done.
      by destruct stem.
    - change ".tar.xz" with (".tar" ++ "." ++ "xz").
      rewrite <- string_app_assoc.
      destruct (suffix_ext (stem ++ ".tar") "xz") as [-> _]; try done.
      by destruct stem. }
  split; [exact Ha|]. unfold process_input. simpl. by rewrite Ha.
Qed.

(** X3: when the content is not recognised ([file] is missing, fails or
    prints something else), [extract_archive] has a strategy for
    [.cbz], [.zip], [.rar], [.gz] and [.gzip] only.  The other names
    [is_archive] lets through ([.7z], [.tar], [.tgz], [.tbz2], [.txz])
    end in "Unsupported format": no tool is started and
    [process_input] returns [False], the output directory being as it
    was; when a file has the name of the extraction folder its [mkdir]
    raises [FileExistsError] before anything is extracted. *)
Theorem undetected_archive_without_strategy
    (env : tools) (extracted : list node) (input : node)
    (out : output_dir T) :
  detect_file_type (run_file env) = Return None ->
  is_archive (node_name input) = true ->
  in_list (lower (suffix (node_name input))) [".cbz"; ".zip"; ".rar"]
  = false ->
  extract_archive env (node_name input)
  = mk_extraction [] [UnsupportedFormat (lower (suffix (node_name input)))]
                  (Return false) /\
  process_input' env false extracted (Some input) out
  = (out, Return false) /\
  process_input' env true extracted (Some input) out
  = (out, Raise RaisedFileExistsError).
Proof.
  intros Hd Ha Hs.
  assert (He : extract_archive env (node_name input)
               = mk_extraction []
                   [UnsupportedFormat (lower (suffix (node_name input)))]
                   (Return false)).
  { unfold extract_archive. rewrite Hd.
    rewrite is_archive_single_suffix in Ha.
    set (s := lower (suffix (node_name input))) in *.
    in_list_cases Ha; try discriminate; reflexivity. }
  split; [exact He|]. unfold process_input. rewrite Ha, He. by split.
Qed.

(** X4: an exception leaves [extract_archive] only out of a
    [subprocess.run] whose error no handler of the branch catches: the
    [file] command raising something else than [CalledProcessError] and
    [FileNotFoundError], nothing being started then; [tar -xzf] of the
    gzip strategy or [tar -xf] of the tar strategy when the binary is
    missing or the call raises something else; [unrar] or [7z] raising
    something else than the two errors their branches handle.  The zip
    strategy and the [gunzip] fallback let nothing out, and a
    [CalledProcessError] never leaves.  [process_input] has no handler:
    it passes the exception on, as it does with the [FileExistsError]
    of its own [mkdir], the output directory being as it was. *)
Theorem extraction_exceptions_come_from_tools
    (env : tools) (extracted : list node) (input : node)
    (out : output_dir T) (e : exn) :
  is_archive (node_name input) = true ->
  ended (extract_archive env (node_name input)) = Raise e ->
  let ran := started (extract_archive env (node_name input)) in
  ((ran = [] /\ run_file env = OtherError /\ e = RaisedOtherError) \/
   (ran = [TarXzf] /\ run_tar_xzf env = FileNotFoundError /\
    e = RaisedFileNotFoundError) \/
   (ran = [TarXzf] /\ run_tar_xzf env = OtherError /\
    e = RaisedOtherError) \/
   (ran = [TarXf] /\ run_tar_xf env = FileNotFoundError /\
    e = RaisedFileNotFoundError) \/
   (ran = [TarXf] /\ run_tar_xf env = OtherError /\ e = RaisedOtherError) \/
   (ran = [Unrar] /\ run_unrar env = OtherError /\ e = RaisedOtherError) \/
   (ran = [SevenZip] /\ run_7z env = OtherError /\
    e = RaisedOtherError)) /\
  process_input' env false extracted (Some input) out = (out, Raise e) /\
  process_input' env true extracted (Some input) out
  = (out, Raise RaisedFileExistsError).
Proof.
  intros Ha He ran. split; [|split].
  - subst ran. revert He.
    unfold extract_archive, detect_file_type, run_guarded, run_half_guarded.
    destruct (run_file env) eqn:Hfile; simpl;
    repeat match goal with
           | |- context [match ?x with _ => _ end] =>
               destruct x eqn:?; simpl
           end;
      try discriminate; intros [= <-]; naive_solver.
  - unfold process_input. by rewrite Ha, He.
  - unfold process_input. by rewrite Ha.
Qed.

(** X5: the test for tar looks for the three letters anywhere in what
    [file] printed, in any case, and comes before the test for gzip.
    When the output mentions them (the path [file] echoes is enough)
    and is not a zip description, the gzip strategy [tar -xzf] is never
    started: the archive type is rar, 7z or tar, the strategy is chosen
    by the suffix, and a suffix outside the rar, 7z and tar lists ends
    in "Unsupported archive format". *)
Theorem tar_mention_shadows_gzip (env : tools) (name text : string) :
  run_file env = Completed text ->
  contains "tar" (lower text) = true ->
  contains "Zip archive" text = false ->
  detect_file_type (run_file env) <> Return (Some gzip) /\
  ~ In TarXzf (started (extract_archive env name)) /\
  (in_list (lower (suffix name))
     [".rar"; ".7z"; ".tar"; ".tar.gz"; ".tgz"; ".tar.bz2"; ".tbz2";
      ".tar.xz"; ".txz"] = false ->
   extract_archive env name
   = mk_extraction [] [UnsupportedArchiveFormat (lower (suffix name))]
                   (Return false)).
Proof.
  intros Hf Htar Hzip.
  assert (Hd : detect_file_type (run_file env) = Return (Some rar)
               \/ detect_file_type (run_file env) = Return (Some sevenz)
               \/ detect_file_type (run_file env) = Return (Some tar)).
  { rewrite Hf. unfold detect_file_type. rewrite Hzip, Htar.
    destruct (contains "RAR archive" text); [auto|].
    destruct (contains "7-zip" text); auto. }
  split; [destruct Hd as [->|[->| ->]]; discriminate|].
  unfold extract_archive, run_guarded, run_half_guarded.
  set (s := lower (suffix name)).
  assert (Hs : in_list s [".rar"; ".7z"; ".tar"; ".tar.gz"; ".tgz";
                          ".tar.bz2"; ".tbz2"; ".tar.xz"; ".txz"]
               = in_list s [".rar"] || in_list s [".7z"]
                 || in_list s [".tar"; ".tar.gz"; ".tgz"; ".tar.bz2";
                               ".tbz2"; ".tar.xz"; ".txz"]).
  { unfold in_list. simpl. by rewrite !orb_false_r, <- !orb_assoc. }
  rewrite Hs.
  split.
  - destruct Hd as [->|[->| ->]];
      destruct (in_list s [".rar"]), (in_list s [".7z"]),
               (in_list s [".tar"; _; _; _; _; _; _]); simpl;
      try destruct (run_unrar env); try destruct (run_7z env);
      try destruct (run_tar_xf env); simpl; intuition discriminate.
  - intros [[H1 H2]%orb_false_iff H3]%orb_false_iff.
    rewrite H1, H2, H3. by destruct Hd as [->|[->| ->]].
Qed.
End input_properties.

Section input_witnesses.
Import PyStr Tree Extract Input.
Local Open Scope list_scope.
Local Open Scope string_scope.

Lemma compressed_tarball_not_an_archive_witness :
  is_archive "vol.tar.gz" = false /\
  magi_process_input
    (mk_tools (Completed "vol.tar.gz: gzip compressed data") true
              (Completed "") true (Completed "") (Completed "")
              (Completed ""))
    false [] (fun _ => TimeoutExpired) (fun _ => NoFault) (fun _ => Removed)
    (Some (File "vol.tar.gz" None)) (mk_output ∅ ∅)
  = (mk_output ∅ ∅, Return false).
Proof.
  apply (compressed_tarball_not_an_archive _ _ _ false [] "vol" ".tar.gz"
           None (mk_output ∅ ∅)).
  reflexivity.
Defined.

Lemma undetected_archive_without_strategy_witness :
  extract_archive
    (mk_tools FileNotFoundError true (Completed "") true (Completed "")
              (Completed "") (Completed ""))
    "vol.7z"
  = mk_extraction [] [UnsupportedFormat ".7z"] (Return false) /\
  magi_process_input
    (mk_tools FileNotFoundError true (Completed "") true (Completed "")
              (Completed "") (Completed ""))
    false [] (fun _ => TimeoutExpired) (fun _ => NoFault) (fun _ => Removed)
    (Some (File "vol.7z" None)) (mk_output ∅ ∅)
  = (mk_output ∅ ∅, Return false).
Proof.
  destruct (undetected_archive_without_strategy
              (Magi.process_chapter_based_archive
                 (fun _ => TimeoutExpired) (fun _ => NoFault)
                 (fun _ => Removed))
              (Magi.process_with_magi
                 (fun _ => TimeoutExpired) (fun _ => NoFault)
                 (fun _ => Removed))
              (mk_tools FileNotFoundError true (Completed "") true
                        (Completed "") (Completed "") (Completed ""))
              [] (File "vol.7z" None) (mk_output ∅ ∅))
    as (H1 & H2 & _); [reflexivity .. |].
  split; [exact H1 | exact H2].
Defined.

Local Abbreviation unrar_not_executable :=
  (mk_tools (Completed "vol.rar: RAR archive data, v5") true
            (Completed "") true OtherError (Completed "")
            (Completed "")).

Lemma extraction_exceptions_come_from_tools_witness :
  started (extract_archive unrar_not_executable "vol.rar") = [Unrar] /\
  magi_process_input unrar_not_executable false []
    (fun _ => TimeoutExpired) (fun _ => NoFault) (fun _ => Removed)
    (Some (File "vol.rar" None)) (mk_output ∅ ∅)
  = (mk_output ∅ ∅, Raise RaisedOtherError).
Proof.
  destruct (extraction_exceptions_come_from_tools
              (Magi.process_chapter_based_archive
                 (fun _ => TimeoutExpired) (fun _ => NoFault)
                 (fun _ => Removed))
              (Magi.process_with_magi
                 (fun _ => TimeoutExpired) (fun _ => NoFault)
                 (fun _ => Removed))
              unrar_not_executable [] (File "vol.rar" None)
              (mk_output ∅ ∅) RaisedOtherError)
    as (_ & H & _); [reflexivity | reflexivity |].
  split; [reflexivity | exact H].
Defined.

Lemma tar_mention_shadows_gzip_witness :
  detect_file_type
    (run_file (mk_tools (Completed "guitar.cbz: gzip compressed data")
                        true (Completed "") true (Completed "")
                        (Completed "") (Completed "")))
  <> Return (Some gzip) /\
  ~ In TarXzf
      (started
         (extract_archive
            (mk_tools (Completed "guitar.cbz: gzip compressed data")
                      true (Completed "") true (Completed "")
                      (Completed "") (Completed ""))
            "guitar.cbz")) /\
  (in_list (lower (suffix "guitar.cbz"))
     [".rar"; ".7z"; ".tar"; ".tar.gz"; ".tgz"; ".tar.bz2"; ".tbz2";
      ".tar.xz"; ".txz"] = false ->
   extract_archive
     (mk_tools (Completed "guitar.cbz: gzip compressed data")
               true (Completed "") true (Completed "")
               (Completed "") (Completed ""))
     "guitar.cbz"
   = mk_extraction [] [UnsupportedArchiveFormat (lower (suffix "guitar.cbz"))]
                   (Return false)).
Proof.
  apply (tar_mention_shadows_gzip _ "guitar.cbz"
           "guitar.cbz: gzip compressed data"); reflexivity.
Defined.
End input_witnesses.

(** ** The routing and the processors *)

Section routing_properties.
Import PyStr Tree Extract Output Magi Input.
Local Open Scope list_scope.
Local Open Scope string_scope.

Lemma filter_andb {A} (f g : A -> bool) l :
  List.filter (fun x => f x && g x) l = List.filter g (List.filter f l).
Proof.
  induction l as [|x l IH]; simpl; [done|].
  destruct (f x); simpl; [|exact IH]. destruct (g x); by rewrite IH.
Qed.

Lemma filter_length_perm {A} (f : A -> bool) (l l' : list A) :
  l ≡ₚ l' -> length (List.filter f l) = length (List.filter f l').
Proof.
  induction 1 as [|x l l' _ IH|x y l|l l' l'' _ IH1 _ IH2]; simpl;
    try done.
  - destruct (f x); simpl; by rewrite IH.
  - by destruct (f x), (f y).
  - by rewrite IH1.
Qed.

Lemma filter_existsb {A} (f : A -> bool) l :
  existsb f l = truthy (List.filter f l).
Proof.
  induction l as [|x l IH]; simpl; [done|]. by destruct (f x).
Qed.

(** X6: a folder the classifier calls chapter-based is never turned
    down by the chapter processor.  The classifier enters a single
    subdirectory without a look at its content and the processor only
    when that subdirectory holds chapter directories, yet on every
    folder the classifier accepts both work on the same directory, and
    the processor finds as many chapter directories as the classifier
    counted, at least one. *)
Theorem accepted_folder_has_chapters (folder_path : node) :
  is_chapter_based_archive folder_path = true ->
  chapter_root folder_path = counted_folder folder_path /\
  length (chapter_dirs_of folder_path)
  = counted_chapter_dirs (counted_folder folder_path) /\
  chapter_dirs_of folder_path <> [].
Proof.
  intros H.
  assert (Hd : is_dir folder_path = true).
  { unfold is_chapter_based_archive in H. by destruct (is_dir folder_path). }
  rewrite is_chapter_based_archive_threshold in H by assumption.
  assert (Hc : (1 <= counted_chapter_dirs (counted_folder folder_path))%nat).
  { unfold chapter_threshold in H.
    apply orb_true_iff in H as [H|[H _]%andb_true_iff];
      apply Nat.leb_le in H; lia. }
  assert (Hr : chapter_root folder_path = counted_folder folder_path).
  { unfold chapter_root, counted_folder in *.
    destruct (List.filter is_dir (iterdir folder_path)) as [|d [|d' l]];
      try reflexivity.
    unfold counted_chapter_dirs in Hc. rewrite filter_andb in Hc.
    rewrite filter_existsb.
    destruct (List.filter has_images (List.filter is_dir (iterdir d)));
      simpl in *; [lia|reflexivity]. }
  assert (Hl : length (chapter_dirs_of folder_path)
               = counted_chapter_dirs (counted_folder folder_path)).
  { unfold chapter_dirs_of. by rewrite sort_length, Hr. }
  repeat split; try assumption.
  intros E. rewrite E in Hl. simpl in Hl. lia.
Qed.

Lemma accepted_folder_has_chapters_witness :
  chapter_root (Dir "vol" [Dir "vol" [Dir "ch1" [File "01.jpg" None];
                                    Dir "ch2" [File "01.jpg" None]]])
  = counted_folder (Dir "vol" [Dir "vol" [Dir "ch1" [File "01.jpg" None];
                                          Dir "ch2" [File "01.jpg" None]]]) /\
  length (chapter_dirs_of
            (Dir "vol" [Dir "vol" [Dir "ch1" [File "01.jpg" None];
                                   Dir "ch2" [File "01.jpg" None]]]))
  = counted_chapter_dirs
      (counted_folder
         (Dir "vol" [Dir "vol" [Dir "ch1" [File "01.jpg" None];
                                Dir "ch2" [File "01.jpg" None]]])) /\
  chapter_dirs_of (Dir "vol" [Dir "vol" [Dir "ch1" [File "01.jpg" None];
                                       Dir "ch2" [File "01.jpg" None]]])
  <> [].
Proof.
  apply accepted_folder_has_chapters. reflexivity.
Defined.

(** X7: the classification does not depend on the order in which the
    folder lists its entries. *)
Theorem classification_ignores_listing_order
    (name : string) (entries entries' : list node) :
  entries ≡ₚ entries' ->
  is_chapter_based_archive (Dir name entries)
  = is_chapter_based_archive (Dir name entries').
Proof.
  intros Hp.
  rewrite !is_chapter_based_archive_threshold by done.
  assert (Hd : List.filter is_dir entries ≡ₚ List.filter is_dir entries').
  { clear name. induction Hp as [|x l l' _ IH|x y l|l l' l'' _ IH1 _ IH2];
      simpl; try done.
    - destruct (is_dir x); by rewrite IH.
    - destruct (is_dir x), (is_dir y); try done. apply perm_swap.
    - by rewrite IH1. }
  unfold counted_folder. cbn [iterdir].
  destruct (List.filter is_dir entries) as [|d [|d1 l1]] eqn:E.
  - apply Permutation_nil in Hd. rewrite Hd.
    unfold counted_chapter_dirs, counted_root_images. cbn [iterdir].
    by rewrite !(filter_length_perm _ _ _ Hp).
  - apply Permutation_singleton_l in Hd. by rewrite <- Hd.
  - destruct (List.filter is_dir entries') as [|d' [|d1' l1']] eqn:E'.
    + symmetry in Hd. by apply Permutation_nil in Hd.
    + symmetry in Hd. by apply Permutation_singleton_l in Hd.
    + unfold counted_chapter_dirs, counted_root_images. cbn [iterdir].
      by rewrite !(filter_length_perm _ _ _ Hp).
Qed.

Lemma classification_ignores_listing_order_witness :
  is_chapter_based_archive
    (Dir "vol" [File "cover.jpg" None; Dir "ch1" [File "01.jpg" None]])
  = is_chapter_based_archive
      (Dir "vol" [Dir "ch1" [File "01.jpg" None]; File "cover.jpg" None]).
Proof.
  apply classification_ignores_listing_order. apply perm_swap.
Defined.

(** X8: the chapter processor looks at directories only.  What lies
    loose in the folder, such as the cover or the one or two pages the
    classifier tolerates there, takes no part: the run is the run on
    the folder without its files. *)
Theorem loose_files_take_no_part
    (detect : path -> detection) (faults : string -> write_fault)
    (cleanup : string -> rmtree_result panels_json)
    (name : string) (entries : list node)
    (out : output_dir panels_json) :
  process_chapter_based_archive detect faults cleanup (Dir name entries) out
  = process_chapter_based_archive detect faults cleanup
      (Dir name (List.filter is_dir entries)) out.
Proof.
  assert (Hf : List.filter is_dir (List.filter is_dir entries)
               = List.filter is_dir entries).
  { rewrite <- filter_andb. apply filter_ext. intros x.
    by destruct (is_dir x). }
  assert (Hc : chapter_dirs_of (Dir name entries)
               = chapter_dirs_of (Dir name (List.filter is_dir entries))).
  { unfold chapter_dirs_of. f_equal. rewrite !filter_andb. f_equal.
    unfold chapter_root. cbn [iterdir]. rewrite Hf.
    destruct (List.filter is_dir entries) as [|d [|d' l]] eqn:E;
      try destruct (existsb has_images (List.filter is_dir (iterdir d)));
      try reflexivity; cbn [iterdir]; rewrite E; symmetry; exact Hf. }
  unfold process_chapter_based_archive. simpl node_name. by rewrite Hc.
Qed.



(** The aggregator changes no other path than the one it writes. *)
Lemma combine_frame json_files output_json temp folder_path fault
    (fs : gmap string file_content) k :
  k <> output_json ->
  (combine_jsons_to_final_json json_files output_json temp folder_path
                               fault fs).1 !! k = fs !! k.
Proof.
  intros Hk. unfold combine_jsons_to_final_json.
  repeat (destruct (truthy _); [|done]). by apply write_json_frame.
Qed.

(** What the two processors of the MAGI pipeline leave alone, however
    they end. *)
Lemma magi_route_frame detect faults cleanup folder
    (out : output_dir panels_json) :
  let run :=
    route (process_chapter_based_archive detect faults cleanup)
          (process_with_magi detect faults cleanup) folder out in
  (forall k, k <> node_name folder ++ ".json" ->
             k ∉ List.map (chapter_json_name (node_name folder))
                          (chapter_dirs_of folder) ->
             out_files run.1 !! k = out_files out !! k) /\
  (forall k, k <> node_name folder ++ "_temp" ->
             k ∉ List.map (chapter_temp_name (node_name folder))
                          (chapter_dirs_of folder) ->
             out_folders run.1 !! k = out_folders out !! k).
Proof.
  intros run. subst run. unfold route.
  destruct (is_chapter_based_archive folder).
  - unfold process_chapter_based_archive.
    destruct (truthy (chapter_dirs_of folder)); [|done].
    destruct (process_chapters_frame detect faults cleanup (node_name folder)
                (chapter_dirs_of folder) out 0) as [Hf Hd].
    destruct (process_chapters _ _ _ _ _ _ _) as [out1 [n|e]];
      simpl in *; [|by split; intros; auto].
    destruct (n =? 0)%nat; [by split; intros; auto|].
    unfold write_master_index.
    split; intros k Hk Hc.
    + pose proof (write_json_frame (out_files out1)
        (node_name folder ++ ".json")
        (IndexJson (mk_index (node_name folder) n
           (index_entries (node_name folder) (chapter_dirs_of folder)
                          (out_files out1))
           "rtl"))
        (faults (node_name folder ++ ".json")) k Hk) as Hw.
      destruct (write_json _ _ _ _) as [fs2 ok]. simpl in *.
      rewrite Hw. auto.
    + destruct (write_json _ _ _ _) as [fs2 ok]. simpl. auto.
  - unfold process_with_magi. rewrite mkdir_exist_ok_spec.
    destruct (out_files out !! _); [done|].
    assert (Hkeep : forall (c : gmap string panels_json) k,
              k <> node_name folder ++ "_temp" ->
              out_folders (with_folder (node_name folder ++ "_temp") c out)
                !! k = out_folders out !! k).
    { intros c k Hk. simpl. by rewrite lookup_insert_ne. }
    destruct (truthy (image_files_rglob folder)).
    2:{ split; intros k Hk _; [done|by apply Hkeep]. }
    rewrite folder_content_with_folder.
    destruct (process_images _ _ _ _) as [temp [jf|e]].
    2:{ rewrite with_folder_twice. split; intros k Hk _; [done|].
        by apply Hkeep. }
    rewrite with_folder_twice.
    destruct (truthy jf).
    2:{ split; intros k Hk _; [done|by apply Hkeep]. }
    pose proof (combine_frame jf (node_name folder ++ ".json") temp folder
                  (faults (node_name folder ++ ".json")) (out_files out))
      as Hw.
    cbn [out_files with_folder] in *.
    destruct (combine_jsons_to_final_json _ _ _ _ _ _) as [fs2 ok].
    simpl in *. split; intros k Hk _; [by apply Hw|].
    rewrite rmtree_frame by done. by rewrite lookup_insert_ne.
Qed.

(** X10: however a run ends, by [True], by [False] or by an exception,
    it changes in the output directory only the file [<unit>.json], the
    chapter files [<unit>_<chapter>.json] of its chapter directories,
    and the temporary directories [<unit>_temp] and
    [<unit>_<chapter>_temp], which it makes, may leave behind and may
    remove with whatever they held.  Every other file and every other
    subdirectory is as it was. *)
Theorem run_touches_own_files_only
    (env : tools) (blocked : bool) (extracted : list node)
    (detect : path -> detection) (faults : string -> write_fault)
    (cleanup : string -> rmtree_result panels_json) (input : node)
    (out : output_dir panels_json) (k : string) :
  let folder :=
    if is_archive (node_name input)
    then Dir (stem (node_name input)) extracted else input in
  let run :=
    magi_process_input env blocked extracted detect faults cleanup
                       (Some input) out in
  (k <> unit_name input ++ ".json" ->
   k ∉ List.map (chapter_json_name (unit_name input))
                (chapter_dirs_of folder) ->
   out_files run.1 !! k = out_files out !! k) /\
  (k <> unit_name input ++ "_temp" ->
   k ∉ List.map (chapter_temp_name (unit_name input))
                (chapter_dirs_of folder) ->
   out_folders run.1 !! k = out_folders out !! k).
Proof.
  intros folder run.
  assert (Hroute :
    node_name folder = unit_name input ->
    let routed :=
      route (process_chapter_based_archive detect faults cleanup)
            (process_with_magi detect faults cleanup) folder out in
    (k <> unit_name input ++ ".json" ->
     k ∉ List.map (chapter_json_name (unit_name input))
                  (chapter_dirs_of folder) ->
     out_files routed.1 !! k = out_files out !! k) /\
    (k <> unit_name input ++ "_temp" ->
     k ∉ List.map (chapter_temp_name (unit_name input))
                  (chapter_dirs_of folder) ->
     out_folders routed.1 !! k = out_folders out !! k)).
  { intros Hn routed.
    destruct (magi_route_frame detect faults cleanup folder out) as [Hf Hd].
    rewrite Hn in *. split; intros; [by apply Hf | by apply Hd]. }
  subst run. unfold magi_process_input, process_input.
  unfold folder, unit_name in *.
  destruct (is_archive (node_name input)).
  - destruct blocked; [done|].
    destruct (ended (extract_archive env (node_name input))) as [[|]|e];
      [|done..].
    by apply Hroute.
  - destruct (is_dir input); [|done]. by apply Hroute.
Qed.
End routing_properties.

Section routing_witnesses.
Import PyStr Tree Extract Output Magi Input.
Local Open Scope list_scope.
Local Open Scope string_scope.


Local Abbreviation two_chapters_run :=
  (magi_process_input
     (mk_tools (Completed "vol.cbz: Zip archive data") true
               (Completed "") true (Completed "") (Completed "")
               (Completed ""))
     false
     [Dir "ch1" [File "01.jpg" None]; Dir "ch2" [File "01.jpg" None]]
     (fun _ => Exited 0 (Some (PanelsDoc [])))
     (fun _ => NoFault) (fun _ => Removed)
     (Some (File "vol.cbz" None))
     (mk_output
        {[ "vol_ch3.json" := Whole (ChapterJson (mk_chapter "rtl" 0 [])) ]}
        {[ "vol_ch3_temp" := ∅ ]})).

Lemma run_touches_own_files_only_witness :
  out_files two_chapters_run.1 !! "vol_ch3.json"
  = Some (Whole (ChapterJson (mk_chapter "rtl" 0 []))) /\
  out_folders two_chapters_run.1 !! "vol_ch3_temp" = Some ∅.
Proof.
  destruct (run_touches_own_files_only
              (mk_tools (Completed "vol.cbz: Zip archive data") true
                        (Completed "") true (Completed "") (Completed "")
                        (Completed ""))
              false
              [Dir "ch1" [File "01.jpg" None]; Dir "ch2" [File "01.jpg" None]]
              (fun _ => Exited 0 (Some (PanelsDoc [])))
              (fun _ => NoFault) (fun _ => Removed)
              (File "vol.cbz" None)
              (mk_output
                 {[ "vol_ch3.json" :=
                      Whole (ChapterJson (mk_chapter "rtl" 0 [])) ]}
                 {[ "vol_ch3_temp" := ∅ ]})
              "vol_ch3.json") as [Hf _].
  destruct (run_touches_own_files_only
              (mk_tools (Completed "vol.cbz: Zip archive data") true
                        (Completed "") true (Completed "") (Completed "")
                        (Completed ""))
              false
              [Dir "ch1" [File "01.jpg" None]; Dir "ch2" [File "01.jpg" None]]
              (fun _ => Exited 0 (Some (PanelsDoc [])))
              (fun _ => NoFault) (fun _ => Removed)
              (File "vol.cbz" None)
              (mk_output
                 {[ "vol_ch3.json" :=
                      Whole (ChapterJson (mk_chapter "rtl" 0 [])) ]}
                 {[ "vol_ch3_temp" := ∅ ]})
              "vol_ch3_temp") as [_ Hd].
  split.
  - rewrite Hf; [reflexivity | vm_compute; discriminate |].
    vm_compute. intros H. repeat (apply elem_of_cons in H as [H|H];
                                  [discriminate H|]).
    by apply elem_of_nil in H.
  - rewrite Hd; [reflexivity | vm_compute; discriminate |].
    vm_compute. intros H. repeat (apply elem_of_cons in H as [H|H];
                                  [discriminate H|]).
    by apply elem_of_nil in H.
Defined.
End routing_witnesses.

(** ** The name of a result file and the stem it stands for *)

Section removal_facts.
Import PyStr.
Local Open Scope string_scope.

Context (pat : string).

Lemma remove_all_from_cons c s :
  remove_all_from pat 0 (String c s)
  = if String.prefix pat (String c s)
    then remove_all_from pat (String.length pat - 1) s
    else String c (remove_all_from pat 0 s).
Proof. reflexivity. Qed.

Lemma contains_cons c s :
  contains pat (String c s)
  = String.prefix pat (String c s) || contains pat s.
Proof.
  unfold contains.
  change (String.index 0 pat (String c s))
    with (if String.prefix pat (String c s) then Some 0
          else match String.index 0 pat s with
               | Some n => Some (S n)
               | None => None
               end).
  destruct (String.prefix pat (String c s)); [done|].
  by destruct (String.index 0 pat s).
Qed.

Lemma prefix_length_le (p : string) : forall s,
  String.prefix p s = true -> String.length p <= String.length s.
Proof.
  induction p as [|a p IH]; intros s H; [simpl; lia|].
  destruct s as [|b s]; simpl in *; [done|].
  destruct (ascii_dec a b); [|done]. apply IH in H. lia.
Qed.

Lemma prefix_app_r (p : string) : forall s t,
  String.prefix p s = true -> String.prefix p (s ++ t) = true.
Proof.
  induction p as [|a p IH]; intros s t H; [by destruct (s ++ t)|].
  destruct s as [|b s]; simpl in H; [done|]. rewrite string_app_cons.
  simpl. destruct (ascii_dec a b); [|done]. by apply IH.
Qed.

Lemma remove_all_from_length s : forall k,
  String.length (remove_all_from pat k s) <= String.length s - k.
Proof.
  induction s as [|c s IH]; intros k.
  - destruct k; simpl; lia.
  - destruct k as [|k]; [|simpl; apply IH].
    rewrite remove_all_from_cons.
    destruct (String.prefix pat (String c s)); cbn [String.length].
    + specialize (IH (String.length pat - 1)). lia.
    + specialize (IH 0). lia.
Qed.

(** One occurrence at least is removed. *)
Lemma remove_all_shorter s :
  pat <> "" -> contains pat s = true ->
  String.length (remove_all_from pat 0 s) + String.length pat
  <= String.length s.
Proof.
  intros Hpat. induction s as [|c s IH].
  - unfold contains. simpl. by destruct pat.
  - rewrite contains_cons, remove_all_from_cons.
    destruct (String.prefix pat (String c s)) eqn:Hp; simpl.
    + intros _. apply prefix_length_le in Hp. simpl in Hp.
      pose proof (remove_all_from_length s (String.length pat - 1)).
      destruct pat; [done|]. simpl in *. lia.
    + intros H%IH. lia.
Qed.

Lemma contains_app_self s : contains pat (s ++ pat) = true.
Proof.
  induction s as [|c s IH].
  - change ("" ++ pat) with pat. unfold contains.
    destruct pat as [|a p] eqn:E; [done|]. simpl.
    destruct (ascii_dec a a); [|done].
    assert (Hp : forall q, String.prefix q q = true).
    { induction q as [|b q IHq]; simpl; [done|].
      by destruct (ascii_dec b b). }
    by rewrite Hp.
  - rewrite string_app_cons, contains_cons, IH. apply orb_true_r.
Qed.

Lemma remove_all_from_app_length s : forall k,
  pat <> "" -> k <= String.length s ->
  String.length (remove_all_from pat k (s ++ pat)) <= String.length s - k.
Proof.
  intros k Hpat. revert k. induction s as [|c s IH]; intros k Hk.
  - simpl in Hk. assert (k = 0) as -> by lia.
    pose proof (remove_all_shorter ("" ++ pat) Hpat (contains_app_self "")).
    change ("" ++ pat) with pat in *. simpl. lia.
  - destruct k as [|k].
    + pose proof (remove_all_shorter (String c s ++ pat) Hpat
                    (contains_app_self (String c s))) as H.
      rewrite string_length_app in H. lia.
    + rewrite string_app_cons. simpl in *. apply IH. lia.
Qed.
End removal_facts.

Section result_name_properties.
Import PyStr Magi.
Local Open Scope list_scope.
Local Open Scope string_scope.

(** ["_panels"] does not overlap itself: it begins with the only
    underscore it has. *)
Lemma panels_border_free y :
  String.prefix "_panels" (y ++ "_panels") = true ->
  y = "" \/ String.prefix "_panels" y = true.
Proof.
  intros H. destruct y as [|c y]; [by left|right].
  rewrite string_app_cons in H. cbn [String.prefix] in H |- *.
  destruct (ascii_dec "_" c) as [<-|]; [|done].
  do 6 (destruct y as [|c y]; [by vm_compute in H|];
        rewrite string_app_cons in H; cbn [String.prefix] in H |- *;
        match type of H with
        | match ?d with left _ => _ | right _ => _ end = true =>
            destruct d as [<-|]; [|done]
        end).
  by destruct y.
Qed.

Lemma remove_panels_round_trip x :
  contains "_panels" x = false ->
  remove_all "_panels" (x ++ "_panels") = x.
Proof.
  unfold remove_all. induction x as [|c x IH]; [by vm_compute|].
  rewrite contains_cons. intros [Hp Hc]%orb_false_iff.
  rewrite string_app_cons, remove_all_from_cons.
  rewrite <- string_app_cons.
  destruct (String.prefix "_panels" (String c x ++ "_panels")) eqn:E.
  - apply panels_border_free in E as [E|E]; [done|congruence].
  - by rewrite IH.
Qed.

Lemma remove_panels_shrinks x :
  contains "_panels" x = true ->
  String.length (remove_all "_panels" (x ++ "_panels")) < String.length x.
Proof.
  unfold remove_all. induction x as [|c x IH]; [by vm_compute|].
  rewrite contains_cons. intros Hc.
  rewrite string_app_cons, remove_all_from_cons.
  rewrite <- string_app_cons.
  destruct (String.prefix "_panels" (String c x ++ "_panels")) eqn:E.
  - apply panels_border_free in E as [E|E]; [done|].
    apply prefix_length_le in E. cbn [String.length] in E |- *.
    assert (H6 : 6 <= String.length x) by lia.
    pose proof (remove_all_from_app_length "_panels" x 6 ltac:(done) H6).
    change (7 - 1) with 6. lia.
  - assert (Hp : String.prefix "_panels" (String c x) = false).
    { destruct (String.prefix "_panels" (String c x)) eqn:Hp; [|done].
      by rewrite (prefix_app_r _ _ _ Hp) in E. }
    rewrite Hp in Hc. simpl in Hc.
    cbn [String.length]. apply IH in Hc. lia.
Qed.

Lemma json_name_stem (image_file : path) :
  stem (json_name_of image_file) = stem (path_name image_file) ++ "_panels".
Proof.
  unfold json_name_of.
  change "_panels.json" with ("_panels" ++ "." ++ "json").
  rewrite <- string_app_assoc.
  apply (suffix_ext (stem (path_name image_file) ++ "_panels") "json");
    try done.
  by destruct (stem (path_name image_file)).
Qed.

Lemma possible_image_names_of_stem (image_file : path) :
  contains "_panels" (stem (path_name image_file)) = false ->
  possible_image_names (json_name_of image_file)
  = flat_map (fun ext => [stem (path_name image_file) ++ ext;
                          stem (path_name image_file) ++ upper ext])
             [".jpg"; ".jpeg"; ".png"].
Proof.
  intros Hc. unfold possible_image_names.
  by rewrite json_name_stem, remove_panels_round_trip.
Qed.

(** X11: the aggregator recovers the stem of an image from the name of
    its result file by deleting every ["_panels"] from the stem of that
    name.  This gives back the stem of the image exactly when that stem
    does not contain ["_panels"]; for such an image the six names under
    which the image is looked for are its stem with the six extensions.
    An image whose stem contains ["_panels"] is looked for under
    shorter names. *)
Theorem result_name_round_trip (image_file : path) :
  let image_stem := stem (path_name image_file) in
  (remove_all "_panels" (stem (json_name_of image_file)) = image_stem
   <-> contains "_panels" image_stem = false) /\
  (contains "_panels" image_stem = false ->
   possible_image_names (json_name_of image_file)
   = [image_stem ++ ".jpg"; image_stem ++ ".JPG"; image_stem ++ ".jpeg";
      image_stem ++ ".JPEG"; image_stem ++ ".png"; image_stem ++ ".PNG"]).
Proof.
  intros x. rewrite json_name_stem. fold x. split.
  - split; [|apply remove_panels_round_trip].
    intros Heq. destruct (contains "_panels" x) eqn:Hc; [|done].
    apply remove_panels_shrinks in Hc. rewrite Heq in Hc. lia.
  - intros Hc. by rewrite possible_image_names_of_stem.
Qed.
End result_name_properties.

Section result_name_witnesses.
Import PyStr Magi.
Local Open Scope list_scope.
Local Open Scope string_scope.

Lemma result_name_round_trip_witness :
  remove_all "_panels" (stem (json_name_of ["ch1"; "01.jpg"])) = "01" /\
  possible_image_names (json_name_of ["ch1"; "01.jpg"])
  = ["01.jpg"; "01.JPG"; "01.jpeg"; "01.JPEG"; "01.png"; "01.PNG"].
Proof.
  destruct (result_name_round_trip ["ch1"; "01.jpg"]) as [H1 H2].
  split; [apply H1; reflexivity | apply H2; reflexivity].
Defined.
End result_name_witnesses.

(** ** Result files and image lookup of the MAGI pipeline *)

Section result_file_properties.
Import PyStr Tree Output Magi Normalizer.
Local Open Scope list_scope.
Local Open Scope string_scope.

Lemma first_escape_app detect (l1 l2 : list path) :
  first_escape detect (l1 ++ l2)%list
  = match first_escape detect l1 with
    | Some e => Some e
    | None => first_escape detect l2
    end.
Proof.
  induction l1 as [|p l1 IH]; [done|]. simpl.
  by destruct (escapes (detect p)).
Qed.

Lemma process_images_app detect (l1 l2 : list path) :
  forall temp json_files,
  process_images detect (l1 ++ l2)%list temp json_files
  = match process_images detect l1 temp json_files with
    | (temp', Return json_files') => process_images detect l2 temp' json_files'
    | (temp', Raise e) => (temp', Raise e)
    end.
Proof.
  induction l1 as [|p l1 IH]; intros temp jf; [done|].
  rewrite <- app_comm_cons. cbn [process_images].
  destruct (process_image_with_magi _ _ _) as [temp1 [[[|] [f|]]|e]];
    try apply IH; [|done].
  destruct (bool_decide _); apply IH.
Qed.

(** An image whose result name differs leaves a result file alone. *)
Lemma process_images_other_names detect n (l : list path) :
  (forall q, q ∈ l -> succeeded (detect q) = true -> json_name_of q <> n) ->
  forall temp json_files,
  (process_images detect l temp json_files).1 !! n = temp !! n.
Proof.
  induction l as [|q l IH]; intros Hl temp jf; [done|].
  cbn [process_images]. rewrite process_image_with_magi_spec.
  assert (Hrest : forall q', q' ∈ l -> succeeded (detect q') = true ->
                             json_name_of q' <> n).
  { intros q' Hq'. apply Hl. by right. }
  destruct (escapes (detect q)); [done|].
  destruct (succeeded (detect q)) eqn:Hs; [|by apply IH].
  destruct (detect q) as [rc [c|]| | |r] eqn:Hd; try done.
  fold (json_name_of q).
  rewrite bool_decide_true by (rewrite lookup_insert_eq; eauto).
  rewrite IH by done. apply lookup_insert_ne.
  apply Hl; [by left|by rewrite Hd].
Qed.

Lemma filter_map_length {A B} (f : B -> bool) (g : A -> B) (l : list A) :
  length (List.filter f (List.map g l))
  = length (List.filter (fun x => f (g x)) l).
Proof.
  induction l as [|x l IH]; simpl; [done|].
  destruct (f (g x)); simpl; by rewrite IH.
Qed.

(** X12: the result file of an image is named after its stem alone.
    When several images of a unit share a stem ([01.jpg] and [01.png],
    or [a/01.jpg] and [b/01.jpg] in a unit that is searched
    recursively), each detection moves its output onto the same file
    and the last one stays; the aggregator still builds one page per
    surviving image, every page from the file named after its stem: the
    pages of all images of one stem carry the panels of the last. *)
Theorem same_stem_images_share_result
    (detect : path -> detection) (folder_path : node)
    (stale : gmap string panels_json)
    (l1 l2 : list path) (p : path) (rc : Z) (c : panels_json) :
  detect p = Exited rc (Some c) -> rc = 0%Z ->
  (forall q, q ∈ l2 -> succeeded (detect q) = true ->
             json_name_of q <> json_name_of p) ->
  let image_files := (l1 ++ p :: l2)%list in
  first_escape detect image_files = None ->
  let temp := (process_images detect image_files stale []).1 in
  let json_files :=
    PySort.sort id String.leb
      (List.map json_name_of (survivors detect image_files)) in
  temp !! json_name_of p = Some c /\
  pages_of_images detect image_files stale folder_path
  = enumerate_from (page_of_json temp folder_path) 1 json_files /\
  length (List.filter (String.eqb (json_name_of p)) json_files)
  = length (List.filter
              (fun q => String.eqb (json_name_of p) (json_name_of q))
              (survivors detect image_files)).
Proof.
  intros Hp -> Hl2 image_files Hesc temp json_files. split; [|split].
  3:{ unfold json_files.
      rewrite (filter_length_perm _ _ _ (sort_perm id String.leb _)).
      apply filter_map_length. }
  - unfold temp, image_files. rewrite process_images_app.
    unfold image_files in Hesc. rewrite first_escape_app in Hesc.
    destruct (first_escape detect l1) eqn:E1; [done|].
    destruct (process_images_spec detect l1 stale [] E1)
      as (temp1 & -> & _); [by intros f ?%elem_of_nil|].
    cbn [process_images]. rewrite Hp. simpl.
    fold (json_name_of p).
    rewrite bool_decide_true by (rewrite lookup_insert_eq; eauto).
    rewrite process_images_other_names by done.
    apply lookup_insert_eq.
  - by apply pages_of_images_eq.
Qed.

Lemma find_none {A} (f : A -> bool) (l : list A) :
  (forall x, x ∈ l -> f x = false) -> List.find f l = None.
Proof.
  induction l as [|x l IH]; intros H; simpl; [done|].
  rewrite H by left. apply IH. intros y Hy. apply H. by right.
Qed.

(** X13: the aggregator looks for the image of a page under six names
    only, [<stem>.jpg], [.JPG], [.jpeg], [.JPEG], [.png], [.PNG],
    directly in the folder of the unit.  For every other page (a
    [.webp], [.gif] or [.bmp] image, an image in a subfolder, a
    mixed-case extension) the size is taken to be 800x1200, so that the
    boxes are divided by 533 and 800 whatever the image is, and the
    page is recorded under [<stem>.jpg], a name no file has. *)
Theorem page_without_listed_image
    (temp : gmap string panels_json) (folder_path : node)
    (page_num : nat) (json_file : string) (boxes : list (list Z)) :
  temp !! json_file = Some (PanelsDoc boxes) ->
  (forall name, name ∈ possible_image_names json_file ->
                temp !! name = None /\ find_entry folder_path name = None) ->
  coord_img_size 800 1200 = Some (533, 800)%Z /\
  page_of_json temp folder_path page_num json_file
  = mk_page page_num
            (remove_all "_panels" (stem json_file) ++ ".jpg")
            (default [] (normalize_panels 533 800 boxes)).
Proof.
  intros Hf Hnone. split; [by vm_compute|].
  unfold page_of_json. rewrite Hf. f_equal.
  - unfold actual_image_name. rewrite find_none; [done|].
    intros name Hn. destruct (Hnone name Hn) as [Ht He].
    unfold candidate_exists. rewrite Ht, He.
    rewrite !bool_decide_false; [done|by intros [? ?]..].
  - assert (Hs : actual_image_size temp folder_path json_file = None).
    { unfold actual_image_size.
      induction (possible_image_names json_file) as [|name l IH];
        simpl; [done|].
      unfold open_candidate at 1.
      destruct (Hnone name) as [_ ->]; [by left|].
      destruct (temp !! name); apply IH; intros n Hn; apply Hnone;
        by right. }
    rewrite Hs. unfold page_panels.
    change (default fallback_size None) with (800, 1200)%Z.
    cbv beta iota.
    by replace (coord_img_size 800 1200) with (Some (533, 800)%Z)
      by (by vm_compute).
Qed.

(** X14: the image of a page is looked for by stem, the [.jpg] name
    first.  When [<stem>.jpg] lies in the folder and opens as an image,
    the page of every image with that stem (and no ["_panels"] in it)
    is recorded under [<stem>.jpg] and its boxes are divided by the
    denominators of that file's size. *)
Theorem page_of_listed_jpg
    (temp : gmap string panels_json) (folder_path : node)
    (page_num : nat) (image_file : path) (boxes : list (list Z))
    (name : string) (size : Z * Z) :
  contains "_panels" (stem (path_name image_file)) = false ->
  temp !! json_name_of image_file = Some (PanelsDoc boxes) ->
  find_entry folder_path (stem (path_name image_file) ++ ".jpg")
  = Some (File name (Some size)) ->
  page_of_json temp folder_path page_num (json_name_of image_file)
  = mk_page page_num (stem (path_name image_file) ++ ".jpg")
            (default [] (page_panels (Some size) boxes)).
Proof.
  intros Hc Ht Hf.
  pose proof (possible_image_names_of_stem image_file Hc) as Hnames.
  cbn [flat_map app] in Hnames.
  unfold page_of_json. rewrite Ht. f_equal.
  - unfold actual_image_name.
    rewrite Hnames, json_name_stem, remove_panels_round_trip by done.
    cbn [List.find]. unfold candidate_exists at 1. rewrite Hf.
    rewrite (bool_decide_true (is_Some (Some _))) by eauto.
    by rewrite orb_true_r.
  - unfold actual_image_size. rewrite Hnames. cbn [fold_right].
    unfold open_candidate at 1. rewrite Hf.
    by destruct (temp !! (stem (path_name image_file) ++ ".jpg")).
Qed.
End result_file_properties.

Section result_file_witnesses.
Import PyStr Tree Output Magi Normalizer.
Local Open Scope list_scope.
Local Open Scope string_scope.

Local Abbreviation two_outputs :=
  (fun p : path =>
     match p with
     | ["01.jpg"] => Exited 0 (Some (PanelsDoc [[0; 0; 10; 10]%Z]))
     | _ => Exited 0 (Some (PanelsDoc []))
     end).

Lemma same_stem_images_share_result_witness :
  (process_images two_outputs ([["01.jpg"]] ++ ["01.png"] :: [])%list
                  ∅ []).1
  !! json_name_of ["01.png"] = Some (PanelsDoc []) /\
  pages_of_images two_outputs ([["01.jpg"]] ++ ["01.png"] :: [])%list ∅
    (Dir "vol" [File "01.jpg" None; File "01.png" None])
  = enumerate_from
      (page_of_json
         (process_images two_outputs
            ([["01.jpg"]] ++ ["01.png"] :: [])%list ∅ []).1
         (Dir "vol" [File "01.jpg" None; File "01.png" None])) 1
      (PySort.sort id String.leb
         (List.map json_name_of
            (survivors two_outputs
               ([["01.jpg"]] ++ ["01.png"] :: [])%list))) /\
  length (List.filter (String.eqb (json_name_of ["01.png"]))
            (PySort.sort id String.leb
               (List.map json_name_of
                  (survivors two_outputs
                     ([["01.jpg"]] ++ ["01.png"] :: [])%list))))
  = length (List.filter
              (fun q => String.eqb (json_name_of ["01.png"])
                                   (json_name_of q))
              (survivors two_outputs
                 ([["01.jpg"]] ++ ["01.png"] :: [])%list)).
Proof.
  apply (same_stem_images_share_result two_outputs _ ∅ [["01.jpg"]] []
           ["01.png"] 0 (PanelsDoc [])).
  - reflexivity.
  - reflexivity.
  - intros q Hq. by apply elem_of_nil in Hq.
  - reflexivity.
Defined.

Lemma page_without_listed_image_witness :
  coord_img_size 800 1200 = Some (533, 800)%Z /\
  page_of_json {[ "01_panels.json" := PanelsDoc [[0; 0; 400; 400]%Z] ]}
               (Dir "vol" [File "01.webp" (Some (400, 400)%Z)])
               1 "01_panels.json"
  = mk_page 1 (remove_all "_panels" (stem "01_panels.json") ++ ".jpg")
            (default [] (normalize_panels 533 800 [[0; 0; 400; 400]%Z])).
Proof.
  apply page_without_listed_image.
  - reflexivity.
  - intros name Hn. vm_compute in Hn.
    repeat (apply elem_of_cons in Hn as [->|Hn]; [by vm_compute|]).
    by apply elem_of_nil in Hn.
Defined.

Lemma page_of_listed_jpg_witness :
  page_of_json {[ "01_panels.json" := PanelsDoc [[0; 0; 400; 400]%Z] ]}
               (Dir "vol" [File "01.jpg" (Some (400, 400)%Z)])
               1 (json_name_of ["01.jpg"])
  = mk_page 1 (stem (path_name ["01.jpg"]) ++ ".jpg")
            (default []
               (page_panels (Some (400, 400)%Z) [[0; 0; 400; 400]%Z])).
Proof.
  apply (page_of_listed_jpg _ _ 1 ["01.jpg"] _ "01.jpg"); reflexivity.
Defined.
End result_file_witnesses.

(** ** The files of the output directory *)

Section output_name_properties.
Import PyStr Tree Output Magi.
Local Open Scope list_scope.
Local Open Scope string_scope.

(** X15: within one run the output paths are pairwise distinct: the
    chapter files of directories with different names differ, and none
    of them is the index [<unit>.json]. *)
Theorem output_paths_distinct (folder_name : string)
    (chapter_dirs : list node) :
  NoDup (List.map node_name chapter_dirs) ->
  NoDup ((folder_name ++ ".json")
           :: List.map (chapter_json_name folder_name) chapter_dirs).
Proof.
  intros Hn. apply NoDup_cons. split.
  - intros Hin. apply list_elem_of_In, in_map_iff in Hin as (c & Hc & _).
    by apply chapter_json_name_not_master in Hc.
  - by apply NoDup_chapter_json_names.
Qed.

Lemma folder_chapter_name_assoc (a b : string) (chapter_dir : node) :
  node_name chapter_dir = b ->
  chapter_json_name a chapter_dir = (a ++ "_" ++ b) ++ ".json".
Proof.
  intros <-. unfold chapter_json_name.
  by rewrite !string_app_assoc.
Qed.

(** X16: the names of two different units can meet.  The chapter file
    of chapter [b] of the unit [a] is [a_b.json], which is also the
    document of a flat unit named [a_b]: when such a unit is processed
    into the same output directory and one of its images survives, the
    chapter file is replaced by the document of the flat unit. *)
Theorem flat_unit_replaces_chapter_file
    (detect : path -> detection) (faults : string -> write_fault)
    (cleanup : string -> rmtree_result panels_json)
    (folder_path chapter_dir : node) (a : string)
    (out : output_dir panels_json) :
  node_name folder_path = a ++ "_" ++ node_name chapter_dir ->
  out_files out !! (node_name folder_path ++ "_temp") = None ->
  first_escape detect (image_files_rglob folder_path) = None ->
  truthy (survivors detect (image_files_rglob folder_path)) = true ->
  faults (chapter_json_name a chapter_dir) = NoFault ->
  let run := process_with_magi detect faults cleanup folder_path out in
  run.2 = Return true /\
  out_files run.1
  = <[chapter_json_name a chapter_dir :=
        Whole (document_of detect (image_files_rglob folder_path)
                 (folder_content out (node_name folder_path ++ "_temp"))
                 folder_path)]> (out_files out).
Proof.
  intros Hn Hfile Hesc Hs Hf run. subst run.
  rewrite process_with_magi_spec, Hfile, Hesc, Hs.
  rewrite (folder_chapter_name_assoc a (node_name chapter_dir)) in * by done.
  by rewrite Hn, Hf.
Qed.

(** No chapter file has the name of a temporary directory. *)
Lemma app_last_neq (a b : string) (x y : ascii) :
  x <> y -> a ++ String x "" <> b ++ String y "".
Proof.
  intros Hxy. revert b.
  induction a as [|c a IH]; intros [|d b]; rewrite ?string_app_cons.
  - change (String x "" <> String y ""). congruence.
  - change (String x "" <> String d (b ++ String y "")).
    intros [= _ H]. destruct b; discriminate.
  - change (String c (a ++ String x "") <> String y "").
    intros [= _ H]. destruct a; discriminate.
  - intros [= _ H]. by apply IH in H.
Qed.

Lemma chapter_json_name_not_temp folder_name c c' :
  chapter_json_name folder_name c <> chapter_temp_name folder_name c'.
Proof.
  unfold chapter_json_name, chapter_temp_name.
  change ".json" with (".jso" ++ "n"). change "_temp" with ("_tem" ++ "p").
  rewrite <- !string_app_assoc.
  by apply app_last_neq.
Qed.

(** The loop over the chapters returns when no file has the name of a
    temporary directory and no exception leaves the detection
    adapter. *)
Lemma process_chapters_returns detect faults cleanup folder_name
    chapter_dirs : forall (out : output_dir panels_json) n,
  (forall c, c ∈ chapter_dirs ->
     out_files out !! chapter_temp_name folder_name c = None /\
     first_escape (chapter_detect detect c) (image_files_glob c) = None) ->
  exists n',
    (process_chapters detect faults cleanup folder_name chapter_dirs
                      out n).2 = Return n'.
Proof.
  induction chapter_dirs as [|c l IH]; intros out n Hok; [by eexists|].
  cbn [process_chapters].
  destruct (process_chapter_effect detect faults cleanup folder_name out n c)
    as (Hf & _ & _).
  destruct (Hok c) as [Hfile Hesc]; [by left|].
  assert (Hret : exists n1,
            (process_chapter detect faults cleanup folder_name out n c).2
            = Return n1).
  { rewrite process_chapter_spec, Hfile, Hesc.
    destruct (truthy _); [|by eexists].
    destruct (write_json _ _ _ _); by eexists. }
  destruct Hret as [n1 Hn1].
  destruct (process_chapter detect faults cleanup folder_name out n c)
    as [out1 r]. simpl in *. subst r.
  apply IH. intros c' Hc'. destruct (Hok c') as [Hfile' Hesc']; [by right|].
  split; [|done]. rewrite Hf; [done|].
  apply not_eq_sym, chapter_json_name_not_temp.
Qed.

(** X17: when no chapter document is written to its end (no chapter
    directory, no surviving image, or every write failing), the chapter
    processor never returns [True]; it returns [False] when no exception
    goes through, that is when no file has the name of the temporary
    directory of a chapter and the detection adapter finds its working
    directory.  The index path is as it was: no index is written, and
    an index of an earlier run stays. *)
Theorem no_chapter_written_no_index
    (detect : path -> detection) (faults : string -> write_fault)
    (cleanup : string -> rmtree_result panels_json)
    (folder_path : node) (out : output_dir panels_json) :
  written_chapters detect faults (node_name folder_path)
                   (chapter_dirs_of folder_path) = [] ->
  let run := process_chapter_based_archive detect faults cleanup
                                           folder_path out in
  run.2 <> Return true /\
  ((forall c, c ∈ chapter_dirs_of folder_path ->
      out_files out !! chapter_temp_name (node_name folder_path) c = None /\
      first_escape (chapter_detect detect c) (image_files_glob c) = None) ->
   run.2 = Return false) /\
  out_files run.1 !! (node_name folder_path ++ ".json")
  = out_files out !! (node_name folder_path ++ ".json").
Proof.
  intros Hw run. subst run. unfold process_chapter_based_archive.
  destruct (truthy (chapter_dirs_of folder_path)); [|done].
  pose proof (process_chapters_count detect faults cleanup
                (node_name folder_path) (chapter_dirs_of folder_path)
                out 0) as Hn.
  destruct (process_chapters_frame detect faults cleanup
              (node_name folder_path) (chapter_dirs_of folder_path) out 0)
    as [Hf _].
  pose proof (process_chapters_returns detect faults cleanup
                (node_name folder_path) (chapter_dirs_of folder_path)
                out 0) as Hr.
  assert (Hm : node_name folder_path ++ ".json"
               ∉ List.map (chapter_json_name (node_name folder_path))
                          (chapter_dirs_of folder_path)).
  { intros Hin.
    apply list_elem_of_In, in_map_iff in Hin as (c & Hc & _).
    by apply chapter_json_name_not_master in Hc. }
  destruct (process_chapters _ _ _ _ _ _ _) as [out1 [n|e]]; simpl in *.
  - rewrite (Hn n eq_refl), Hw. simpl. auto.
  - split; [done|]. split; [|auto].
    intros Hok. by destruct (Hr Hok).
Qed.
End output_name_properties.

Section output_name_witnesses.
Import PyStr Tree Output Magi.
Local Open Scope list_scope.
Local Open Scope string_scope.

Lemma output_paths_distinct_witness :
  NoDup (("vol" ++ ".json")
           :: List.map (chapter_json_name "vol")
                [Dir "ch1" []; Dir "ch2" []]).
Proof.
  apply output_paths_distinct.
  apply (bool_decide_unpack (NoDup _)). vm_compute. exact I.
Defined.

Lemma flat_unit_replaces_chapter_file_witness :
  (process_with_magi (fun _ => Exited 0 (Some (PanelsDoc [])))
     (fun _ => NoFault) (fun _ => Removed)
     (Dir "vol_ch1" [File "01.jpg" None])
     (mk_output
        {[ chapter_json_name "vol" (Dir "ch1" []) :=
             Whole (ChapterJson (mk_chapter "rtl" 0 [])) ]} ∅)).2
  = Return true /\
  out_files
    (process_with_magi (fun _ => Exited 0 (Some (PanelsDoc [])))
       (fun _ => NoFault) (fun _ => Removed)
       (Dir "vol_ch1" [File "01.jpg" None])
       (mk_output
          {[ chapter_json_name "vol" (Dir "ch1" []) :=
               Whole (ChapterJson (mk_chapter "rtl" 0 [])) ]} ∅)).1
  = <[chapter_json_name "vol" (Dir "ch1" []) :=
        Whole (document_of (fun _ => Exited 0 (Some (PanelsDoc [])))
                 (image_files_rglob (Dir "vol_ch1" [File "01.jpg" None]))
                 (folder_content
                    (mk_output (T := panels_json)
                       {[ chapter_json_name "vol" (Dir "ch1" []) :=
                            Whole (ChapterJson (mk_chapter "rtl" 0 [])) ]} ∅)
                    (node_name (Dir "vol_ch1" [File "01.jpg" None])
                       ++ "_temp"))
                 (Dir "vol_ch1" [File "01.jpg" None]))]>
      (out_files
         (mk_output (T := panels_json)
            {[ chapter_json_name "vol" (Dir "ch1" []) :=
                 Whole (ChapterJson (mk_chapter "rtl" 0 [])) ]} ∅)).
Proof.
  apply flat_unit_replaces_chapter_file; reflexivity.
Defined.

Lemma no_chapter_written_no_index_witness :
  (process_chapter_based_archive (fun _ => TimeoutExpired)
     (fun _ => NoFault) (fun _ => Removed)
     (Dir "vol" [Dir "ch1" [File "01.jpg" None];
                 Dir "ch2" [File "01.jpg" None]])
     (mk_output ∅ ∅)).2 <> Return true /\
  out_files
    (process_chapter_based_archive (fun _ => TimeoutExpired)
       (fun _ => NoFault) (fun _ => Removed)
       (Dir "vol" [Dir "ch1" [File "01.jpg" None];
                   Dir "ch2" [File "01.jpg" None]])
       (mk_output ∅ ∅)).1
    !! (node_name (Dir "vol" [Dir "ch1" [File "01.jpg" None];
                              Dir "ch2" [File "01.jpg" None]]) ++ ".json")
  = out_files (mk_output (T := panels_json) ∅ ∅)
      !! (node_name (Dir "vol" [Dir "ch1" [File "01.jpg" None];
                                Dir "ch2" [File "01.jpg" None]]) ++ ".json").
Proof.
  destruct (no_chapter_written_no_index (fun _ => TimeoutExpired)
              (fun _ => NoFault) (fun _ => Removed)
              (Dir "vol" [Dir "ch1" [File "01.jpg" None];
                          Dir "ch2" [File "01.jpg" None]])
              (mk_output ∅ ∅)) as (H1 & _ & H3); [reflexivity|].
  split; [exact H1 | exact H3].
Defined.
End output_name_witnesses.

(** ** Chapters are not searched recursively *)

Section enumeration_depth.
Import PyStr Tree.
Local Open Scope list_scope.

(** A path listed below [prefix] is the path of the entry itself or is
    at least two components longer than [prefix]. *)
Lemma descendants_paths : forall (n : node) (prefix p : path) (m : node),
  (p, m) ∈ descendants prefix n ->
  (p = prefix ++ [node_name n] /\ m = n)
  \/ length prefix + 2 <= length p.
Proof.
  fix IH 1. intros [name sz|name entries] prefix p m; cbn [descendants].
  - intros [= -> ->]%list_elem_of_singleton. by left.
  - intros [[= -> ->]|Hin]%elem_of_cons; [by left|right].
    induction entries as [|e es IHes]; cbn [flat_map] in Hin.
    + by apply elem_of_nil in Hin.
    + apply elem_of_app in Hin as [Hin|Hin]; [|by apply IHes].
      destruct (IH e _ _ _ Hin) as [[-> _]|Hlen];
        rewrite ?length_app in *; simpl in *; lia.
Qed.

Lemma elem_of_collect entries p :
  p ∈ collect entries <->
  exists n s, (p, n) ∈ entries /\ s ∈ collected_suffixes /\
              endswith (node_name n) s = true.
Proof.
  rewrite collect_suffixes. split.
  - intros Hin.
    apply list_elem_of_In, in_flat_map in Hin as (s & Hs & Hp).
    apply list_elem_of_In, elem_of_matching in Hp as (n & Hn & He).
    apply list_elem_of_In in Hs. by exists n, s.
  - intros (n & s & Hn & Hs & He).
    apply list_elem_of_In, in_flat_map. exists s.
    rewrite <- !list_elem_of_In. split; [done|].
    apply elem_of_matching. eauto.
Qed.

Lemma elem_of_sorted_collect entries p :
  p ∈ PySort.sort id path_leb (collect entries) <-> p ∈ collect entries.
Proof. by rewrite (sort_perm id path_leb (collect entries)). Qed.

(** X18: a flat unit is searched recursively, a chapter directory is
    not.  The images of a chapter are those the recursive search would
    find directly in the directory: an image in a subfolder of a
    chapter is never processed, while the same image in a flat unit
    is. *)
Theorem chapter_images_are_direct_entries (chapter_dir : node) (p : path) :
  p ∈ image_files_glob chapter_dir
  <-> p ∈ image_files_rglob chapter_dir /\ length p = 1.
Proof.
  unfold image_files_glob, image_files_rglob.
  rewrite !elem_of_sorted_collect, !elem_of_collect.
  unfold entries_of, entries_below. split.
  - intros (n & s & Hn & Hs & He).
    apply list_elem_of_In, in_map_iff in Hn as (c & [= <- <-] & Hc).
    split; [|done]. exists c, s. split; [|done].
    apply list_elem_of_In, in_flat_map. exists c. split; [done|].
    apply list_elem_of_In. destruct c; simpl; left.
  - intros [(n & s & Hn & Hs & He) Hl].
    apply list_elem_of_In, in_flat_map in Hn as (c & Hc & Hn).
    apply list_elem_of_In, descendants_paths in Hn as [[-> ->]|Hn];
      [|simpl in Hn; lia].
    exists c, s. split; [|done].
    apply list_elem_of_In, in_map_iff. by exists c.
Qed.
End enumeration_depth.

(** ** The Kumiko pipeline *)

Section kumiko_properties.
Import PyStr Tree Output Binary64 Kumiko.
Local Open Scope list_scope.

(** X19: the two pipelines differ on a chapter file that cannot be
    read back (a file cut short by a failed write).  The Kumiko
    pipeline builds its index inside one [try]: the index is not
    written at all and the run returns [False], whatever the other
    chapters are.  The MAGI pipeline passes the chapter over and writes
    the index without it. *)
Theorem unreadable_chapter_file_and_the_index
    (folder_name : string) (chapter_dirs : list node)
    (successful_chapters : nat) (fault : write_fault)
    (fs : gmap string file_content) (c : node) (content : file_content) :
  c ∈ chapter_dirs ->
  fs !! Magi.chapter_json_name folder_name c = Some content ->
  read_total_pages content = None ->
  Kumiko.write_master_index folder_name chapter_dirs successful_chapters
                            fault fs = (fs, false) /\
  Magi.write_master_index folder_name chapter_dirs successful_chapters
                          NoFault fs
  = (<[(folder_name ++ ".json")%string :=
         Whole (IndexJson
                  (mk_index folder_name successful_chapters
                     (Magi.index_entries folder_name chapter_dirs fs)
                     "rtl"))]> fs, true) /\
  (forall e, e ∈ Magi.index_entries folder_name chapter_dirs fs ->
             chapter_json_file e <> Magi.chapter_json_name folder_name c).
Proof.
  intros Hc Hfs Hr. split; [|split].
  - unfold Kumiko.write_master_index.
    assert (chapters_data folder_name chapter_dirs fs = None) as ->; [|done].
    induction chapter_dirs as [|c' l IH]; [by apply elem_of_nil in Hc|].
    simpl. apply elem_of_cons in Hc as [<-|Hc].
    + by rewrite Hfs, Hr.
    + rewrite (IH Hc).
      destruct (fs !! Magi.chapter_json_name folder_name c') as [x|]; [|done].
      by destruct (read_total_pages x).
  - reflexivity.
  - intros e He Heq. unfold Magi.index_entries in He.
    apply list_elem_of_In, in_flat_map in He as (c' & _ & He).
    destruct (fs !! Magi.chapter_json_name folder_name c') as [x|] eqn:Ex;
      [|done].
    destruct (read_total_pages x) eqn:Er; [|done].
    destruct He as [<-|[]]. simpl in Heq. congruence.
Qed.

Lemma Zleb_total a b : Zleb a b = true \/ Zleb b a = true.
Proof. unfold Zleb. lia. Qed.

Lemma sorted_key_le_map (l : list kumiko_page) :
  Sorted (fun a b => Zleb (kumiko_page_num a) (kumiko_page_num b) = true) l ->
  Sorted Z.le (List.map kumiko_page_num l).
Proof.
  induction 1 as [|x l Hs IH Hd]; simpl; constructor; [done|].
  destruct Hd as [|y l Hxy]; simpl; constructor.
  unfold Zleb in Hxy. lia.
Qed.

Lemma kumiko_combine_true json_files output_json temp fault
    (fs fs' : gmap string file_content) :
  Kumiko.combine_jsons_to_json json_files output_json temp fault fs
  = (fs', true) ->
  let pages_data :=
    PySort.sort kumiko_page_num Zleb
      (collect_pages temp 1 (PySort.sort id String.leb json_files)) in
  fs' = <[output_json :=
            Whole (KumikoChapterJson (length pages_data) pages_data)]> fs /\
  pages_data <> [] /\
  Sorted Z.le (List.map kumiko_page_num pages_data).
Proof.
  unfold combine_jsons_to_json.
  set (collected := collect_pages temp 1 _).
  destruct (truthy collected) eqn:Et; [|done].
  intros [_ ->]%write_json_true. split; [done|].
  pose proof (sort_perm kumiko_page_num Zleb collected) as Hp.
  split.
  - intros E. rewrite E in Hp. apply Permutation_nil in Hp.
    by rewrite Hp in Et.
  - apply sorted_key_le_map.
    apply (sort_sorted kumiko_page_num Zleb). intros a b. apply Zleb_total.
Qed.

(** X20: a document the Kumiko aggregator writes holds at least one
    page, its [total_pages] is the number of its pages, and its pages
    are in ascending order of page number: they are the pages gathered
    from the result files, sorted by page number with equal numbers
    left in the order of the files. *)
Theorem kumiko_document_invariant
    (json_files : list string) (output_json : string)
    (temp : gmap string kumiko_json) (fault : write_fault)
    (fs fs' : gmap string file_content) :
  combine_jsons_to_json json_files output_json temp fault fs = (fs', true) ->
  exists pages_data,
    fs' !! output_json
    = Some (Whole (KumikoChapterJson (length pages_data) pages_data)) /\
    pages_data <> [] /\
    Sorted Z.le (List.map kumiko_page_num pages_data) /\
    pages_data
    ≡ₚ collect_pages temp 1 (PySort.sort id String.leb json_files).
Proof.
  intros (-> & Hne & Hs)%kumiko_combine_true.
  eexists. rewrite lookup_insert_eq. repeat split; try done.
  apply (sort_perm kumiko_page_num Zleb).
Qed.
End kumiko_properties.

Section kumiko_witnesses.
Import PyStr Tree Output Binary64 Kumiko.
Local Open Scope list_scope.

Lemma unreadable_chapter_file_and_the_index_witness :
  Kumiko.write_master_index "vol" [Dir "ch1" []; Dir "ch2" []] 1 NoFault
    {[ "vol_ch1.json" := Whole (KumikoChapterJson 0 []);
       "vol_ch2.json" := Truncated (KumikoChapterJson 0 []) 10 ]}
  = ({[ "vol_ch1.json" := Whole (KumikoChapterJson 0 []);
        "vol_ch2.json" := Truncated (KumikoChapterJson 0 []) 10 ]}, false) /\
  Magi.write_master_index "vol" [Dir "ch1" []; Dir "ch2" []] 1 NoFault
    {[ "vol_ch1.json" := Whole (KumikoChapterJson 0 []);
       "vol_ch2.json" := Truncated (KumikoChapterJson 0 []) 10 ]}
  = (<[("vol" ++ ".json")%string :=
         Whole (IndexJson
                  (mk_index "vol" 1
                     (Magi.index_entries "vol" [Dir "ch1" []; Dir "ch2" []]
                        {[ "vol_ch1.json" := Whole (KumikoChapterJson 0 []);
                           "vol_ch2.json" :=
                             Truncated (KumikoChapterJson 0 []) 10 ]})
                     "rtl"))]>
       {[ "vol_ch1.json" := Whole (KumikoChapterJson 0 []);
          "vol_ch2.json" := Truncated (KumikoChapterJson 0 []) 10 ]},
     true) /\
  (forall e,
     e ∈ Magi.index_entries "vol" [Dir "ch1" []; Dir "ch2" []]
           {[ "vol_ch1.json" := Whole (KumikoChapterJson 0 []);
              "vol_ch2.json" := Truncated (KumikoChapterJson 0 []) 10 ]} ->
     chapter_json_file e
     <> Magi.chapter_json_name "vol" (Dir "ch2" [])).
Proof.
  apply (unreadable_chapter_file_and_the_index "vol"
           [Dir "ch1" []; Dir "ch2" []] 1 NoFault _ (Dir "ch2" [])
           (Truncated (KumikoChapterJson 0 []) 10)).
  - right. left.
  - by vm_compute.
  - reflexivity.
Defined.
End kumiko_witnesses.

Section kumiko_page_properties.
Import PyStr Tree Output Binary64 Kumiko.
Local Open Scope list_scope.
Local Open Scope Z_scope.

Lemma float_of_int_small a :
  (0 <= a < 2 ^ 53)%Z ->
  exists fa, float_of_int a = Some fa /\ (fa == inject_Z a)%Q.
Proof.
  intros Ha. destruct (Z.eq_dec a 0) as [->|Hne].
  - exists 0%Q. split; reflexivity.
  - apply float_of_int_exact. lia.
Qed.

(** The quotient of two ints below [2^53], the first at most the
    second: a double in [[0,1]]. *)
Lemma float_div_int_unit a b fa :
  (0 <= a <= b)%Z -> (0 < b < 2 ^ 53)%Z ->
  (fa == inject_Z a)%Q ->
  exists q, float_div_int fa b = Some q /\ (0 <= q <= 1)%Q.
Proof.
  intros Ha Hb Hfa. unfold float_div_int.
  destruct (Z.eqb_spec b 0); [lia|].
  destruct (float_of_int_small b ltac:(lia)) as (fb & -> & Hfb).
  assert (Hq : (0 <= fa / fb <= 1)%Q).
  { rewrite Hfa, Hfb. unfold Qdiv, Qle, Qmult, Qinv, inject_Z. simpl.
    destruct b as [|pb|pb]; try lia. simpl. lia. }
  destruct (RN_unit_interval _ Hq) as [Hr _].
  exists (RN (fa / fb)). split; [|exact Hr]. by apply finite_unit.
Qed.

Lemma convert_panel_on_page W H p :
  (0 < W < 2 ^ 53)%Z -> (0 < H < 2 ^ 53)%Z -> box_on_page W H p ->
  exists q, convert_panel (Some (W, H)) p = Some (Some q) /\
            in_unit_square q.
Proof.
  intros HW HH (x & y & w & h & -> & Hx & Hy & Hw & Hh).
  unfold convert_panel.
  destruct (float_of_int_small x ltac:(lia)) as (fx & -> & Efx).
  destruct (float_of_int_small y ltac:(lia)) as (fy & -> & Efy).
  destruct (float_of_int_small w ltac:(lia)) as (fw & -> & Efw).
  destruct (float_of_int_small h ltac:(lia)) as (fh & -> & Efh).
  assert (Hus : usable_size (Some (W, H)) = Some (W, H)).
  { unfold usable_size.
    destruct (Z.eqb_spec W 0), (Z.eqb_spec H 0); try lia.
    destruct (Z.ltb_spec 0 W), (Z.ltb_spec 0 H); try lia. done. }
  cbn [mbind option_bind]. rewrite Hus.
  destruct (float_div_int_unit x W fx) as (qx & -> & Ux); [lia..|done|].
  destruct (float_div_int_unit y H fy) as (qy & -> & Uy); [lia..|done|].
  destruct (float_div_int_unit w W fw) as (qw & -> & Uw); [lia..|done|].
  destruct (float_div_int_unit h H fh) as (qh & -> & Uh); [lia..|done|].
  simpl. by exists (qx, qy, qw, qh).
Qed.

(** X21: a Kumiko page that gives its size (two positive ints below
    [2^53]) and whose panels are [[x, y, w, h]] lists lying on the
    page is converted without an exception and without a panel left
    out, and every stored coordinate is in [[0,1]], although this
    pipeline neither clamps nor rounds. *)
Theorem kumiko_page_in_unit_square
    (page_data : kumiko_page_data) (page_num W H : Z) (more : list Z)
    (panels : list kumiko_panel) :
  key_size page_data = Some (W :: H :: more) ->
  key_panels page_data = Some panels ->
  (0 < W < 2 ^ 53)%Z -> (0 < H < 2 ^ 53)%Z ->
  Forall (box_on_page W H) panels ->
  exists processed_data,
    preprocess_page_data page_data page_num = Some processed_data /\
    kumiko_page_num processed_data
    = default page_num (key_page page_data) /\
    length (kumiko_panels processed_data) = length panels /\
    Forall in_unit_square (kumiko_panels processed_data).
Proof.
  intros Hs Hp HW HH Hall. unfold preprocess_page_data, page_size.
  rewrite Hs, Hp. simpl default.
  assert (Hc : exists converted,
             convert_panels (Some (W, H)) panels = Some converted /\
             length converted = length panels /\
             Forall in_unit_square converted).
  { clear Hp. induction Hall as [|p l Hp' _ IH].
    - exists []. by repeat split.
    - destruct IH as (cs & Ecs & Hl & Hu).
      destruct (convert_panel_on_page W H p HW HH Hp') as (q & Hq & Uq).
      exists (q :: cs). cbn [convert_panels]. rewrite Hq, Ecs. simpl.
      repeat split; [by rewrite Hl|by constructor]. }
  destruct Hc as (converted & -> & Hl & Hu). simpl.
  eexists. split; [reflexivity|]. by repeat split.
Qed.

Lemma pages_of_single_item numbering item :
  pages_of_items numbering [item]
  = if has_panels item
    then match preprocess_page_data item (numbering 0%nat) with
         | Some processed_data => [processed_data]
         | None => []
         end
    else [].
Proof.
  unfold pages_of_items. simpl.
  destruct (has_panels item); [|done].
  destruct (preprocess_page_data item (numbering 0%nat)); by simpl.
Qed.

(** X22: in the Kumiko pipeline a page takes its number from the
    position of its result file among the sorted result files, and a
    page without a panel is left out: the page numbers of a document
    are those positions, with a gap wherever a page was left out. *)
Theorem kumiko_page_numbers_are_file_positions
    (temp : gmap string kumiko_json) (json_files : list string)
    (items : list kumiko_page_data) (page_num : Z) :
  Forall2 (single_page_file temp) json_files items ->
  List.map kumiko_page_num (collect_pages temp page_num json_files)
  = omap id
      (imap (fun i item =>
               if has_panels item then Some (page_num + Z.of_nat i)%Z
               else None)
            items).
Proof.
  intros Hall. revert page_num.
  induction Hall as [|f item fs its (Hf & Hk & [cs Hcs]) _ IH];
    intros page_num; [done|].
  cbn [collect_pages]. rewrite Hf. simpl default. cbn [pages_of_json].
  rewrite pages_of_single_item, map_app, IH. cbn [imap omap].
  assert (Himap : imap ((fun i item0 =>
                           if has_panels item0
                           then Some (page_num + Z.of_nat i)%Z else None)
                        ∘ S) its
                  = imap (fun i item0 =>
                            if has_panels item0
                            then Some (page_num + 1 + Z.of_nat i)%Z
                            else None) its).
  { apply imap_ext. intros i x _. simpl.
    destruct (has_panels x); [|done]. f_equal. lia. }
  rewrite Himap.
  destruct (has_panels item); simpl; [|done].
  unfold preprocess_page_data. rewrite Hcs, Hk. simpl.
  by rewrite Z.add_0_r.
Qed.
End kumiko_page_properties.

Section kumiko_page_witnesses.
Import PyStr Tree Output Binary64 Kumiko.
Local Open Scope list_scope.
Local Open Scope Z_scope.

Lemma kumiko_document_invariant_witness :
  exists pages_data,
    (<["vol.json" :=
         Whole (KumikoChapterJson 1
                  [mk_kumiko_page 1 (Some "01.jpg")
                     [(0, 0, 4503599627370496 # 9007199254740992,
                       4503599627370496 # 9007199254740992)%Q]])]> ∅
     : gmap string file_content) !! "vol.json"
    = Some (Whole (KumikoChapterJson (length pages_data) pages_data)) /\
    pages_data <> [] /\
    Sorted Z.le (List.map kumiko_page_num pages_data) /\
    pages_data
    ≡ₚ collect_pages
         {[ "01.json" :=
              PagesArray
                [mk_kumiko_page_data (Some "01.jpg") None None
                   (Some [800; 1200])
                   (Some [PanelList [0; 0; 400; 600]])] ]}
         1 (PySort.sort id String.leb ["01.json"]).
Proof.
  apply (kumiko_document_invariant ["01.json"] "vol.json"
           {[ "01.json" :=
                PagesArray
                  [mk_kumiko_page_data (Some "01.jpg") None None
                     (Some [800; 1200])
                     (Some [PanelList [0; 0; 400; 600]])] ]}
           NoFault ∅).
  by vm_compute.
Defined.

Lemma kumiko_page_in_unit_square_witness :
  exists processed_data,
    preprocess_page_data
      (mk_kumiko_page_data (Some "01.jpg") None None (Some [800; 1200])
         (Some [PanelList [0; 0; 400; 600];
                PanelList [400; 600; 400; 600]]))
      1
    = Some processed_data /\
    kumiko_page_num processed_data = default 1 None /\
    length (kumiko_panels processed_data) = 2%nat /\
    Forall in_unit_square (kumiko_panels processed_data).
Proof.
  apply (kumiko_page_in_unit_square
           (mk_kumiko_page_data (Some "01.jpg") None None (Some [800; 1200])
              (Some [PanelList [0; 0; 400; 600];
                     PanelList [400; 600; 400; 600]]))
           1 800 1200 []
           [PanelList [0; 0; 400; 600]; PanelList [400; 600; 400; 600]]).
  - reflexivity.
  - reflexivity.
  - split; [lia|reflexivity].
  - split; [lia|reflexivity].
  - repeat constructor.
    + exists 0, 0, 400, 600. repeat split; lia.
    + exists 400, 600, 400, 600. repeat split; lia.
Defined.

Lemma kumiko_page_numbers_are_file_positions_witness :
  List.map kumiko_page_num
    (collect_pages
       {[ "01.json" :=
            PagesArray
              [mk_kumiko_page_data (Some "01.jpg") None None
                 (Some [800; 1200]) (Some [PanelList [0; 0; 400; 600]])];
          "02.json" :=
            PagesArray
              [mk_kumiko_page_data (Some "02.jpg") None None
                 (Some [800; 1200]) (Some [])];
          "03.json" :=
            PagesArray
              [mk_kumiko_page_data (Some "03.jpg") None None
                 (Some [800; 1200]) (Some [PanelList [0; 0; 400; 600]])] ]}
       1 ["01.json"; "02.json"; "03.json"])
  = omap id
      (imap (fun i item =>
               if has_panels item then Some (1 + Z.of_nat i) else None)
            [mk_kumiko_page_data (Some "01.jpg") None None
               (Some [800; 1200]) (Some [PanelList [0; 0; 400; 600]]);
             mk_kumiko_page_data (Some "02.jpg") None None
               (Some [800; 1200]) (Some []);
             mk_kumiko_page_data (Some "03.jpg") None None
               (Some [800; 1200]) (Some [PanelList [0; 0; 400; 600]])]).
Proof.
  apply kumiko_page_numbers_are_file_positions.
  do 3 (constructor;
        [split; [by vm_compute|split; [reflexivity|]];
         eexists; vm_compute; reflexivity|]).
  constructor.
Defined.
End kumiko_page_witnesses.

(** ** Validation *)

Section validation_properties.
Import Output Validate.
Local Open Scope list_scope.
Local Open Scope string_scope.

(** X23: [validate_json_file] accepts a file of the output directory
    exactly when the file holds a whole document: every chapter
    document and every index the writers dump has the keys the
    validation asks for, and a file cut short by a failed write is
    turned down.  After a write that got as far as opening the file,
    the validation of the file is the value the writer returned. *)
Theorem validation_accepts_whole_documents
    (fs : gmap string file_content) (output_json : string)
    (d : json_doc) (fault : write_fault) :
  (forall c, validate_json_file (load c) = true
             <-> exists d', c = Some (Whole d')) /\
  (fault <> OpenRaises ->
   validate_json_file (load ((write_json fs output_json d fault).1
                               !! output_json))
   = (write_json fs output_json d fault).2).
Proof.
  split.
  - intros [[d'| d' n]|]; simpl; split; try done.
    + eauto.
    + by destruct d'.
    + by intros [? ?].
    + by intros [? ?].
  - intros Hf. destruct fault; simpl; try done;
      rewrite lookup_insert_eq; simpl; [by destruct d|done].
Qed.
End validation_properties.

Section validation_witnesses.
Import Output Validate.
Local Open Scope list_scope.
Local Open Scope string_scope.

Lemma validation_accepts_whole_documents_witness :
  validate_json_file
    (load ((write_json ∅ "vol.json"
              (IndexJson (mk_index "vol" 1
                            [mk_entry "ch1" "vol_ch1.json" 2] "rtl"))
              (DumpRaisesAfter 40)).1 !! "vol.json"))
  = (write_json ∅ "vol.json"
       (IndexJson (mk_index "vol" 1 [mk_entry "ch1" "vol_ch1.json" 2] "rtl"))
       (DumpRaisesAfter 40)).2.
Proof.
  apply (validation_accepts_whole_documents ∅ "vol.json"
           (IndexJson (mk_index "vol" 1
                         [mk_entry "ch1" "vol_ch1.json" 2] "rtl"))
           (DumpRaisesAfter 40)).
  discriminate.
Defined.
End validation_witnesses.

(** ** Runs of the Kumiko pipeline *)

Section kumiko_run_properties.
Import PyStr Tree Extract Output Input KumikoRun.
Local Open Scope list_scope.
Local Open Scope string_scope.

Lemma kumiko_combine_frame json_files output_json temp fault
    (fs : gmap string file_content) k :
  k <> output_json ->
  (Kumiko.combine_jsons_to_json json_files output_json temp fault fs).1 !! k
  = fs !! k.
Proof.
  intros Hk. unfold Kumiko.combine_jsons_to_json.
  destruct (truthy _); [|done]. by apply write_json_frame.
Qed.

(** One turn of the loop over the chapters changes the file of its
    chapter and the temporary directory of its chapter, nothing
    else. *)
Lemma kumiko_chapter_step detect faults cleanup folder_name
    (out : output_dir kumiko_json) n c :
  let turn := process_chapter detect faults cleanup folder_name out n c in
  (forall k, k <> Magi.chapter_json_name folder_name c ->
             out_files turn.1 !! k = out_files out !! k) /\
  (forall k, k <> Magi.chapter_temp_name folder_name c ->
             out_folders turn.1 !! k = out_folders out !! k).
Proof.
  intros turn. subst turn. unfold process_chapter.
  rewrite mkdir_exist_ok_spec.
  destruct (out_files out !! _); [done|].
  assert (Hkeep : forall (content : gmap string kumiko_json) k,
            k <> Magi.chapter_temp_name folder_name c ->
            out_folders
              (with_folder (Magi.chapter_temp_name folder_name c) content out)
              !! k = out_folders out !! k).
  { intros content k Hk. simpl. by rewrite lookup_insert_ne. }
  destruct (truthy (image_files_glob c)).
  2:{ split; intros k Hk; [done|by apply Hkeep]. }
  rewrite folder_content_with_folder.
  destruct (process_images _ _ _ _) as [temp [jf|e]];
    rewrite with_folder_twice.
  2:{ split; intros k Hk; [done|by apply Hkeep]. }
  destruct (truthy jf).
  2:{ split; intros k Hk; [done|by apply Hkeep]. }
  pose proof (kumiko_combine_frame jf (Magi.chapter_json_name folder_name c)
                temp (faults (Magi.chapter_json_name folder_name c))
                (out_files out)) as Hw.
  cbn [out_files with_folder] in *.
  destruct (Kumiko.combine_jsons_to_json _ _ _ _ _) as [fs1 ok].
  simpl in *. split; intros k Hk; [by apply Hw|].
  rewrite rmtree_frame by done. by rewrite lookup_insert_ne.
Qed.

Lemma kumiko_chapter_loop detect faults cleanup folder_name chapter_dirs :
  forall (out : output_dir kumiko_json) n,
  let run :=
    process_chapters detect faults cleanup folder_name chapter_dirs out n in
  (forall k, k ∉ List.map (Magi.chapter_json_name folder_name) chapter_dirs ->
             out_files run.1 !! k = out_files out !! k) /\
  (forall k, k ∉ List.map (Magi.chapter_temp_name folder_name) chapter_dirs ->
             out_folders run.1 !! k = out_folders out !! k).
Proof.
  induction chapter_dirs as [|c l IH]; intros out n; [done|].
  cbn [process_chapters List.map].
  destruct (kumiko_chapter_step detect faults cleanup folder_name out n c)
    as [Hf Hd].
  destruct (process_chapter detect faults cleanup folder_name out n c)
    as [out1 [n1|e]]; simpl in *.
  - destruct (IH out1 n1) as [IHf IHd]. split; intros k Hk.
    + rewrite IHf by (intros ?; apply Hk; by right).
      apply Hf. intros ->. apply Hk. by left.
    + rewrite IHd by (intros ?; apply Hk; by right).
      apply Hd. intros ->. apply Hk. by left.
  - split; intros k Hk.
    + apply Hf. intros ->. apply Hk. by left.
    + apply Hd. intros ->. apply Hk. by left.
Qed.



(** What the two processors of the Kumiko pipeline leave alone, however
    they end. *)
Lemma kumiko_route_frame detect faults cleanup folder
    (out : output_dir kumiko_json) :
  let run :=
    route (process_chapter_based_archive detect faults cleanup)
          (process_with_kumiko detect faults cleanup) folder out in
  (forall k, k <> node_name folder ++ ".json" ->
             k ∉ List.map (Magi.chapter_json_name (node_name folder))
                          (Magi.chapter_dirs_of folder) ->
             out_files run.1 !! k = out_files out !! k) /\
  (forall k, k <> node_name folder ++ "_temp" ->
             k ∉ List.map (Magi.chapter_temp_name (node_name folder))
                          (Magi.chapter_dirs_of folder) ->
             out_folders run.1 !! k = out_folders out !! k).
Proof.
  intros run. subst run. unfold route.
  destruct (is_chapter_based_archive folder).
  - unfold process_chapter_based_archive.
    destruct (truthy (Magi.chapter_dirs_of folder)); [|done].
    destruct (kumiko_chapter_loop detect faults cleanup (node_name folder)
                (Magi.chapter_dirs_of folder) out 0) as [Hf Hd].
    destruct (process_chapters _ _ _ _ _ _ _) as [out1 [n|e]];
      simpl in *; [|by split; intros; auto].
    destruct (n =? 0)%nat; [by split; intros; auto|].
    unfold Kumiko.write_master_index.
    destruct (Kumiko.chapters_data _ _ _) as [entries|];
      [|by split; intros; auto].
    split; intros k Hk Hc.
    + pose proof (write_json_frame (out_files out1)
        (node_name folder ++ ".json")
        (IndexJson (mk_index (node_name folder) n entries "rtl"))
        (faults (node_name folder ++ ".json")) k Hk) as Hw.
      destruct (write_json _ _ _ _) as [fs2 ok]. simpl in *.
      rewrite Hw. auto.
    + destruct (write_json _ _ _ _) as [fs2 ok]. simpl. auto.
  - unfold process_with_kumiko. rewrite mkdir_exist_ok_spec.
    destruct (out_files out !! _); [done|].
    assert (Hkeep : forall (c : gmap string kumiko_json) k,
              k <> node_name folder ++ "_temp" ->
              out_folders (with_folder (node_name folder ++ "_temp") c out)
                !! k = out_folders out !! k).
    { intros c k Hk. simpl. by rewrite lookup_insert_ne. }
    destruct (truthy (image_files_rglob folder)).
    2:{ split; intros k Hk _; [done|by apply Hkeep]. }
    rewrite folder_content_with_folder.
    destruct (process_images _ _ _ _) as [temp [jf|e]].
    2:{ rewrite with_folder_twice. split; intros k Hk _; [done|].
        by apply Hkeep. }
    rewrite with_folder_twice.
    destruct (truthy jf).
    2:{ split; intros k Hk _; [done|by apply Hkeep]. }
    pose proof (kumiko_combine_frame jf (node_name folder ++ ".json") temp
                  (faults (node_name folder ++ ".json")) (out_files out))
      as Hw.
    cbn [out_files with_folder] in *.
    destruct (Kumiko.combine_jsons_to_json _ _ _ _ _) as [fs2 ok].
    simpl in *. split; intros k Hk _; [by apply Hw|].
    rewrite rmtree_frame by done. by rewrite lookup_insert_ne.
Qed.

(** X25: however a run of the Kumiko pipeline ends, by [True], by
    [False] or by an exception, it changes in the output directory only
    the file [<unit>.json], the chapter files [<unit>_<chapter>.json] of
    its chapter directories, and the temporary directories
    [<unit>_temp] and [<unit>_<chapter>_temp], which it makes, may leave
    behind and may remove with whatever they held.  Every other file
    and every other subdirectory is as it was. *)
Theorem kumiko_run_touches_own_files_only
    (env : tools) (blocked : bool) (extracted : list node)
    (detect : path -> bool -> kumiko_run)
    (faults : string -> write_fault)
    (cleanup : string -> rmtree_result kumiko_json) (input : node)
    (out : output_dir kumiko_json) (k : string) :
  let folder :=
    if is_archive (node_name input)
    then Dir (stem (node_name input)) extracted else input in
  let run :=
    kumiko_process_input env blocked extracted detect faults cleanup
                         (Some input) out in
  (k <> unit_name input ++ ".json" ->
   k ∉ List.map (Magi.chapter_json_name (unit_name input))
                (Magi.chapter_dirs_of folder) ->
   out_files run.1 !! k = out_files out !! k) /\
  (k <> unit_name input ++ "_temp" ->
   k ∉ List.map (Magi.chapter_temp_name (unit_name input))
                (Magi.chapter_dirs_of folder) ->
   out_folders run.1 !! k = out_folders out !! k).
Proof.
  intros folder run.
  assert (Hroute :
    node_name folder = unit_name input ->
    let routed :=
      route (process_chapter_based_archive detect faults cleanup)
            (process_with_kumiko detect faults cleanup) folder out in
    (k <> unit_name input ++ ".json" ->
     k ∉ List.map (Magi.chapter_json_name (unit_name input))
                  (Magi.chapter_dirs_of folder) ->
     out_files routed.1 !! k = out_files out !! k) /\
    (k <> unit_name input ++ "_temp" ->
     k ∉ List.map (Magi.chapter_temp_name (unit_name input))
                  (Magi.chapter_dirs_of folder) ->
     out_folders routed.1 !! k = out_folders out !! k)).
  { intros Hn routed.
    destruct (kumiko_route_frame detect faults cleanup folder out)
      as [Hf Hd].
    rewrite Hn in *. split; intros; [by apply Hf | by apply Hd]. }
  subst run. unfold kumiko_process_input, process_input.
  unfold folder, unit_name in *.
  destruct (is_archive (node_name input)).
  - destruct blocked; [done|].
    destruct (ended (extract_archive env (node_name input))) as [[|]|e];
      [|done..].
    by apply Hroute.
  - destruct (is_dir input); [|done]. by apply Hroute.
Qed.
End kumiko_run_properties.

Section kumiko_run_witnesses.
Import PyStr Tree Extract Output Input KumikoRun.
Local Open Scope list_scope.
Local Open Scope string_scope.

Local Abbreviation one_panel :=
  (fun (_ : path) (_ : bool) =>
     KExited 0
       (Some (PagesArray
                [mk_kumiko_page_data (Some "01.jpg") None None
                   (Some [800; 1200]%Z)
                   (Some [PanelList [0; 0; 0; 0]%Z])]))).


Local Abbreviation flat_kumiko_run :=
  (kumiko_process_input
     (mk_tools FileNotFoundError true (Completed "") true
               (Completed "") (Completed "") (Completed ""))
     false [] one_panel (fun _ => NoFault) (fun _ => Removed)
     (Some (Dir "vol" [File "01.jpg" None]))
     (mk_output {[ "other.json" := Whole (KumikoChapterJson 0 []) ]}
                {[ "other_temp" := ∅ ]})).

Lemma kumiko_run_touches_own_files_only_witness :
  out_files flat_kumiko_run.1 !! "other.json"
  = Some (Whole (KumikoChapterJson 0 [])) /\
  out_folders flat_kumiko_run.1 !! "other_temp" = Some ∅.
Proof.
  destruct (kumiko_run_touches_own_files_only
              (mk_tools FileNotFoundError true (Completed "") true
                        (Completed "") (Completed "") (Completed ""))
              false [] one_panel (fun _ => NoFault) (fun _ => Removed)
              (Dir "vol" [File "01.jpg" None])
              (mk_output {[ "other.json" := Whole (KumikoChapterJson 0 []) ]}
                         {[ "other_temp" := ∅ ]})
              "other.json") as [Hf _].
  destruct (kumiko_run_touches_own_files_only
              (mk_tools FileNotFoundError true (Completed "") true
                        (Completed "") (Completed "") (Completed ""))
              false [] one_panel (fun _ => NoFault) (fun _ => Removed)
              (Dir "vol" [File "01.jpg" None])
              (mk_output {[ "other.json" := Whole (KumikoChapterJson 0 []) ]}
                         {[ "other_temp" := ∅ ]})
              "other_temp") as [_ Hd].
  split.
  - rewrite Hf; [reflexivity | vm_compute; discriminate |].
    vm_compute. intros H. by apply elem_of_nil in H.
  - rewrite Hd; [reflexivity | vm_compute; discriminate |].
    vm_compute. intros H. by apply elem_of_nil in H.
Defined.
End kumiko_run_witnesses.

Section normalizer_witnesses.
Import Binary64 Normalizer.
Local Open Scope Z_scope.

Lemma coord_img_size_near_floor_witness :
  exists cw ch,
    coord_img_size 760 1078 = Some (cw, ch) /\
    fst (floor_scaled_size 760 1078) - 1 <= cw
    <= fst (floor_scaled_size 760 1078) /\
    snd (floor_scaled_size 760 1078) - 1 <= ch
    <= snd (floor_scaled_size 760 1078).
Proof.
  apply coord_img_size_near_floor; [lia | lia | split; reflexivity].
Defined.
End normalizer_witnesses.


